(** * PJEMU64: the perceptron-driven unit simulation of [PJEMU64.cpp]

    A shallow embedding of the program's classes ([Neuron],
    [NeuralNetwork], [Unit], [Game]) and of [main], followed by the
    properties of the specification that can be settled on it.

    - [float] is IEEE-754 binary32, given by the Standard Library's
      [SpecFloat] operations at precision 24 and maximal exponent 128.
    - The C library's [tanh], [atan2f], [cosf] and [sinf] are not part
      of the source: they are the fields of the class [LibM].
    - Randomness, the SDL backend's answers and the event queue are the
      fields of the class [Host]; the program state that counts how much
      of them has been consumed is the record [World].
    - A read outside a [std::vector] and a failed [resize] are the two
      constructors of [fault].
    - The order in which the two [rand()] arguments of a unit's
      construction are evaluated is left to the compiler by C++: it is
      a field of [Host] too.
    - The member functions are given twice: as functions of the
      object's fields, and with the object passed through every call
      ([Method]); the second form shows which members a call leaves
      alone. *)

From Stdlib Require Import String ZArith List Bool Lia SpecFloat.
Import ListNotations.
Local Open Scope Z_scope.

(** ** binary32 arithmetic *)

Module F32.

Definition prec : Z := 24.
Definition emax : Z := 128.

Definition float : Type := spec_float.

Definition add : float -> float -> float := SFadd prec emax.
Definition sub : float -> float -> float := SFsub prec emax.
Definition mul : float -> float -> float := SFmul prec emax.
Definition div : float -> float -> float := SFdiv prec emax.
(** [sqrtf] is the correctly rounded square root of IEEE 754. *)
Definition sqrtf : float -> float := SFsqrt prec emax.
Definition ltb : float -> float -> bool := SFltb.
Definition leb : float -> float -> bool := SFleb.

Definition is_nan (x : float) : bool :=
  match x with S754_nan => true | _ => false end.

(** Conversion of an [int] to [float]: round to nearest, ties to even. *)
Definition of_int (z : Z) : float := binary_normalize prec emax z 0 false.

Definition INT_MIN : Z := - 2 ^ 31.
Definition INT_MAX : Z := 2 ^ 31 - 1.

(** [static_cast<int>]: truncation toward zero.  Outside the range of
    [int] (and for NaN and the infinities) C++ leaves the conversion
    undefined; the value chosen here is the one the x86-64 conversion
    instruction delivers. *)
Definition to_int (x : float) : Z :=
  match x with
  | S754_zero _ => 0
  | S754_finite s m e =>
      let mag := match e with
                 | Zneg p => Z.shiftr (Zpos m) (Zpos p)
                 | _ => Z.shiftl (Zpos m) e
                 end in
      let v := if s then - mag else mag in
      if (INT_MIN <=? v) && (v <=? INT_MAX) then v else INT_MIN
  | _ => INT_MIN
  end.

Definition zero : float := S754_zero false.
Definition one : float := of_int 1.
Definition minus_one : float := of_int (-1).

(** [M_PI] is the double 0x400921FB54442D18, that is
    7074237752028440 * 2^-51; [static_cast<float>(M_PI)] rounds it to
    binary32. *)
Definition M_PI_f : float :=
  binary_normalize prec emax 7074237752028440 (-51) false.

End F32.

Abbreviation float := F32.float.

(** ** Faults, the host and the two monads *)

(** What C++ does when a vector is misused: [resize] with a size beyond
    [max_size] throws [std::length_error]; [operator[]] outside the
    vector is undefined behaviour (nothing in the source checks it). *)
Inductive fault : Set :=
  | LengthError
  | OutOfBounds.

Inductive result (A : Type) : Type :=
  | Ok (a : A)
  | Fault (f : fault).
Arguments Ok {A} a.
Arguments Fault {A} f.

Definition bindR {A B : Type} (c : result A) (k : A -> result B) : result B :=
  match c with
  | Ok a => k a
  | Fault f => Fault f
  end.

(** The functions of [<cmath>] the program calls and does not define.
    [tanh] is the value of [tanh(sum)] once converted to the [float]
    that [activate] returns. *)
Class LibM : Type := {
  tanh : float -> float;
  atan2f : float -> float -> float;
  cosf : float -> float;
  sinf : float -> float
}.

(** A non-null pointer handed out by SDL; [None] is [nullptr]. *)
Definition handle : Set := nat.

Inductive SDL_Event : Set :=
  | SDL_QUIT
  | SDL_MOUSEBUTTONDOWN (x y : Z)
  | SDL_OTHEREVENT.

(** Everything the process receives from outside.
    - [random_device k]: the value of the [k]-th [rd()] of the process;
    - [uniform_draw s k]: the [k]-th [dis(gen)] of a [std::mt19937]
      seeded with [s], as stored into a [float] weight;
    - [c_rand k]: the [k]-th [rand()];
    - [arguments_right_to_left]: whether the build evaluates the
      arguments of a call from the last to the first, an order that
      C++ leaves to the compiler;
    - the SDL answers during [init] and the unit constructors;
    - [SDL_PollEvent k]: the events that the [k]-th call of
      [handleEvents] drains from the queue, in order. *)
Class Host : Type := {
  random_device : nat -> Z;
  uniform_draw : Z -> nat -> float;
  c_rand : nat -> Z;
  arguments_right_to_left : bool;
  SDL_Init : Z;
  SDL_CreateWindow : option handle;
  SDL_CreateRenderer : option handle;
  SDL_LoadBMP : string -> option handle;
  SDL_CreateTextureFromSurface : handle -> option handle;
  SDL_PollEvent : nat -> list SDL_Event
}.

(** How much of the host's sequences the process has consumed. *)
Record World : Set := mkWorld {
  rd_calls : nat;
  rand_calls : nat;
  polls : nat
}.

Definition M (A : Type) : Type := World -> result (A * World).

Definition ret {A : Type} (a : A) : M A := fun w => Ok (a, w).

Definition bind {A B : Type} (c : M A) (k : A -> M B) : M B :=
  fun w => match c w with
           | Ok (a, w') => k a w'
           | Fault f => Fault f
           end.

Definition throw {A : Type} (f : fault) : M A := fun _ => Fault f.

Definition lift {A : Type} (r : result A) : M A :=
  fun w => match r with
           | Ok a => Ok (a, w)
           | Fault f => Fault f
           end.

Declare Scope pj_scope.
Notation "x <- c ;; k" := (bind c (fun x => k))
  (at level 61, c at next level, right associativity) : pj_scope.
Notation "'let*' x := c 'in' k" := (bindR c (fun x => k))
  (at level 61, x name, c at next level, right associativity) : pj_scope.
Local Open Scope pj_scope.

Definition rd `{Host} : M Z :=
  fun w => Ok (random_device (rd_calls w),
               mkWorld (S (rd_calls w)) (rand_calls w) (polls w)).

Definition rand `{Host} : M Z :=
  fun w => Ok (c_rand (rand_calls w),
               mkWorld (rd_calls w) (S (rand_calls w)) (polls w)).

Definition poll_events `{Host} : M (list SDL_Event) :=
  fun w => Ok (SDL_PollEvent (polls w),
               mkWorld (rd_calls w) (rand_calls w) (S (polls w))).

(** ** SDL's plain structs *)

Module SDL_Point.
Record t : Set := mk { x : Z; y : Z }.
End SDL_Point.

Module SDL_Rect.
Record t : Set := mk { x : Z; y : Z; w : Z; h : Z }.
End SDL_Rect.

(** ** class Neuron *)

Module Neuron.

Record t : Type := mk {
  weights : list float;
  bias : float
}.

(** [Neuron(int inputs)]: the bias is initialised to [0.0f]; one
    generator is seeded from [rd()] and every weight is the next
    [dis(gen)].  A negative [inputs] becomes a huge [size_t] in
    [weights.resize], which throws. *)
Definition new `{Host} (inputs : Z) : M t :=
  seed <- rd ;;
  if inputs <? 0 then throw LengthError
  else ret (mk (map (uniform_draw seed) (seq 0 (Z.to_nat inputs))) F32.zero).

(** The loop of [activate], started at index [i] with [rest] the
    inputs from [i] on: [sum += inputs[i] * weights[i]]. *)
Fixpoint accumulate (ws : list float) (i : nat) (rest : list float)
                    (sum : float) : result float :=
  match rest with
  | [] => Ok sum
  | input :: rest' =>
      match nth_error ws i with
      | Some w => accumulate ws (S i) rest' (F32.add sum (F32.mul input w))
      | None => Fault OutOfBounds
      end
  end.

Definition activate `{LibM} (n : t) (inputs : list float) : result float :=
  let* sum := accumulate (weights n) 0 inputs (bias n) in
  Ok (tanh sum).

End Neuron.

(** ** class NeuralNetwork *)

Module NeuralNetwork.

Record t : Type := mk { layers : list (list Neuron.t) }.

(** The inner loop [for (int j = 0; j < topology[i]; j++)], with
    [count] the number of iterations left. *)
Fixpoint new_layer `{Host} (count : nat) (numInputs : Z) : M (list Neuron.t) :=
  match count with
  | O => ret []
  | S count' =>
      n <- Neuron.new numInputs ;;
      layer <- new_layer count' numInputs ;;
      ret (n :: layer)
  end.

(** The outer loop from index [i] on: [numInputs] is [topology[i-1]]
    and [rest] is [topology[i..]]. *)
Fixpoint new_layers `{Host} (numInputs : Z) (rest : list Z)
  : M (list (list Neuron.t)) :=
  match rest with
  | [] => ret []
  | size :: rest' =>
      layer <- new_layer (Z.to_nat size) numInputs ;;
      ls <- new_layers size rest' ;;
      ret (layer :: ls)
  end.

Definition new `{Host} (topology : list Z) : M t :=
  match topology with
  | [] => ret (mk [])
  | first :: rest => ls <- new_layers first rest ;; ret (mk ls)
  end.

(** One layer: [outputs.push_back(neuron.activate(inputs))]. *)
Fixpoint layer_outputs `{LibM} (layer : list Neuron.t) (inputs : list float)
  : result (list float) :=
  match layer with
  | [] => Ok []
  | neuron :: layer' =>
      let* o := Neuron.activate neuron inputs in
      let* outputs := layer_outputs layer' inputs in
      Ok (o :: outputs)
  end.

Fixpoint feed `{LibM} (ls : list (list Neuron.t)) (inputs : list float)
  : result (list float) :=
  match ls with
  | [] => Ok inputs
  | layer :: ls' =>
      let* outputs := layer_outputs layer inputs in
      feed ls' outputs
  end.

Definition feedForward `{LibM} (net : t) (inputs : list float)
  : result (list float) :=
  feed (layers net) inputs.

End NeuralNetwork.

(** ** class Unit *)

Module Unit.

Record t : Type := mk {
  rect : SDL_Rect.t;
  texture : option handle;
  brain : NeuralNetwork.t;
  x : float;
  y : float;
  speed : float
}.

Definition topology : list Z := [4; 6; 2].

(** [Unit(startX, startY, renderer, imagePath)].  A missing image
    leaves [texture] null. *)
Definition new `{Host} (startX startY : Z) (imagePath : string) : M t :=
  brain0 <- NeuralNetwork.new topology ;;
  let x0 := F32.of_int startX in
  let y0 := F32.of_int startY in
  let rect0 := SDL_Rect.mk (F32.to_int x0) (F32.to_int y0) 40 40 in
  let texture0 := match SDL_LoadBMP imagePath with
                  | None => None
                  | Some surface => SDL_CreateTextureFromSurface surface
                  end in
  ret (mk rect0 texture0 brain0 x0 y0 (F32.of_int 2)).

(** The four numbers [update] hands to the network. *)
Definition inputs `{LibM} (target : SDL_Point.t) (u : t) : list float :=
  let dx := F32.sub (F32.of_int (SDL_Point.x target)) (x u) in
  let dy := F32.sub (F32.of_int (SDL_Point.y target)) (y u) in
  let distance := F32.sqrtf (F32.add (F32.mul dx dx) (F32.mul dy dy)) in
  let angle := atan2f dy dx in
  [ F32.div distance (F32.of_int 800);
    F32.div angle F32.M_PI_f;
    F32.div (speed u) (F32.of_int 5);
    F32.zero ].

(** [if (v < 0) v = 0; if (v > limit) v = limit;] with [limit] the
    [int] expression [800 - rect.w] or [600 - rect.h]. *)
Definition clamp (limit : Z) (v : float) : float :=
  let v1 := if F32.ltb v (F32.of_int 0) then F32.of_int 0 else v in
  if F32.ltb (F32.of_int limit) v1 then F32.of_int limit else v1.

(** The coordinates after integration and before the bounds test. *)
Definition raw_x `{LibM} (u : t) (o0 o1 : float) : float :=
  let speed' := F32.mul o0 (F32.of_int 5) in
  let direction := F32.mul o1 F32.M_PI_f in
  F32.add (x u) (F32.mul (cosf direction) speed').

Definition raw_y `{LibM} (u : t) (o0 o1 : float) : float :=
  let speed' := F32.mul o0 (F32.of_int 5) in
  let direction := F32.mul o1 F32.M_PI_f in
  F32.add (y u) (F32.mul (sinf direction) speed').

Definition update `{LibM} (target : SDL_Point.t) (u : t) : result t :=
  let* outputs := NeuralNetwork.feedForward (brain u) (inputs target u) in
  match nth_error outputs 0, nth_error outputs 1 with
  | Some o0, Some o1 =>
      let speed' := F32.mul o0 (F32.of_int 5) in
      let x' := clamp (800 - SDL_Rect.w (rect u)) (raw_x u o0 o1) in
      let y' := clamp (600 - SDL_Rect.h (rect u)) (raw_y u o0 o1) in
      let rect' := SDL_Rect.mk (F32.to_int x') (F32.to_int y')
                               (SDL_Rect.w (rect u)) (SDL_Rect.h (rect u)) in
      Ok (mk rect' (texture u) (brain u) x' y' speed')
  | _, _ => Fault OutOfBounds
  end.

End Unit.

(** ** class Game *)

Module Game.

Record t : Type := mk {
  window : option handle;
  renderer : option handle;
  running : bool;
  units : list Unit.t;
  target : SDL_Point.t;
  targetTexture : option handle
}.

(** [Game()]. *)
Definition new : t :=
  mk None None false [] (SDL_Point.mk 400 300) None.

(** The two arguments [rand() % 800, rand() % 600] of a unit's
    construction, given the results [r1] and [r2] of the first and of
    the second [rand()] that the call makes: the first result goes to
    the argument that the build evaluates first. *)
Definition start_point `{Host} (r1 r2 : Z) : Z * Z :=
  if arguments_right_to_left then (Z.rem r2 800, Z.rem r1 600)
  else (Z.rem r1 800, Z.rem r2 600).

(** The loop of [init] that creates the units, [count] iterations
    left. *)
Fixpoint spawn `{Host} (count : nat) (us : list Unit.t) : M (list Unit.t) :=
  match count with
  | O => ret us
  | S count' =>
      r1 <- rand ;;
      r2 <- rand ;;
      u <- Unit.new (fst (start_point r1 r2)) (snd (start_point r1 r2))
                    "cat_unit.bmp" ;;
      spawn count' (us ++ [u])
  end.

(** [init()]: the returned [bool] is the function's result. *)
Definition init `{Host} (g : t) : M (bool * t) :=
  if SDL_Init <? 0 then ret (false, g)
  else
    let g1 := mk SDL_CreateWindow (renderer g) (running g) (units g)
                 (target g) (targetTexture g) in
    match window g1 with
    | None => ret (false, g1)
    | Some _ =>
        let g2 := mk (window g1) SDL_CreateRenderer (running g1) (units g1)
                     (target g1) (targetTexture g1) in
        match renderer g2 with
        | None => ret (false, g2)
        | Some _ =>
            let tex := match SDL_LoadBMP "cat_target.bmp" with
                       | None => None
                       | Some surface => SDL_CreateTextureFromSurface surface
                       end in
            us <- spawn 5 (units g2) ;;
            ret (true, mk (window g2) (renderer g2) true us (target g2) tex)
        end
    end.

(** The body of the polling loop for one event. *)
Definition handleEvent (g : t) (event : SDL_Event) : t :=
  match event with
  | SDL_QUIT =>
      mk (window g) (renderer g) false (units g) (target g) (targetTexture g)
  | SDL_MOUSEBUTTONDOWN px py =>
      mk (window g) (renderer g) (running g) (units g)
         (SDL_Point.mk px py) (targetTexture g)
  | SDL_OTHEREVENT => g
  end.

Definition handleEvents `{Host} (g : t) : M t :=
  events <- poll_events ;;
  ret (fold_left handleEvent events g).

(** [for (auto& unit : units) unit->update(target);] *)
Fixpoint update_units `{LibM} (target : SDL_Point.t) (us : list Unit.t)
  : result (list Unit.t) :=
  match us with
  | [] => Ok []
  | u :: us' =>
      let* u' := Unit.update target u in
      let* us'' := update_units target us' in
      Ok (u' :: us'')
  end.

Definition update `{LibM} (g : t) : result t :=
  let* us := update_units (target g) (units g) in
  Ok (mk (window g) (renderer g) (running g) us (target g) (targetTexture g)).

Definition isRunning (g : t) : bool := running g.

End Game.

(** ** main *)

(** What a run of [main] has come to: the process has returned [code],
    or the loop is still turning when the frames looked at are over. *)
Inductive outcome : Set :=
  | Exit (code : Z)
  | StillRunning.

(** The [while (game.isRunning())] loop over at most [frames] frames;
    the result is the game as the loop leaves it.  [render] and
    [SDL_Delay] draw and wait; they assign no member of [Game] and are
    left out. *)
Fixpoint main_loop `{LibM} `{Host} (frames : nat) (g : Game.t) : M Game.t :=
  if Game.isRunning g then
    match frames with
    | O => ret g
    | S frames' =>
        g1 <- Game.handleEvents g ;;
        g2 <- lift (Game.update g1) ;;
        main_loop frames' g2
    end
  else ret g.

(** [main], looking at no more than [frames] frames.  After the loop
    [clean] releases the SDL resources and [main] returns 0. *)
Definition main `{LibM} `{Host} (frames : nat) : M outcome :=
  r <- Game.init Game.new ;;
  if fst r then
    g <- main_loop frames (snd r) ;;
    ret (if Game.isRunning g then StillRunning else Exit 0)
  else ret (Exit (-1)).

Definition world0 : World := mkWorld 0 0 0.

(** ** The member functions with their object

    [activate], [feedForward] and [update] are not declared [const]: a
    call receives its object through [this] and is free to assign to
    its members.  A [Method S A] is a member function of a class with
    state [S] that returns an [A]: it is given the object and the
    world, and hands back its result with the object and the world as
    the call leaves them. *)
Definition Method (S A : Type) : Type := S -> M (A * S).

(** Reading a member. *)
Definition member {S B : Type} (field : S -> B) : Method S B :=
  fun this => ret (field this, this).

(** Assigning to members. *)
Definition assign {S : Type} (change : S -> S) : Method S unit :=
  fun this => ret (tt, change this).

Definition returns {S A : Type} (a : A) : Method S A :=
  fun this => ret (a, this).

Definition undefined {S A : Type} (f : fault) : Method S A :=
  fun _ => throw f.

Definition and_then {S A B : Type} (m : Method S A) (k : A -> Method S B)
  : Method S B :=
  fun this => r <- m this ;; k (fst r) (snd r).

(** [field.method(...)]: the method runs on the member, and the member
    is what the call leaves of it. *)
Definition on_member {S E A : Type} (get : S -> E) (set : E -> S -> S)
                     (m : Method E A) : Method S A :=
  fun this => r <- m (get this) ;; ret (fst r, set (snd r) this).

Notation "'let!' x := c 'in' k" := (and_then c (fun x => k))
  (at level 61, x name, c at next level, right associativity) : pj_scope.

(** The loop of [activate] from index [i] on; [weights[i]] is read
    from the object at every turn. *)
Fixpoint Neuron_accumulate_this (i : nat) (rest : list float) (sum : float)
  : Method Neuron.t float :=
  match rest with
  | [] => returns sum
  | input :: rest' =>
      let! ws := member Neuron.weights in
      match nth_error ws i with
      | Some w =>
          Neuron_accumulate_this (S i) rest' (F32.add sum (F32.mul input w))
      | None => undefined OutOfBounds
      end
  end.

Definition Neuron_activate_this `{LibM} (inputs : list float)
  : Method Neuron.t float :=
  let! b := member Neuron.bias in
  let! sum := Neuron_accumulate_this 0 inputs b in
  returns (tanh sum).

(** The inner loop of [feedForward]: every neuron of the layer is
    called in turn and stays in the layer as its call leaves it. *)
Fixpoint layer_outputs_this `{LibM} (inputs : list float)
  : Method (list Neuron.t) (list float) :=
  fun layer =>
    match layer with
    | [] => ret ([], [])
    | neuron :: layer' =>
        r <- Neuron_activate_this inputs neuron ;;
        rs <- layer_outputs_this inputs layer' ;;
        ret (fst r :: fst rs, snd r :: snd rs)
    end.

(** The outer loop, [inputs] being the local variable that each layer
    overwrites. *)
Fixpoint feed_this `{LibM} (inputs : list float)
  : Method (list (list Neuron.t)) (list float) :=
  fun ls =>
    match ls with
    | [] => ret (inputs, [])
    | layer :: ls' =>
        r <- layer_outputs_this inputs layer ;;
        rs <- feed_this (fst r) ls' ;;
        ret (fst rs, snd r :: snd rs)
    end.

Definition NeuralNetwork_feedForward_this `{LibM} (inputs : list float)
  : Method NeuralNetwork.t (list float) :=
  on_member NeuralNetwork.layers (fun ls _ => NeuralNetwork.mk ls)
            (feed_this inputs).

Definition set_brain (b : NeuralNetwork.t) (u : Unit.t) : Unit.t :=
  Unit.mk (Unit.rect u) (Unit.texture u) b (Unit.x u) (Unit.y u)
          (Unit.speed u).

Definition set_speed (v : float) (u : Unit.t) : Unit.t :=
  Unit.mk (Unit.rect u) (Unit.texture u) (Unit.brain u) (Unit.x u)
          (Unit.y u) v.

Definition set_x (v : float) (u : Unit.t) : Unit.t :=
  Unit.mk (Unit.rect u) (Unit.texture u) (Unit.brain u) v (Unit.y u)
          (Unit.speed u).

Definition set_y (v : float) (u : Unit.t) : Unit.t :=
  Unit.mk (Unit.rect u) (Unit.texture u) (Unit.brain u) (Unit.x u) v
          (Unit.speed u).

Definition set_rect (r : SDL_Rect.t) (u : Unit.t) : Unit.t :=
  Unit.mk r (Unit.texture u) (Unit.brain u) (Unit.x u) (Unit.y u)
          (Unit.speed u).

(** [Unit::update], statement by statement. *)
Definition Unit_update_this `{LibM} (target : SDL_Point.t)
  : Method Unit.t unit :=
  let! inputs := member (Unit.inputs target) in
  let! outputs := on_member Unit.brain set_brain
                       (NeuralNetwork_feedForward_this inputs) in
  match nth_error outputs 0, nth_error outputs 1 with
  | Some o0, Some o1 =>
      let! _ := assign (set_speed (F32.mul o0 (F32.of_int 5))) in
      let direction := F32.mul o1 F32.M_PI_f in
      let! _ := assign (fun u => set_x (F32.add (Unit.x u)
                                     (F32.mul (cosf direction)
                                              (Unit.speed u))) u) in
      let! _ := assign (fun u => set_y (F32.add (Unit.y u)
                                     (F32.mul (sinf direction)
                                              (Unit.speed u))) u) in
      let! _ := assign (fun u => if F32.ltb (Unit.x u) (F32.of_int 0)
                            then set_x (F32.of_int 0) u else u) in
      let! _ := assign (fun u =>
                     let limit := F32.of_int
                                    (800 - SDL_Rect.w (Unit.rect u)) in
                     if F32.ltb limit (Unit.x u) then set_x limit u
                     else u) in
      let! _ := assign (fun u => if F32.ltb (Unit.y u) (F32.of_int 0)
                            then set_y (F32.of_int 0) u else u) in
      let! _ := assign (fun u =>
                     let limit := F32.of_int
                                    (600 - SDL_Rect.h (Unit.rect u)) in
                     if F32.ltb limit (Unit.y u) then set_y limit u
                     else u) in
      assign (fun u => set_rect (SDL_Rect.mk (F32.to_int (Unit.x u))
                                             (F32.to_int (Unit.y u))
                                             (SDL_Rect.w (Unit.rect u))
                                             (SDL_Rect.h (Unit.rect u))) u)
  | _, _ => undefined OutOfBounds
  end.

(** ** Shapes and well-formed units *)

(** [has_shape n sizes ls]: the layers [ls] have [sizes] neurons, the
    neurons of the first layer have [n] weights and those of every
    later layer as many weights as the layer before has neurons. *)
Fixpoint has_shape (numInputs : nat) (sizes : list nat)
                   (ls : list (list Neuron.t)) : bool :=
  match sizes, ls with
  | [], [] => true
  | size :: sizes', layer :: ls' =>
      (length layer =? size)%nat
      && forallb (fun n => (length (Neuron.weights n) =? numInputs)%nat) layer
      && has_shape size sizes' ls'
  | _, _ => false
  end.

(** A unit as the constructor makes it and [update] keeps it: a 40x40
    box and a brain of topology {4, 6, 2}. *)
Definition Unit_wf (u : Unit.t) : bool :=
  (SDL_Rect.w (Unit.rect u) =? 40) && (SDL_Rect.h (Unit.rect u) =? 40)
  && has_shape 4 [6; 2]%nat (NeuralNetwork.layers (Unit.brain u)).

(** The neuron that the [call]-th [rd()] of the process gives rise to:
    the generator is seeded with that value and the weights are its
    first [inputs] draws. *)
Definition drawn_neuron `{Host} (inputs : Z) (call : nat) : Neuron.t :=
  Neuron.mk (map (uniform_draw (random_device call)) (seq 0 (Z.to_nat inputs)))
            F32.zero.

(** [count] neurons in a row, the first from the [call]-th [rd()]. *)
Definition drawn_layer `{Host} (inputs : Z) (call count : nat)
  : list Neuron.t :=
  map (drawn_neuron inputs) (seq call count).

Fixpoint drawn_layers `{Host} (numInputs : Z) (call : nat) (rest : list Z)
  : list (list Neuron.t) :=
  match rest with
  | [] => []
  | size :: rest' =>
      drawn_layer numInputs call (Z.to_nat size)
      :: drawn_layers size (call + Z.to_nat size) rest'
  end.

Definition neuron_count (rest : list Z) : nat :=
  fold_right (fun size n => (Z.to_nat size + n)%nat) 0%nat rest.

(** The world after [calls] more [rd()]. *)
Definition after_rd (w : World) (calls : nat) : World :=
  mkWorld (calls + rd_calls w) (rand_calls w) (polls w).

(** A neuron as [Neuron(inputs)] leaves it: zero bias, and the weights
    are the first draws of one generator. *)
Definition fresh_neuron `{Host} (inputs : Z) (n : Neuron.t) : Prop :=
  Neuron.bias n = F32.zero /\
  exists seed : Z,
    Neuron.weights n = map (uniform_draw seed) (seq 0 (Z.to_nat inputs)).

Fixpoint fresh_layers `{Host} (numInputs : Z) (rest : list Z)
                      (ls : list (list Neuron.t)) : Prop :=
  match rest, ls with
  | [], [] => True
  | size :: rest', layer :: ls' =>
      length layer = Z.to_nat size
      /\ Forall (fresh_neuron numInputs) layer
      /\ fresh_layers size rest' ls'
  | _, _ => False
  end.

Definition is_quit (e : SDL_Event) : bool :=
  match e with SDL_QUIT => true | _ => false end.

Definition is_press (e : SDL_Event) : bool :=
  match e with SDL_MOUSEBUTTONDOWN _ _ => true | _ => false end.

(** The closed interval [-1, 1] of binary32. *)
Definition in_unit_interval (v : float) : bool :=
  F32.leb F32.minus_one v && F32.leb v F32.one.

(** ** Stand-ins for running the model *)

(** A C library to evaluate examples with.  Its [tanh] is a step
    function with the values that Annex F of the C standard fixes
    (NaN, the zeros, +-1 at the infinities): the identity below
    magnitude 1/2, +-3/4 from there up to 16 and +-1 from 16 on, where
    the binary32 value of the true function is +-1 as well.  The other
    three functions are constant. *)
Definition half : float := F32.div F32.one (F32.of_int 2).
Definition minus_quarter : float := F32.div F32.minus_one (F32.of_int 4).
Definition three_quarters : float := F32.div (F32.of_int 3) (F32.of_int 4).

Definition tanh_stub (v : float) : float :=
  match v with
  | S754_finite s _ _ =>
      if F32.ltb (SFabs v) half then v
      else if F32.ltb (SFabs v) (F32.of_int 16)
           then if s then SFopp three_quarters else three_quarters
           else if s then F32.minus_one else F32.one
  | S754_infinity s => if s then F32.minus_one else F32.one
  | _ => v
  end.

Definition libm_stub : LibM := {|
  tanh := tanh_stub;
  atan2f := fun _ _ => F32.zero;
  cosf := fun _ => F32.one;
  sinf := fun _ => F32.zero
|}.

(** A host whose distribution alternates between 1/2 and -1/4, whose
    [rand()] counts up from 345 in steps of 45 (within [RAND_MAX]),
    built with arguments evaluated left to right, whose SDL starts up
    but finds no image file, and whose user presses at (100, 200) in
    the second frame and closes the window in the fourth. *)
Definition host_stub : Host := {|
  random_device := fun k => Z.of_nat k;
  uniform_draw := fun seed k => if Z.even (seed + Z.of_nat k) then half
                                else minus_quarter;
  c_rand := fun k => (45 * Z.of_nat k + 345) mod 2147483648;
  arguments_right_to_left := false;
  SDL_Init := 0;
  SDL_CreateWindow := Some 1%nat;
  SDL_CreateRenderer := Some 2%nat;
  SDL_LoadBMP := fun _ => None;
  SDL_CreateTextureFromSurface := fun _ => None;
  SDL_PollEvent := fun k =>
    match k with
    | 1%nat => [SDL_OTHEREVENT; SDL_MOUSEBUTTONDOWN 100 200]
    | 3%nat => [SDL_QUIT]
    | _ => []
    end
|}.

(** The same host with a video subsystem that does not start. *)
Definition host_no_video : Host := {|
  random_device := fun k => Z.of_nat k;
  uniform_draw := fun seed k => half;
  c_rand := fun k => Z.of_nat k mod 2147483648;
  arguments_right_to_left := true;
  SDL_Init := -1;
  SDL_CreateWindow := None;
  SDL_CreateRenderer := None;
  SDL_LoadBMP := fun _ => None;
  SDL_CreateTextureFromSurface := fun _ => None;
  SDL_PollEvent := fun _ => []
|}.

(** ** Auxiliary definitions *)

(** One turn of the loop of [activate] on a paired input and weight. *)
Definition mac (sum : float) (p : float * float) : float :=
  F32.add sum (F32.mul (fst p) (snd p)).

Definition tanh_value `{LibM} (o : float) : Prop := exists s, o = tanh s.

(** The sum that [activate] hands to [tanh]: the bias, and then every
    [inputs[i] * weights[i]] added to it in index order. *)
Definition weighted_sum (n : Neuron.t) (inputs : list float) : float :=
  fold_left mac (combine inputs (Neuron.weights n)) (Neuron.bias n).

(** What the C standard asks of [tanh]: of a number, infinite or not,
    a result between -1 and 1; of NaN, NaN. *)
Definition tanh_of_number (L : LibM) : Prop :=
  forall s, F32.is_nan s = false -> in_unit_interval (tanh s) = true.

Definition tanh_of_nan (L : LibM) : Prop :=
  forall s, F32.is_nan s = true -> F32.is_nan (tanh s) = true.

(** ** Finite numbers and the units the program can hold *)

(** A finite binary32 number: a zero, or a mantissa of at most 24
    bits. *)
Definition binary32 (v : float) : bool :=
  match v with
  | S754_zero _ => true
  | S754_finite _ m _ => Zpos (digits2_pos m) <=? 24
  | _ => false
  end.

(** A finite binary32 number of magnitude below [2 ^ k]. *)
Definition within (k : Z) (v : float) : bool :=
  match v with
  | S754_zero _ => true
  | S754_finite _ m e =>
      (Zpos (digits2_pos m) <=? 24) && (Zpos (digits2_pos m) + e <=? k)
  | _ => false
  end.

(** Not a negative number: what [sqrtf] takes to a number. *)
Definition not_negative (v : float) : bool :=
  match v with
  | S754_finite s _ _ => negb s
  | _ => true
  end.

(** A binary32 number of [-1, 1]. *)
Definition in_range (v : float) : bool := binary32 v && in_unit_interval v.

Definition neuron_in_range (n : Neuron.t) : bool :=
  in_range (Neuron.bias n) && forallb in_range (Neuron.weights n).

(** A value of the C type [int]. *)
Definition is_int (z : Z) : bool :=
  (F32.INT_MIN <=? z) && (z <=? F32.INT_MAX).

(** What the mathematical functions give on finite arguments: [tanh],
    [cosf] and [sinf] a number of [-1, 1], [atan2f] an angle of
    [-pi, pi], which lies within [-4, 4]. *)
Definition libm_in_range (L : LibM) : Prop :=
  (forall s, binary32 s = true -> in_range (tanh s) = true)
  /\ (forall d, binary32 d = true -> in_range (cosf d) = true)
  /\ (forall d, binary32 d = true -> in_range (sinf d) = true)
  /\ (forall a b, binary32 a = true -> binary32 b = true ->
        binary32 (atan2f a b) = true
        /\ F32.leb (F32.of_int (-4)) (atan2f a b) = true
        /\ F32.leb (atan2f a b) (F32.of_int 4) = true).

(** What [std::uniform_real_distribution<>(-1.0, 1.0)] gives: every
    weight is a number of [-1, 1]. *)
Definition draws_in_range (H : Host) : Prop :=
  forall (seed : Z) (k : nat), in_range (uniform_draw seed k) = true.

(** The invariant of a unit: its box and brain as the constructor made
    them, weights and biases in [-1, 1], a finite position of
    magnitude below [2 ^ 33] and a finite speed of magnitude below
    [2 ^ 5]. *)
Definition Unit_inv (u : Unit.t) : bool :=
  Unit_wf u
  && forallb (forallb neuron_in_range) (NeuralNetwork.layers (Unit.brain u))
  && within 33 (Unit.x u) && within 33 (Unit.y u) && within 5 (Unit.speed u).

(** The units that the program can hold: what the constructor returns
    for two [int] coordinates, and what [update] leaves of such a unit
    for a target with [int] coordinates. *)
Inductive reachable `{LibM} `{Host} : Unit.t -> Prop :=
  | reachable_new (startX startY : Z) (imagePath : string) (w w' : World)
                  (u : Unit.t) :
      is_int startX = true -> is_int startY = true ->
      Unit.new startX startY imagePath w = Ok (u, w') ->
      reachable u
  | reachable_update (target : SDL_Point.t) (u u' : Unit.t) :
      reachable u ->
      is_int (SDL_Point.x target) = true ->
      is_int (SDL_Point.y target) = true ->
      Unit.update target u = Ok u' ->
      reachable u'.

(** The unit that [update] leaves, given the two outputs. *)
Definition updated `{LibM} (u : Unit.t) (o0 o1 : float) : Unit.t :=
  let x' := Unit.clamp (800 - SDL_Rect.w (Unit.rect u)) (Unit.raw_x u o0 o1) in
  let y' := Unit.clamp (600 - SDL_Rect.h (Unit.rect u)) (Unit.raw_y u o0 o1) in
  Unit.mk (SDL_Rect.mk (F32.to_int x') (F32.to_int y')
                       (SDL_Rect.w (Unit.rect u)) (SDL_Rect.h (Unit.rect u)))
          (Unit.texture u) (Unit.brain u) x' y' (F32.mul o0 (F32.of_int 5)).

(** The three startup steps of [init] all succeed. *)
Definition setup_ok `{Host} : bool :=
  (0 <=? SDL_Init)
  && match SDL_CreateWindow with Some _ => true | None => false end
  && match SDL_CreateRenderer with Some _ => true | None => false end.

(** Some event polled in the [frames] frames from [start] on is a close
    event, respectively a pointer press. *)
Definition quit_within `{Host} (start frames : nat) : bool :=
  existsb (fun k => existsb is_quit (SDL_PollEvent k)) (seq start frames).

Definition press_within `{Host} (start frames : nat) : bool :=
  existsb (fun k => existsb is_press (SDL_PollEvent k)) (seq start frames).

(** The world once one more frame's events have been polled. *)
Definition next_frame (w : World) : World :=
  mkWorld (rd_calls w) (rand_calls w) (S (polls w)).

(** The network of topology {1, 1} that [host_stub] yields: one neuron
    with the single weight 1/2. *)
Definition net_1_1 : NeuralNetwork.t :=
  NeuralNetwork.mk [[Neuron.mk [half] F32.zero]].

(** The brain that [host_stub] gives the first unit. *)
Definition net_4_6_2 : NeuralNetwork.t :=
  match NeuralNetwork.new (H := host_stub) [4; 6; 2] world0 with
  | Ok (net, _) => net
  | Fault _ => NeuralNetwork.mk []
  end.

(** The game that [init] sets up on [host_stub], and the third of its
    units, which starts at (525, 570), below the lower edge that the
    bounds test allows. *)
Definition game_stub : Game.t :=
  match Game.init (H := host_stub) Game.new world0 with
  | Ok ((_, g), _) => g
  | Fault _ => Game.new
  end.

Definition unit_stub : Unit.t :=
  nth 2 (Game.units game_stub)
      (Unit.mk (SDL_Rect.mk 0 0 0 0) None (NeuralNetwork.mk [])
               F32.zero F32.zero F32.zero).

(** ** Drawing and teardown *)

(** The calls that the program makes on SDL and on the two output
    streams, with their pointer arguments ([None] is [nullptr]); the
    calls that create something carry what the host answers, and a
    message on [cerr] is given without the text of [SDL_GetError].
    The polling of events is not among them: [World] counts it. *)
Inductive SDL_Call : Set :=
  | SDL_SetRenderDrawColor (renderer : option handle) (r g b a : Z)
  | SDL_RenderClear (renderer : option handle)
  | SDL_RenderCopy (renderer texture : option handle) (dstrect : SDL_Rect.t)
  | SDL_RenderFillRect (renderer : option handle) (rect : SDL_Rect.t)
  | SDL_RenderPresent (renderer : option handle)
  | SDL_DestroyTexture (texture : option handle)
  | SDL_DestroyRenderer (renderer : option handle)
  | SDL_DestroyWindow (window : option handle)
  | SDL_Quit
  | Call_SDL_Init (result : Z)
  | Call_SDL_SetHint
  | Call_SDL_CreateWindow (result : option handle)
  | Call_SDL_CreateRenderer (window result : option handle)
  | Call_SDL_LoadBMP (path : string) (result : option handle)
  | Call_SDL_CreateTextureFromSurface (renderer : option handle)
      (surface : handle) (result : option handle)
  | Call_SDL_FreeSurface (surface : handle)
  | Call_SDL_Delay (ms : Z)
  | Print_cerr (text : string)
  | Print_cout (text : string).

(** [Unit::render(renderer)]. *)
Definition Unit_render (renderer : option handle) (u : Unit.t)
  : list SDL_Call :=
  match Unit.texture u with
  | Some _ => [SDL_RenderCopy renderer (Unit.texture u) (Unit.rect u)]
  | None => [SDL_SetRenderDrawColor renderer 0 255 0 255;
             SDL_RenderFillRect renderer (Unit.rect u)]
  end.

(** [~Unit()]. *)
Definition Unit_destructor (u : Unit.t) : list SDL_Call :=
  match Unit.texture u with
  | Some _ => [SDL_DestroyTexture (Unit.texture u)]
  | None => []
  end.

(** [for (auto& unit : units) unit->render(renderer);] *)
Fixpoint render_units (renderer : option handle) (us : list Unit.t)
  : list SDL_Call :=
  match us with
  | [] => []
  | u :: us' => Unit_render renderer u ++ render_units renderer us'
  end.

(** The rectangle in which [Game::render] draws the target: 40x40
    around it for the sprite, 10x10 for the red dot. *)
Definition target_box (g : Game.t) : SDL_Rect.t :=
  match Game.targetTexture g with
  | Some _ => SDL_Rect.mk (SDL_Point.x (Game.target g) - 20)
                          (SDL_Point.y (Game.target g) - 20) 40 40
  | None => SDL_Rect.mk (SDL_Point.x (Game.target g) - 5)
                        (SDL_Point.y (Game.target g) - 5) 10 10
  end.

(** [Game::render()]. *)
Definition Game_render (g : Game.t) : list SDL_Call :=
  let r := Game.renderer g in
  [SDL_SetRenderDrawColor r 0 0 0 255; SDL_RenderClear r]
  ++ match Game.targetTexture g with
     | Some _ =>
         [SDL_RenderCopy r (Game.targetTexture g)
            (SDL_Rect.mk (SDL_Point.x (Game.target g) - 20)
                         (SDL_Point.y (Game.target g) - 20) 40 40)]
     | None =>
         [SDL_SetRenderDrawColor r 255 0 0 255;
          SDL_RenderFillRect r
            (SDL_Rect.mk (SDL_Point.x (Game.target g) - 5)
                         (SDL_Point.y (Game.target g) - 5) 10 10)]
     end
  ++ render_units r (Game.units g)
  ++ [SDL_RenderPresent r].

(** [Game::clean()]. *)
Definition Game_clean (g : Game.t) : list SDL_Call :=
  match Game.targetTexture g with
  | Some _ => [SDL_DestroyTexture (Game.targetTexture g)]
  | None => []
  end
  ++ [SDL_DestroyRenderer (Game.renderer g);
      SDL_DestroyWindow (Game.window g);
      SDL_Quit].

(** The implicit [~Game()]: the vector [units] releases its units, each
    running [~Unit()] (taken first to last). *)
Fixpoint destroy_units (us : list Unit.t) : list SDL_Call :=
  match us with
  | [] => []
  | u :: us' => Unit_destructor u ++ destroy_units us'
  end.

(** The end of [main] after the loop: [game.clean()], then [return 0]
    takes [game] out of scope. *)
Definition main_teardown (g : Game.t) : list SDL_Call :=
  Game_clean g ++ destroy_units (Game.units g).

(** *** Reading a sequence of calls *)

(** The destination rectangles of the calls that draw, in order. *)
Fixpoint drawn_boxes (calls : list SDL_Call) : list SDL_Rect.t :=
  match calls with
  | [] => []
  | SDL_RenderCopy _ _ box :: calls' => box :: drawn_boxes calls'
  | SDL_RenderFillRect _ box :: calls' => box :: drawn_boxes calls'
  | _ :: calls' => drawn_boxes calls'
  end.

Definition colour : Set := (Z * Z * Z * Z)%type.

(** The rectangles filled, each with the draw colour in force when it
    is filled; [current] is the colour before the first call. *)
Fixpoint fills (current : colour) (calls : list SDL_Call)
  : list (colour * SDL_Rect.t) :=
  match calls with
  | [] => []
  | SDL_SetRenderDrawColor _ r g b a :: calls' => fills (r, g, b, a) calls'
  | SDL_RenderFillRect _ box :: calls' => (current, box) :: fills current calls'
  | _ :: calls' => fills current calls'
  end.

Definition green : colour := (0, 255, 0, 255).
Definition red : colour := (255, 0, 0, 255).

Definition has_texture (u : Unit.t) : bool :=
  match Unit.texture u with Some _ => true | None => false end.

Definition is_destroy_texture (c : SDL_Call) : bool :=
  match c with SDL_DestroyTexture _ => true | _ => false end.

(** A call that hands SDL a null texture. *)
Definition null_texture_call (c : SDL_Call) : bool :=
  match c with
  | SDL_RenderCopy _ None _ => true
  | SDL_DestroyTexture None => true
  | _ => false
  end.

(** ** Construction, once more *)

(** No layer with neurons follows a negative size: the condition under
    which no [resize] throws. *)
Fixpoint constructible (numInputs : Z) (rest : list Z) : bool :=
  match rest with
  | [] => true
  | size :: rest' =>
      negb ((numInputs <? 0) && (0 <? size)) && constructible size rest'
  end.

(** The texture that the constructors end up with for an image file. *)
Definition loaded_texture `{Host} (path : string) : option handle :=
  match SDL_LoadBMP path with
  | None => None
  | Some surface => SDL_CreateTextureFromSurface surface
  end.

(** The [k]-th unit that [init] creates in a world that has seen [rd0]
    calls of [rd()] and [rand0] of [rand()]: its two [rand()] are the
    calls [rand0 + 2k] and [rand0 + 2k + 1], handed to the two
    arguments in the order in which the build evaluates them. *)
Definition initial_unit `{Host} (rd0 rand0 k : nat) : Unit.t :=
  let start := Game.start_point (c_rand (rand0 + 2 * k))
                                (c_rand (rand0 + 2 * k + 1)) in
  let startX := fst start in
  let startY := snd start in
  Unit.mk (SDL_Rect.mk (F32.to_int (F32.of_int startX))
                       (F32.to_int (F32.of_int startY)) 40 40)
          (loaded_texture "cat_unit.bmp")
          (NeuralNetwork.mk (drawn_layers 4 (rd0 + 8 * k) [6; 2]))
          (F32.of_int startX) (F32.of_int startY) (F32.of_int 2).

(** [host_stub] in a build that evaluates arguments right to left. *)
Definition host_right_to_left : Host := {|
  random_device := random_device (Host := host_stub);
  uniform_draw := uniform_draw (Host := host_stub);
  c_rand := c_rand (Host := host_stub);
  arguments_right_to_left := true;
  SDL_Init := SDL_Init (Host := host_stub);
  SDL_CreateWindow := SDL_CreateWindow (Host := host_stub);
  SDL_CreateRenderer := SDL_CreateRenderer (Host := host_stub);
  SDL_LoadBMP := SDL_LoadBMP (Host := host_stub);
  SDL_CreateTextureFromSurface :=
    SDL_CreateTextureFromSurface (Host := host_stub);
  SDL_PollEvent := SDL_PollEvent (Host := host_stub)
|}.

Definition is_zero (v : float) : bool :=
  match v with S754_zero _ => true | _ => false end.

Definition is_clear_or_present (c : SDL_Call) : bool :=
  match c with
  | SDL_RenderClear _ | SDL_RenderPresent _ => true
  | _ => false
  end.

Definition without_texture (u : Unit.t) : bool := negb (has_texture u).

(** What a unit, respectively the game, hands to [SDL_DestroyTexture]. *)
Definition texture_release (u : Unit.t) : SDL_Call :=
  SDL_DestroyTexture (Unit.texture u).

Definition finite_or_zero (v : float) : bool :=
  match v with
  | S754_zero _ | S754_finite _ _ _ => true
  | _ => false
  end.

(** A neuron with zero bias whose weights are numbers. *)
Definition plain_neuron (n : Neuron.t) : Prop :=
  Neuron.bias n = F32.zero
  /\ forallb finite_or_zero (Neuron.weights n) = true.

(** [unit_stub] after one update towards (400, 300). *)
Definition unit_stub_updated : Unit.t :=
  match Unit.update (H := libm_stub) (SDL_Point.mk 400 300) unit_stub with
  | Ok u' => u'
  | Fault _ => unit_stub
  end.

(** ** Startup and shutdown as sequences of calls *)

(** Loading an image as both constructors do it: [SDL_LoadBMP], then
    either the message on [cerr] or the texture and the release of the
    surface. *)
Definition load_calls `{Host} (renderer : option handle) (path text : string)
  : list SDL_Call :=
  Call_SDL_LoadBMP path (SDL_LoadBMP path)
  :: match SDL_LoadBMP path with
     | None => [Print_cerr text]
     | Some surface =>
         [Call_SDL_CreateTextureFromSurface renderer surface
            (SDL_CreateTextureFromSurface surface);
          Call_SDL_FreeSurface surface]
     end.

(** The calls of the loop of [init] that creates the units. *)
Fixpoint spawn_calls `{Host} (count : nat) (renderer : option handle)
  : list SDL_Call :=
  match count with
  | O => []
  | S count' =>
      load_calls renderer "cat_unit.bmp" "Failed to load image: "
      ++ spawn_calls count' renderer
  end.

(** The calls of [Game::init()]. *)
Definition Game_init_calls `{Host} : list SDL_Call :=
  Call_SDL_Init SDL_Init
  :: if SDL_Init <? 0 then [Print_cerr "Failed to initialize SDL: "]
     else
       Call_SDL_SetHint
       :: Call_SDL_CreateWindow SDL_CreateWindow
       :: match SDL_CreateWindow with
          | None => [Print_cerr "Failed to create window: "; SDL_Quit]
          | Some win =>
              Call_SDL_CreateRenderer (Some win) SDL_CreateRenderer
              :: match SDL_CreateRenderer with
                 | None =>
                     [Print_cerr "Failed to create renderer: ";
                      SDL_DestroyWindow (Some win);
                      SDL_Quit]
                 | Some ren =>
                     load_calls (Some ren) "cat_target.bmp"
                                "Failed to load target image: "
                     ++ spawn_calls 5 (Some ren)
                 end
          end.

(** What SDL holds for the process: whether it is started, and how
    many windows, renderers, surfaces and textures are open. *)
Record Ledger : Set := mkLedger {
  sdl_up : bool;
  windows : Z;
  renderers : Z;
  surfaces : Z;
  textures : Z
}.

Definition nothing_open : Ledger := mkLedger false 0 0 0 0.

(** The effect of one call on the ledger: a creation that succeeds
    opens one, a release of a non-null pointer closes one. *)
Definition account (l : Ledger) (c : SDL_Call) : Ledger :=
  match c with
  | Call_SDL_Init result =>
      if result <? 0 then l
      else mkLedger true (windows l) (renderers l) (surfaces l) (textures l)
  | SDL_Quit =>
      mkLedger false (windows l) (renderers l) (surfaces l) (textures l)
  | Call_SDL_CreateWindow (Some _) =>
      mkLedger (sdl_up l) (windows l + 1) (renderers l) (surfaces l)
               (textures l)
  | SDL_DestroyWindow (Some _) =>
      mkLedger (sdl_up l) (windows l - 1) (renderers l) (surfaces l)
               (textures l)
  | Call_SDL_CreateRenderer _ (Some _) =>
      mkLedger (sdl_up l) (windows l) (renderers l + 1) (surfaces l)
               (textures l)
  | SDL_DestroyRenderer (Some _) =>
      mkLedger (sdl_up l) (windows l) (renderers l - 1) (surfaces l)
               (textures l)
  | Call_SDL_LoadBMP _ (Some _) =>
      mkLedger (sdl_up l) (windows l) (renderers l) (surfaces l + 1)
               (textures l)
  | Call_SDL_FreeSurface _ =>
      mkLedger (sdl_up l) (windows l) (renderers l) (surfaces l - 1)
               (textures l)
  | Call_SDL_CreateTextureFromSurface _ _ (Some _) =>
      mkLedger (sdl_up l) (windows l) (renderers l) (surfaces l)
               (textures l + 1)
  | SDL_DestroyTexture (Some _) =>
      mkLedger (sdl_up l) (windows l) (renderers l) (surfaces l)
               (textures l - 1)
  | _ => l
  end.

(** One turn of the loop of [main] after the update: the frame is
    drawn and the loop waits. *)
Definition frame_calls (g : Game.t) : list SDL_Call :=
  Game_render g ++ [Call_SDL_Delay 16].

(** The calls of a whole run of [main] that ends: [init], then either
    the message on [cout], or the frames drawn for the games [shown]
    and the teardown of the game [g] that the loop leaves. *)
Definition main_calls `{Host} (shown : list Game.t) (g : Game.t)
  : list SDL_Call :=
  Game_init_calls
  ++ if setup_ok
     then flat_map frame_calls shown ++ main_teardown g
     else [Print_cout "Failed to initialize game!"].

Definition texture_count (texture : option handle) : Z :=
  match texture with Some _ => 1 | None => 0 end.

(** The target that a sequence of events leaves: the coordinates of its
    last press, or the target before it if it holds none. *)
Definition last_press (events : list SDL_Event) (before : SDL_Point.t)
  : SDL_Point.t :=
  fold_left (fun t e => match e with
                        | SDL_MOUSEBUTTONDOWN px py => SDL_Point.mk px py
                        | _ => t
                        end)
            events before.

(** The events of the [count] polls from the [start]-th on, in order. *)
Definition polled `{Host} (start count : nat) : list SDL_Event :=
  flat_map SDL_PollEvent (seq start count).

(** ** The field *)

(** The coordinates that an event carries are values of [int]. *)
Definition event_is_int (e : SDL_Event) : bool :=
  match e with
  | SDL_MOUSEBUTTONDOWN px py => is_int px && is_int py
  | _ => true
  end.

Definition events_are_ints (H : Host) : Prop :=
  forall k : nat, forallb event_is_int (SDL_PollEvent k) = true.

(** A position that the bounds test allows, and a box that lies in the
    800x600 window. *)
Definition in_field (u : Unit.t) : bool :=
  F32.leb (F32.of_int 0) (Unit.x u) && F32.leb (Unit.x u) (F32.of_int 760)
  && F32.leb (F32.of_int 0) (Unit.y u) && F32.leb (Unit.y u) (F32.of_int 560).

Definition box_in_window (u : Unit.t) : bool :=
  (0 <=? SDL_Rect.x (Unit.rect u))
  && (SDL_Rect.x (Unit.rect u) + SDL_Rect.w (Unit.rect u) <=? 800)
  && (0 <=? SDL_Rect.y (Unit.rect u))
  && (SDL_Rect.y (Unit.rect u) + SDL_Rect.h (Unit.rect u) <=? 600).

(** * Properties *)

(** ** Construction of neurons and networks *)

Section Construction.

Context `{H : Host}.

Lemma Neuron_new_ok (inputs : Z) (w : World) :
  0 <= inputs ->
  Neuron.new inputs w = Ok (drawn_neuron inputs (rd_calls w), after_rd w 1).
Proof.
  intros Hpos. unfold Neuron.new, bind, rd, ret, throw.
  destruct (inputs <? 0) eqn:E; [apply Z.ltb_lt in E; lia | reflexivity].
Qed.

Lemma Neuron_new_negative (inputs : Z) (w : World) :
  inputs < 0 -> Neuron.new inputs w = Fault LengthError.
Proof.
  intros Hneg. unfold Neuron.new, bind, rd, throw.
  apply Z.ltb_lt in Hneg. now rewrite Hneg.
Qed.

Lemma after_rd_after_rd (w : World) (a b : nat) :
  after_rd (after_rd w a) b = after_rd w (a + b).
Proof. unfold after_rd. simpl. f_equal. lia. Qed.

Lemma new_layer_ok (numInputs : Z) :
  0 <= numInputs ->
  forall (count : nat) (w : World),
    NeuralNetwork.new_layer count numInputs w
    = Ok (drawn_layer numInputs (rd_calls w) count, after_rd w count).
Proof.
  intros Hpos. induction count as [|count IH]; intros w; simpl.
  - unfold ret, after_rd. destruct w; reflexivity.
  - unfold bind at 1. rewrite (Neuron_new_ok numInputs w Hpos).
    unfold bind at 1. rewrite IH. unfold ret.
    rewrite after_rd_after_rd. reflexivity.
Qed.

Lemma new_layers_ok (rest : list Z) :
  forall (numInputs : Z) (w : World),
  0 <= numInputs -> Forall (fun size => 0 <= size) rest ->
  NeuralNetwork.new_layers numInputs rest w
  = Ok (drawn_layers numInputs (rd_calls w) rest,
        after_rd w (neuron_count rest)).
Proof.
  induction rest as [|size rest IH]; intros numInputs w Hpos Hall; simpl.
  - unfold ret, after_rd. destruct w; reflexivity.
  - inversion Hall as [|? ? Hsize Hrest]; subst.
    unfold bind at 1. rewrite (new_layer_ok numInputs Hpos).
    unfold bind at 1. rewrite (IH size _ Hsize Hrest). unfold ret.
    rewrite after_rd_after_rd. simpl rd_calls.
    now rewrite (Nat.add_comm (Z.to_nat size) (rd_calls w)).
Qed.

Lemma drawn_layers_fresh (rest : list Z) :
  forall (numInputs : Z) (call : nat),
    fresh_layers numInputs rest (drawn_layers numInputs call rest).
Proof.
  induction rest as [|size rest IH]; intros numInputs call; simpl;
    [exact I|].
  split; [|split; [|apply IH]].
  - unfold drawn_layer. now rewrite length_map, length_seq.
  - unfold drawn_layer. apply Forall_forall. intros n Hn.
    apply in_map_iff in Hn as (k & <- & _).
    split; [reflexivity|]. now eexists.
Qed.

Lemma fresh_layers_length (rest : list Z) :
  forall numInputs ls, fresh_layers numInputs rest ls -> length ls = length rest.
Proof.
  induction rest as [|size rest IH]; intros numInputs [|layer ls]; simpl;
    try tauto.
  intros (_ & _ & Hls). f_equal. eauto.
Qed.

Lemma fresh_layers_nth (rest : list Z) :
  forall numInputs ls (i : nat),
    fresh_layers numInputs rest ls -> (i < length rest)%nat ->
    length (nth i ls []) = Z.to_nat (nth i rest 0)
    /\ Forall (fresh_neuron (nth i (numInputs :: rest) 0)) (nth i ls []).
Proof.
  induction rest as [|size rest IH]; intros numInputs [|layer ls] i; simpl;
    try tauto; try lia.
  intros (Hlen & Hfresh & Hls) Hi. destruct i as [|i].
  - split; assumption.
  - apply (IH size ls i Hls). lia.
Qed.

Lemma fresh_layers_shape (rest : list Z) :
  forall numInputs ls,
    fresh_layers numInputs rest ls ->
    has_shape (Z.to_nat numInputs) (map Z.to_nat rest) ls = true.
Proof.
  induction rest as [|size rest IH]; intros numInputs [|layer ls]; simpl;
    try tauto.
  intros (Hlen & Hfresh & Hls).
  rewrite (IH size ls Hls), Hlen, Nat.eqb_refl, andb_true_r. simpl.
  apply forallb_forall. intros n Hn.
  rewrite Forall_forall in Hfresh. destruct (Hfresh n Hn) as (_ & seed & Hw).
  rewrite Hw, length_map, length_seq. apply Nat.eqb_refl.
Qed.

Lemma fresh_neuron_weights (inputs : Z) (n : Neuron.t) :
  fresh_neuron inputs n -> length (Neuron.weights n) = Z.to_nat inputs.
Proof.
  intros (_ & seed & Hw). now rewrite Hw, length_map, length_seq.
Qed.

Lemma NeuralNetwork_new_eq (first : Z) (rest : list Z) (w : World) :
  0 <= first -> Forall (fun size => 0 <= size) rest ->
  NeuralNetwork.new (first :: rest) w
  = Ok (NeuralNetwork.mk (drawn_layers first (rd_calls w) rest),
        after_rd w (neuron_count rest)).
Proof.
  intros Hfirst Hrest. simpl. unfold bind.
  now rewrite (new_layers_ok rest first w Hfirst Hrest).
Qed.

Lemma NeuralNetwork_new_ok (first : Z) (rest : list Z) (w : World) :
  0 <= first -> Forall (fun size => 0 <= size) rest ->
  exists net w',
    NeuralNetwork.new (first :: rest) w = Ok (net, w')
    /\ fresh_layers first rest (NeuralNetwork.layers net)
    /\ rand_calls w' = rand_calls w /\ polls w' = polls w.
Proof.
  intros Hfirst Hrest. eexists _, _.
  split; [exact (NeuralNetwork_new_eq first rest w Hfirst Hrest)|].
  split; [apply drawn_layers_fresh|]. split; reflexivity.
Qed.

End Construction.

(** ** Comparison of binary32 numbers *)

Section Comparison.

(** [static_cast<float>(M_PI)] is the binary32 number 0x40490FDB. *)
Example M_PI_f_bits : F32.M_PI_f = S754_finite false 13176795 (-22).
Proof. reflexivity. Qed.

Lemma compare_cont_Eq_antisym (p q : positive) :
  Pos.compare_cont Eq q p = CompOpp (Pos.compare_cont Eq p q).
Proof. exact (Pos.compare_antisym p q). Qed.

Lemma SFcompare_antisym (a b : float) :
  SFcompare b a = option_map CompOpp (SFcompare a b).
Proof.
  destruct a as [sa|sa| |sa ma ea], b as [sb|sb| |sb mb eb]; simpl;
    try reflexivity;
    try (destruct sa; reflexivity); try (destruct sb; reflexivity);
    try (destruct sa, sb; reflexivity).
  destruct sa, sb; simpl; try reflexivity;
    rewrite (Z.compare_antisym ea eb);
    destruct (ea ?= eb); simpl; try reflexivity;
    rewrite (compare_cont_Eq_antisym ma mb);
    destruct (Pos.compare_cont Eq ma mb); reflexivity.
Qed.

Lemma SFcompare_opp (a b : float) :
  SFcompare (SFopp b) (SFopp a) = SFcompare a b.
Proof.
  destruct a as [sa|sa| |sa ma ea], b as [sb|sb| |sb mb eb]; simpl;
    try reflexivity;
    try (destruct sa; reflexivity); try (destruct sb; reflexivity);
    try (destruct sa, sb; reflexivity).
  destruct sa, sb; simpl; try reflexivity;
    rewrite (Z.compare_antisym ea eb);
    destruct (ea ?= eb); simpl; try reflexivity;
    rewrite (compare_cont_Eq_antisym ma mb);
    destruct (Pos.compare_cont Eq ma mb); reflexivity.
Qed.

Lemma SFcompare_defined (a b : float) :
  F32.is_nan a = false -> F32.is_nan b = false ->
  exists c, SFcompare a b = Some c.
Proof.
  destruct a, b; simpl; intros Ha Hb; try discriminate; eauto.
Qed.

(** For numbers, "not less" is "greater or equal". *)
Lemma not_ltb_leb (a b : float) :
  F32.is_nan a = false -> F32.is_nan b = false ->
  F32.ltb a b = false -> F32.leb b a = true.
Proof.
  intros Ha Hb. unfold F32.ltb, F32.leb, SFltb, SFleb.
  rewrite (SFcompare_antisym a b).
  destruct (SFcompare_defined a b Ha Hb) as (c & ->).
  destruct c; simpl; congruence.
Qed.

Lemma ltb_leb (a b : float) : F32.ltb a b = true -> F32.leb a b = true.
Proof.
  unfold F32.ltb, F32.leb, SFltb, SFleb.
  destruct (SFcompare a b) as [[| |]|]; congruence.
Qed.

Lemma ltb_asym (a b : float) : F32.ltb a b = true -> F32.ltb b a = false.
Proof.
  unfold F32.ltb, SFltb. rewrite (SFcompare_antisym a b).
  destruct (SFcompare a b) as [[| |]|]; simpl; congruence.
Qed.

Lemma ltb_irrefl (a : float) : F32.ltb a a = false.
Proof.
  destruct (F32.ltb a a) eqn:E; [|reflexivity].
  pose proof (ltb_asym a a E). congruence.
Qed.

(** Nothing above a positive number is below zero. *)
Lemma ltb_zero_between (v l : float) :
  F32.ltb v (S754_zero false) = true ->
  F32.ltb (S754_zero false) l = true ->
  F32.ltb l v = false.
Proof.
  unfold F32.ltb, SFltb.
  destruct v as [s|s| |s m e], l as [s'|s'| |s' m' e']; simpl;
    try discriminate; try reflexivity;
    destruct s; try discriminate; destruct s'; try discriminate;
    reflexivity.
Qed.

Lemma leb_opp (a b : float) :
  F32.leb (SFopp b) (SFopp a) = F32.leb a b.
Proof. unfold F32.leb, SFleb. now rewrite SFcompare_opp. Qed.

(** Below 1/2 is below 1. *)
Lemma ltb_half_leb_one (m : positive) (e : Z) :
  F32.ltb (S754_finite false m e) half = true ->
  F32.leb (S754_finite false m e) F32.one = true.
Proof.
  unfold F32.ltb, F32.leb, SFltb, SFleb.
  change half with (S754_finite false 8388608 (-24)).
  change F32.one with (S754_finite false 8388608 (-23)).
  unfold SFcompare.
  destruct (Z.compare_spec e (-24)) as [He|He|He]; try discriminate.
  - subst e. intros _. reflexivity.
  - intros _. destruct (Z.compare_spec e (-23)); try reflexivity; lia.
Qed.

Lemma tanh_stub_range (v : float) :
  F32.is_nan (tanh_stub v) = true \/ in_unit_interval (tanh_stub v) = true.
Proof.
  destruct v as [s|s| |s m e]; unfold tanh_stub, SFabs.
  - right. destruct s; reflexivity.
  - right. destruct s; reflexivity.
  - left. reflexivity.
  - right.
    destruct (F32.ltb (S754_finite false m e) half) eqn:E.
    + apply ltb_half_leb_one in E.
      unfold in_unit_interval. destruct s.
      * change (S754_finite true m e) with (SFopp (S754_finite false m e)).
        change F32.minus_one with (SFopp F32.one) at 1.
        rewrite leb_opp, E. reflexivity.
      * rewrite E. reflexivity.
    + destruct (F32.ltb (S754_finite false m e) (F32.of_int 16));
        destruct s; reflexivity.
Qed.

Lemma tanh_stub_of_number : tanh_of_number libm_stub.
Proof.
  intros v Hv. destruct (tanh_stub_range v) as [Hn|Hi]; [|exact Hi].
  exfalso. change (tanh (LibM := libm_stub) v) with (tanh_stub v) in Hn.
  destruct v as [s|s| |s m e]; unfold tanh_stub, SFabs in Hn.
  - discriminate.
  - destruct s; vm_compute in Hn; discriminate.
  - discriminate.
  - destruct (F32.ltb (S754_finite false m e) half); [discriminate|].
    destruct (F32.ltb (S754_finite false m e) (F32.of_int 16));
      destruct s; vm_compute in Hn; discriminate.
Qed.

Lemma tanh_stub_of_nan : tanh_of_nan libm_stub.
Proof. intros [s|s| |s m e] Hs; try discriminate. reflexivity. Qed.

End Comparison.

(** ** The forward pass *)

Section Forward.

Context `{L : LibM}.

Lemma skipn_nth_error_cons {A : Type} (l : list A) :
  forall (i : nat) (a : A),
    nth_error l i = Some a -> skipn i l = a :: skipn (S i) l.
Proof.
  induction l as [|b l IH]; intros [|i] a; simpl; try discriminate.
  - now intros [= ->].
  - intros E. exact (IH i a E).
Qed.

Lemma last_cons_default {A : Type} (l : list A) :
  forall a d d' : A, last (a :: l) d = last (a :: l) d'.
Proof.
  induction l as [|b l IH]; intros a d d'; [reflexivity|].
  change (last (b :: l) d = last (b :: l) d'). apply IH.
Qed.

Lemma accumulate_spec (ws : list float) :
  forall (rest : list float) (i : nat) (sum : float),
    (i <= length ws)%nat ->
    Neuron.accumulate ws i rest sum =
      if (length rest <=? length ws - i)%nat
      then Ok (fold_left mac (combine rest (skipn i ws)) sum)
      else Fault OutOfBounds.
Proof.
  induction rest as [|input rest IH]; intros i sum Hi; simpl.
  - reflexivity.
  - destruct (nth_error ws i) as [w|] eqn:E.
    + assert (Hlt : (i < length ws)%nat)
        by (apply nth_error_Some; congruence).
      rewrite (IH (S i) _ Hlt).
      pose proof (skipn_nth_error_cons ws i w E) as Hskip.
      rewrite Hskip. simpl.
      destruct (length ws - i)%nat as [|k] eqn:Ek; [lia|].
      replace (length ws - S i)%nat with k by lia.
      reflexivity.
    + apply nth_error_None in E.
      replace (length ws - i)%nat with 0%nat by lia. reflexivity.
Qed.

Lemma activate_spec (n : Neuron.t) (inputs : list float) :
  Neuron.activate n inputs =
    if (length inputs <=? length (Neuron.weights n))%nat
    then Ok (tanh (fold_left mac (combine inputs (Neuron.weights n))
                             (Neuron.bias n)))
    else Fault OutOfBounds.
Proof.
  unfold Neuron.activate.
  rewrite accumulate_spec by lia.
  rewrite Nat.sub_0_r. simpl skipn.
  destruct (length inputs <=? length (Neuron.weights n))%nat; reflexivity.
Qed.

Lemma layer_outputs_ok (layer : list Neuron.t) (inputs : list float) :
  forallb (fun n => (length (Neuron.weights n) =? length inputs)%nat) layer
    = true ->
  exists outputs,
    NeuralNetwork.layer_outputs layer inputs = Ok outputs
    /\ length outputs = length layer
    /\ Forall tanh_value outputs.
Proof.
  induction layer as [|n layer IH]; simpl; intros Hall.
  - exists []. repeat split. constructor.
  - apply andb_true_iff in Hall as [Hn Hall].
    apply Nat.eqb_eq in Hn.
    destruct (IH Hall) as (outputs & E & Hlen & Hval).
    rewrite activate_spec, Hn, Nat.leb_refl. simpl. rewrite E. simpl.
    eexists. split; [reflexivity|]. split; [simpl; congruence|].
    constructor; [|exact Hval]. now eexists.
Qed.

Lemma feed_ok (sizes : list nat) :
  forall (ls : list (list Neuron.t)) (inputs : list float),
    has_shape (length inputs) sizes ls = true ->
    exists outputs,
      NeuralNetwork.feed ls inputs = Ok outputs
      /\ length outputs = last sizes (length inputs)
      /\ (sizes <> [] -> Forall tanh_value outputs).
Proof.
  induction sizes as [|size sizes IH]; intros [|layer ls] inputs; simpl;
    try discriminate.
  - intros _. exists inputs. repeat split. congruence.
  - intros Hs. apply andb_true_iff in Hs as [Hs Hrest].
    apply andb_true_iff in Hs as [Hlen Hws].
    apply Nat.eqb_eq in Hlen.
    destruct (layer_outputs_ok layer inputs Hws) as (mid & E & Hmid & Hval).
    rewrite E. simpl.
    assert (Hsize : length mid = size) by congruence.
    rewrite <- Hsize in Hrest.
    destruct (IH ls mid Hrest) as (outputs & E' & Hout & Hval').
    exists outputs. split; [exact E'|]. split.
    + rewrite Hout, Hsize. destruct sizes; [reflexivity|apply last_cons_default].
    + intros _. destruct sizes as [|s sizes'].
      * destruct ls; simpl in Hrest; [|discriminate].
        simpl in E'. injection E' as <-. exact Hval.
      * apply Hval'. discriminate.
Qed.

Lemma layer_outputs_eq (layer : list Neuron.t) (inputs : list float) :
  forallb (fun n => (length (Neuron.weights n) =? length inputs)%nat) layer
    = true ->
  NeuralNetwork.layer_outputs layer inputs
    = Ok (map (fun n => tanh (weighted_sum n inputs)) layer).
Proof.
  induction layer as [|n layer IH]; intros Hall; [reflexivity|].
  cbn [forallb] in Hall. apply andb_true_iff in Hall as [Hn Hall].
  apply Nat.eqb_eq in Hn.
  cbn [NeuralNetwork.layer_outputs map].
  rewrite activate_spec, Hn, Nat.leb_refl, (IH Hall). reflexivity.
Qed.

(** The last layer of a network of the right shape works on the vector
    that the layers before it return. *)
Lemma feed_last (sizes : list nat) :
  forall (ls : list (list Neuron.t)) (inputs : list float),
    sizes <> [] ->
    has_shape (length inputs) sizes ls = true ->
    exists hidden,
      NeuralNetwork.feed (removelast ls) inputs = Ok hidden
      /\ NeuralNetwork.feed ls inputs
         = Ok (map (fun n => tanh (weighted_sum n hidden)) (last ls [])).
Proof.
  induction sizes as [|size sizes IH]; intros [|layer ls] inputs Hne;
    cbn [has_shape]; try discriminate; [congruence|].
  intros Hs. apply andb_true_iff in Hs as [Hs Hrest].
  apply andb_true_iff in Hs as [Hlen Hws].
  apply Nat.eqb_eq in Hlen.
  pose proof (layer_outputs_eq layer inputs Hws) as E.
  destruct sizes as [|size' sizes'].
  - destruct ls; [|discriminate].
    exists inputs. split; [reflexivity|].
    cbn [NeuralNetwork.feed last]. rewrite E. reflexivity.
  - destruct ls as [|layer' ls']; [discriminate|].
    set (mid := map (fun n => tanh (weighted_sum n inputs)) layer) in *.
    assert (Hmid : length mid = size)
      by (unfold mid; rewrite length_map; exact Hlen).
    rewrite <- Hmid in Hrest.
    destruct (IH (layer' :: ls') mid ltac:(discriminate) Hrest)
      as (hidden & Eh & El).
    exists hidden. split.
    + change (removelast (layer :: layer' :: ls'))
        with (layer :: removelast (layer' :: ls')).
      cbn [NeuralNetwork.feed]. rewrite E. exact Eh.
    + change (last (layer :: layer' :: ls') [])
        with (last (layer' :: ls') []).
      change (NeuralNetwork.feed (layer :: layer' :: ls') inputs)
        with (let* outputs := NeuralNetwork.layer_outputs layer inputs in
              NeuralNetwork.feed (layer' :: ls') outputs).
      rewrite E. exact El.
Qed.

End Forward.

(** ** Units *)

Section Units.

Context `{L : LibM}.

Lemma Unit_wf_elim (u : Unit.t) :
  Unit_wf u = true ->
  SDL_Rect.w (Unit.rect u) = 40 /\ SDL_Rect.h (Unit.rect u) = 40
  /\ has_shape 4 [6; 2]%nat (NeuralNetwork.layers (Unit.brain u)) = true.
Proof.
  unfold Unit_wf. intros Hwf.
  apply andb_true_iff in Hwf as [Hwf Hshape].
  apply andb_true_iff in Hwf as [Hw Hh].
  apply Z.eqb_eq in Hw, Hh. auto.
Qed.

(** The brain of a well-formed unit answers the four inputs with two
    outputs. *)
Lemma brain_two_outputs (target : SDL_Point.t) (u : Unit.t) :
  Unit_wf u = true ->
  exists o0 o1,
    NeuralNetwork.feedForward (Unit.brain u) (Unit.inputs target u)
      = Ok [o0; o1]
    /\ tanh_value o0 /\ tanh_value o1.
Proof.
  intros Hwf. apply Unit_wf_elim in Hwf as (_ & _ & Hshape).
  destruct (feed_ok [6; 2]%nat (NeuralNetwork.layers (Unit.brain u))
                    (Unit.inputs target u) Hshape)
    as (outputs & E & Hlen & Hval).
  simpl in Hlen.
  destruct outputs as [|o0 [|o1 [|o2 outputs]]]; try discriminate.
  exists o0, o1. split; [exact E|].
  assert (Hall : Forall tanh_value [o0; o1]) by (apply Hval; discriminate).
  inversion Hall as [|? ? H0 Hall']; subst.
  inversion Hall' as [|? ? H1 _]; subst. auto.
Qed.

Lemma update_inv (target : SDL_Point.t) (u u' : Unit.t) :
  Unit.update target u = Ok u' ->
  exists o0 o1 more,
    NeuralNetwork.feedForward (Unit.brain u) (Unit.inputs target u)
      = Ok (o0 :: o1 :: more)
    /\ u' = updated u o0 o1.
Proof.
  unfold Unit.update.
  destruct (NeuralNetwork.feedForward _ _) as [[|o0 [|o1 more]]|f]; simpl;
    try discriminate.
  intros [= <-]. now exists o0, o1, more.
Qed.

Lemma update_brain (target : SDL_Point.t) (u u' : Unit.t) :
  Unit.update target u = Ok u' -> Unit.brain u' = Unit.brain u.
Proof.
  intros E. destruct (update_inv target u u' E) as (o0 & o1 & more & _ & ->).
  reflexivity.
Qed.

Lemma update_wf (target : SDL_Point.t) (u u' : Unit.t) :
  Unit.update target u = Ok u' -> Unit_wf u = true -> Unit_wf u' = true.
Proof.
  intros E. destruct (update_inv target u u' E) as (o0 & o1 & more & _ & ->).
  exact (fun Hwf => Hwf).
Qed.

Lemma update_ok (target : SDL_Point.t) (u : Unit.t) :
  Unit_wf u = true -> exists u', Unit.update target u = Ok u'.
Proof.
  intros Hwf.
  destruct (brain_two_outputs target u Hwf) as (o0 & o1 & E & _).
  unfold Unit.update. rewrite E. simpl. eauto.
Qed.

Lemma update_eq (target : SDL_Point.t) (u : Unit.t) (o0 o1 : float) :
  NeuralNetwork.feedForward (Unit.brain u) (Unit.inputs target u)
    = Ok [o0; o1] ->
  Unit.update target u = Ok (updated u o0 o1).
Proof. intros E. unfold Unit.update. rewrite E. reflexivity. Qed.

(** ** The member functions leave their object

    Threaded through [activate] and [feedForward], the object comes
    back as it went in, and the result is that of the function of the
    weights and the input. *)

Lemma accumulate_this_eq (rest : list float) :
  forall (i : nat) (sum : float) (n : Neuron.t) (w : World),
    Neuron_accumulate_this i rest sum n w =
      match Neuron.accumulate (Neuron.weights n) i rest sum with
      | Ok s => Ok ((s, n), w)
      | Fault f => Fault f
      end.
Proof.
  induction rest as [|input rest IH]; intros i sum n w; [reflexivity|].
  cbn [Neuron_accumulate_this Neuron.accumulate].
  unfold and_then, member, bind, ret. cbn [fst snd].
  destruct (nth_error (Neuron.weights n) i) as [wi|]; [apply IH|reflexivity].
Qed.

Lemma activate_this_eq (inputs : list float) (n : Neuron.t) (w : World) :
  Neuron_activate_this inputs n w =
    match Neuron.activate n inputs with
    | Ok o => Ok ((o, n), w)
    | Fault f => Fault f
    end.
Proof.
  unfold Neuron_activate_this, Neuron.activate, and_then, member, returns.
  unfold bind at 1. unfold ret at 1. cbn [fst snd].
  unfold bind. rewrite accumulate_this_eq.
  destruct (Neuron.accumulate (Neuron.weights n) 0 inputs (Neuron.bias n));
    reflexivity.
Qed.

Lemma layer_outputs_this_eq (inputs : list float) (layer : list Neuron.t) :
  forall w : World,
    layer_outputs_this inputs layer w =
      match NeuralNetwork.layer_outputs layer inputs with
      | Ok outputs => Ok ((outputs, layer), w)
      | Fault f => Fault f
      end.
Proof.
  induction layer as [|n layer IH]; intros w; [reflexivity|].
  cbn [layer_outputs_this NeuralNetwork.layer_outputs].
  unfold bind at 1. rewrite activate_this_eq.
  destruct (Neuron.activate n inputs) as [o|f]; [|reflexivity].
  unfold bind. rewrite IH. cbn [bindR].
  destruct (NeuralNetwork.layer_outputs layer inputs); reflexivity.
Qed.

Lemma feed_this_eq (ls : list (list Neuron.t)) :
  forall (inputs : list float) (w : World),
    feed_this inputs ls w =
      match NeuralNetwork.feed ls inputs with
      | Ok outputs => Ok ((outputs, ls), w)
      | Fault f => Fault f
      end.
Proof.
  induction ls as [|layer ls IH]; intros inputs w; [reflexivity|].
  cbn [feed_this NeuralNetwork.feed].
  unfold bind at 1. rewrite layer_outputs_this_eq.
  destruct (NeuralNetwork.layer_outputs layer inputs) as [mid|f];
    [|reflexivity].
  unfold bind. cbn [fst snd bindR]. rewrite IH.
  destruct (NeuralNetwork.feed ls mid); reflexivity.
Qed.

Lemma feedForward_this_eq (inputs : list float) (net : NeuralNetwork.t)
    (w : World) :
  NeuralNetwork_feedForward_this inputs net w =
    match NeuralNetwork.feedForward net inputs with
    | Ok outputs => Ok ((outputs, net), w)
    | Fault f => Fault f
    end.
Proof.
  unfold NeuralNetwork_feedForward_this, NeuralNetwork.feedForward,
    on_member, bind.
  rewrite feed_this_eq. destruct net as [ls]. cbn [NeuralNetwork.layers].
  destruct (NeuralNetwork.feed ls inputs); reflexivity.
Qed.

Lemma and_then_assign {S B : Type} (change : S -> S)
    (k : unit -> Method S B) (this : S) (w : World) :
  and_then (assign change) k this w = k tt (change this) w.
Proof. reflexivity. Qed.

Ltac unit_fields :=
  cbn [set_speed set_x set_y set_rect set_brain
       Unit.rect Unit.texture Unit.brain Unit.x Unit.y Unit.speed].

Ltac assign_step := rewrite and_then_assign; cbv beta zeta; unit_fields.

Lemma update_this_eq (target : SDL_Point.t) (u : Unit.t) (w : World) :
  Unit_update_this target u w =
    match Unit.update target u with
    | Ok u' => Ok ((tt, u'), w)
    | Fault f => Fault f
    end.
Proof.
  unfold Unit_update_this, Unit.update.
  unfold and_then at 1. unfold member at 1. unfold bind at 1, ret at 1.
  cbn [fst snd].
  unfold and_then at 1. unfold on_member at 1. unfold bind at 1.
  unfold bind at 1. rewrite feedForward_this_eq.
  destruct (NeuralNetwork.feedForward (Unit.brain u) (Unit.inputs target u))
    as [outputs|f]; [|reflexivity].
  unfold ret at 1. cbn [fst snd bindR].
  destruct (nth_error outputs 0) as [o0|]; [|reflexivity].
  destruct (nth_error outputs 1) as [o1|]; [|reflexivity].
  destruct u as [r t b x y s]. unit_fields.
  assign_step. set (s' := F32.mul o0 _).
  assign_step. set (rx := F32.add x _).
  assign_step. set (ry := F32.add y _).
  unfold Unit.clamp, Unit.raw_x, Unit.raw_y. unit_fields.
  fold s'. fold rx. fold ry.
  assign_step. destruct (F32.ltb rx (F32.of_int 0)); unit_fields;
    (assign_step;
     match goal with
     | |- context [if ?c then set_x _ _ else _] => destruct c
     end; unit_fields);
    assign_step; destruct (F32.ltb ry (F32.of_int 0)); unit_fields;
    (assign_step;
     match goal with
     | |- context [if ?c then set_y _ _ else _] => destruct c
     end; unit_fields);
    reflexivity.
Qed.

(** ** The bounds test *)

Lemma clamp_cases (limit : Z) (v : float) :
  F32.ltb (F32.of_int limit) (F32.of_int 0) = false ->
  Unit.clamp limit v =
    if F32.ltb v (F32.of_int 0) then F32.of_int 0
    else if F32.ltb (F32.of_int limit) v then F32.of_int limit
    else v.
Proof.
  intros Hlim. unfold Unit.clamp.
  destruct (F32.ltb v (F32.of_int 0)); [|reflexivity].
  now rewrite Hlim.
Qed.

(** [clamp] at a limit that is a positive number: the result is never
    beyond a bound, it is the bound that the raw value passes, and
    it lies between the bounds as soon as the raw value is a number. *)
Lemma clamp_spec (limit : Z) (v : float) :
  F32.ltb (F32.of_int 0) (F32.of_int limit) = true ->
  F32.is_nan (F32.of_int limit) = false ->
  let v' := Unit.clamp limit v in
  F32.ltb v' (F32.of_int 0) = false
  /\ F32.ltb (F32.of_int limit) v' = false
  /\ (F32.ltb v (F32.of_int 0) = true -> v' = F32.of_int 0)
  /\ (F32.ltb (F32.of_int limit) v = true -> v' = F32.of_int limit)
  /\ (F32.ltb v (F32.of_int 0) = false ->
      F32.ltb (F32.of_int limit) v = false -> v' = v)
  /\ (F32.is_nan v = false ->
      F32.leb (F32.of_int 0) v' = true
      /\ F32.leb v' (F32.of_int limit) = true).
Proof.
  intros Hpos Hnum v'.
  pose proof (ltb_asym _ _ Hpos) as Hlim.
  pose proof (ltb_leb _ _ Hpos) as Hle.
  subst v'. rewrite (clamp_cases limit v Hlim).
  destruct (F32.ltb v (F32.of_int 0)) eqn:E0;
    [|destruct (F32.ltb (F32.of_int limit) v) eqn:E1].
  - split; [reflexivity|]. split; [exact Hlim|]. split; [reflexivity|].
    split; [|split; [discriminate|]].
    + intros E1. exfalso.
      pose proof (ltb_zero_between v (F32.of_int limit) E0 Hpos).
      congruence.
    + intros _. split; [reflexivity|exact Hle].
  - split; [exact Hlim|]. split; [apply ltb_irrefl|].
    split; [discriminate|]. split; [reflexivity|].
    split; [discriminate|].
    intros _. split; [exact Hle|].
    apply not_ltb_leb; try assumption. apply ltb_irrefl.
  - split; [exact E0|]. split; [exact E1|].
    split; [discriminate|]. split; [discriminate|].
    split; [reflexivity|].
    intros Hv. split; apply not_ltb_leb; try assumption; reflexivity.
Qed.

End Units.

(** ** Magnitudes

    No operation of [update] overflows or meets an invalid operand:
    every intermediate value stays a finite number, with a bound on
    its binary exponent that is followed through the rounding. *)

Section Magnitude.

Lemma digits2_pos_le (m : positive) : 2 ^ (Zpos (digits2_pos m) - 1) <= Zpos m.
Proof.
  induction m as [m IH|m IH|]; simpl digits2_pos;
    rewrite ?Pos2Z.inj_succ; [| |reflexivity].
  - replace (Z.succ (Zpos (digits2_pos m)) - 1)
      with (Z.succ (Zpos (digits2_pos m) - 1)) by lia.
    rewrite Z.pow_succ_r by lia. lia.
  - replace (Z.succ (Zpos (digits2_pos m)) - 1)
      with (Z.succ (Zpos (digits2_pos m) - 1)) by lia.
    rewrite Z.pow_succ_r by lia. lia.
Qed.

Lemma digits2_pos_lt (m : positive) : Zpos m < 2 ^ Zpos (digits2_pos m).
Proof.
  induction m as [m IH|m IH|]; simpl digits2_pos;
    rewrite ?Pos2Z.inj_succ, ?Z.pow_succ_r by lia; lia.
Qed.

Lemma Zdigits2_nonneg (m : Z) : 0 <= Zdigits2 m.
Proof. destruct m; simpl; lia. Qed.

Lemma Zdigits2_lt (m : Z) : Z.abs m < 2 ^ Zdigits2 m.
Proof.
  destruct m as [|p|p]; simpl Zdigits2; simpl Z.abs;
    [reflexivity|apply digits2_pos_lt|apply digits2_pos_lt].
Qed.

Lemma Zdigits2_le (m k : Z) : 0 <= k -> Z.abs m < 2 ^ k -> Zdigits2 m <= k.
Proof.
  intros Hk Hm.
  assert (Hp : forall p, Zpos p < 2 ^ k -> Zpos (digits2_pos p) <= k).
  { intros p Hlt. pose proof (digits2_pos_le p) as Hle.
    destruct (Z.le_gt_cases (Zpos (digits2_pos p)) k) as [|Hgt]; [assumption|].
    assert (2 ^ k <= 2 ^ (Zpos (digits2_pos p) - 1))
      by (apply Z.pow_le_mono_r; lia).
    lia. }
  destruct m as [|p|p]; simpl Zdigits2; simpl Z.abs in Hm; auto.
Qed.

Lemma Zdigits2_pos (m : Z) : m <> 0 -> 1 <= Zdigits2 m.
Proof. destruct m; simpl; [congruence|lia|lia]. Qed.

Lemma shr_m_of_loc (m : Z) (l : location) : shr_m (shr_record_of_loc m l) = m.
Proof. destruct l as [|[]]; reflexivity. Qed.

Lemma shr_1_m (mrs : shr_record) :
  0 <= shr_m mrs -> shr_m (shr_1 mrs) = shr_m mrs / 2.
Proof.
  destruct mrs as [m r s]. cbn [shr_m]. intros Hm.
  destruct m as [|[p|p|]|]; cbn [shr_1 shr_m]; try lia.
  - reflexivity.
  - apply Z.div_unique with 1; lia.
  - apply Z.div_unique with 0; lia.
  - reflexivity.
Qed.

Lemma iter_shr_1_m (p : positive) :
  forall mrs : shr_record,
    0 <= shr_m mrs ->
    shr_m (iter_pos shr_1 p mrs) = shr_m mrs / 2 ^ Zpos p.
Proof.
  induction p as [p IH|p IH|]; intros mrs Hm; cbn [iter_pos].
  - assert (H1 : 0 <= shr_m (shr_1 mrs))
      by (rewrite shr_1_m by assumption; apply Z.div_pos; lia).
    assert (H2 : 0 <= shr_m (iter_pos shr_1 p (shr_1 mrs)))
      by (rewrite IH by assumption; apply Z.div_pos;
          [assumption|apply Z.pow_pos_nonneg; lia]).
    rewrite IH by assumption. rewrite IH by assumption.
    rewrite shr_1_m by assumption.
    assert (Hpow : 0 < 2 ^ Zpos p) by (apply Z.pow_pos_nonneg; lia).
    rewrite !Z.div_div by lia.
    f_equal.
    replace (Zpos p~1) with (Zpos p + Zpos p + 1) by lia.
    rewrite !Z.pow_add_r by lia. lia.
  - assert (H2 : 0 <= shr_m (iter_pos shr_1 p mrs))
      by (rewrite IH by assumption; apply Z.div_pos;
          [assumption|apply Z.pow_pos_nonneg; lia]).
    rewrite IH by assumption. rewrite IH by assumption.
    assert (Hpow : 0 < 2 ^ Zpos p) by (apply Z.pow_pos_nonneg; lia).
    rewrite !Z.div_div by lia.
    f_equal.
    replace (Zpos p~0) with (Zpos p + Zpos p) by lia.
    rewrite Z.pow_add_r by lia. reflexivity.
  - apply shr_1_m. assumption.
Qed.

Lemma Zdigits2_div_pow2 (m : Z) (p : positive) :
  0 <= m -> Zdigits2 (m / 2 ^ Zpos p) <= Z.max 0 (Zdigits2 m - Zpos p).
Proof.
  intros Hm. pose proof (Zdigits2_lt m) as Hlt.
  rewrite Z.abs_eq in Hlt by lia.
  pose proof (Zdigits2_nonneg m) as Hd.
  assert (Hpow : 0 < 2 ^ Zpos p) by (apply Z.pow_pos_nonneg; lia).
  assert (Hq : 0 <= m / 2 ^ Zpos p) by (apply Z.div_pos; lia).
  apply Zdigits2_le; [lia|]. rewrite Z.abs_eq by lia.
  destruct (Z.le_gt_cases (Zpos p) (Zdigits2 m)) as [Hle|Hgt].
  - rewrite Z.max_r by lia. apply Z.div_lt_upper_bound; [lia|].
    rewrite <- Z.pow_add_r by lia.
    replace (Zpos p + (Zdigits2 m - Zpos p)) with (Zdigits2 m) by lia.
    exact Hlt.
  - rewrite Z.max_l by lia. rewrite Z.div_small; [reflexivity|].
    split; [lia|]. eapply Z.lt_le_trans; [exact Hlt|].
    apply Z.pow_le_mono_r; lia.
Qed.

Lemma Zdigits2_succ (m : Z) : 0 <= m -> Zdigits2 (m + 1) <= Zdigits2 m + 1.
Proof.
  intros Hm. pose proof (Zdigits2_lt m) as Hlt.
  rewrite Z.abs_eq in Hlt by lia.
  pose proof (Zdigits2_nonneg m) as Hd.
  apply Zdigits2_le; [lia|]. rewrite Z.abs_eq by lia.
  rewrite Z.pow_add_r by lia. lia.
Qed.

Lemma Zdigits2_mul_pow2 (m n : Z) :
  0 <= n -> Zdigits2 (m * 2 ^ n) <= Zdigits2 m + n.
Proof.
  intros Hn. pose proof (Zdigits2_lt m) as Hlt.
  pose proof (Zdigits2_nonneg m) as Hd.
  assert (Hpow : 0 < 2 ^ n) by (apply Z.pow_pos_nonneg; lia).
  apply Zdigits2_le; [lia|].
  rewrite Z.abs_mul, (Z.abs_eq (2 ^ n)), Z.pow_add_r by lia.
  apply Z.mul_lt_mono_pos_r; assumption.
Qed.

Lemma fexp_eq (z : Z) : fexp F32.prec F32.emax z = Z.max (z - 24) (-149).
Proof. reflexivity. Qed.

(** What the shift to the format's exponent leaves: at most 24 bits,
    and no more magnitude than it was given. *)
Lemma shr_fexp_within (m e : Z) (l : location) (K : Z) :
  0 <= m -> Zdigits2 m + e <= K -> -125 <= K ->
  0 <= shr_m (fst (shr_fexp F32.prec F32.emax m e l))
  /\ Zdigits2 (shr_m (fst (shr_fexp F32.prec F32.emax m e l))) <= 24
  /\ Zdigits2 (shr_m (fst (shr_fexp F32.prec F32.emax m e l)))
     + snd (shr_fexp F32.prec F32.emax m e l) <= K.
Proof.
  intros Hm HK Hlow. unfold shr_fexp, shr.
  pose proof (fexp_eq (Zdigits2 m + e)) as Hf.
  pose proof (Zdigits2_nonneg m) as Hd.
  destruct (fexp F32.prec F32.emax (Zdigits2 m + e) - e) as [|p|p] eqn:En;
    cbn [fst snd].
  - rewrite shr_m_of_loc. lia.
  - rewrite iter_shr_1_m, shr_m_of_loc by (rewrite shr_m_of_loc; lia).
    pose proof (Zdigits2_div_pow2 m p Hm) as Hq.
    split; [apply Z.div_pos; [lia|apply Z.pow_pos_nonneg; lia]|]. lia.
  - rewrite shr_m_of_loc. lia.
Qed.

Lemma round_nearest_even_cases (m : Z) (l : location) :
  round_nearest_even m l = m \/ round_nearest_even m l = m + 1.
Proof.
  destruct l as [|[]]; simpl; auto. destruct (Z.even m); auto.
Qed.

(** Rounding a magnitude below [2 ^ K] gives a finite number below
    [2 ^ (K + 1)], never an infinity nor a NaN. *)
Lemma round_within (sx : bool) (mx ex : Z) (lx : location) (K : Z) :
  0 <= mx -> Zdigits2 mx + ex <= K -> -125 <= K -> K <= 104 ->
  within (K + 1) (binary_round_aux F32.prec F32.emax sx mx ex lx) = true.
Proof.
  intros Hm HK Hlow Hhigh. unfold binary_round_aux.
  destruct (shr_fexp_within mx ex lx K Hm HK Hlow) as (H0 & _ & H2).
  destruct (shr_fexp F32.prec F32.emax mx ex lx) as [mrs' e'].
  cbn [fst snd] in H0, H2.
  set (m1 := round_nearest_even (shr_m mrs') (loc_of_shr_record mrs')).
  assert (Hm1 : 0 <= m1 /\ Zdigits2 m1 + e' <= K + 1).
  { unfold m1.
    destruct (round_nearest_even_cases (shr_m mrs') (loc_of_shr_record mrs'))
      as [-> | ->]; [lia|].
    pose proof (Zdigits2_succ (shr_m mrs') H0). lia. }
  destruct Hm1 as [Hm1 HK1].
  destruct (shr_fexp_within m1 e' loc_Exact (K + 1) Hm1 HK1 ltac:(lia))
    as (H0' & H1' & H2').
  destruct (shr_fexp F32.prec F32.emax m1 e' loc_Exact) as [mrs'' e''].
  cbn [fst snd] in H0', H1', H2'.
  destruct (shr_m mrs'') as [|m|m]; [reflexivity| |lia].
  cbn [Zdigits2] in H1', H2'.
  assert (He : e'' <= 104) by lia.
  replace (e'' <=? F32.emax - F32.prec) with true
    by (symmetry; apply Z.leb_le; exact He).
  unfold within. apply andb_true_iff; split; apply Z.leb_le; lia.
Qed.

Lemma iter_xO (m d : positive) : Zpos (Pos.iter xO m d) = Zpos m * 2 ^ Zpos d.
Proof.
  induction d as [|d IH] using Pos.peano_ind.
  - simpl. lia.
  - rewrite Pos.iter_succ, Pos2Z.inj_xO, IH, Pos2Z.inj_succ,
      Z.pow_succ_r by lia. lia.
Qed.

Lemma shl_align_spec (mx : positive) (ex ex' : Z) :
  Zpos (fst (shl_align mx ex ex')) = Zpos mx * 2 ^ Z.max 0 (ex - ex')
  /\ snd (shl_align mx ex ex') = Z.min ex ex'.
Proof.
  unfold shl_align. destruct (ex' - ex) as [|d|d] eqn:Ed; cbn [fst snd].
  - rewrite Z.max_l by lia. rewrite Z.pow_0_r. lia.
  - rewrite Z.max_l by lia. rewrite Z.pow_0_r. lia.
  - rewrite Z.max_r by lia. rewrite iter_xO.
    replace (ex - ex') with (Zpos d) by lia. lia.
Qed.

Lemma binary_round_within (sx : bool) (mx : positive) (ex K : Z) :
  Zpos (digits2_pos mx) + ex <= K -> -125 <= K -> K <= 104 ->
  within (K + 1) (binary_round F32.prec F32.emax sx mx ex) = true.
Proof.
  intros HK Hlow Hhigh. unfold binary_round.
  destruct (shl_align_spec mx ex
              (fexp F32.prec F32.emax (Zpos (digits2_pos mx) + ex)))
    as [Hfst Hsnd].
  destruct (shl_align mx ex _) as [mz ez]. cbn [fst snd] in Hfst, Hsnd.
  apply round_within; try lia.
  rewrite Hfst, Hsnd.
  pose proof (Zdigits2_mul_pow2 (Zpos mx)
                (Z.max 0 (ex - fexp F32.prec F32.emax
                                 (Zpos (digits2_pos mx) + ex)))
                ltac:(lia)) as Hd.
  cbn [Zdigits2] in Hd. lia.
Qed.

Lemma normalize_within (m e : Z) (szero : bool) (K : Z) :
  Zdigits2 m + e <= K -> -125 <= K -> K <= 104 ->
  within (K + 1) (binary_normalize F32.prec F32.emax m e szero) = true.
Proof.
  intros HK Hlow Hhigh. destruct m as [|p|p]; cbn [binary_normalize].
  - reflexivity.
  - apply binary_round_within; assumption.
  - apply binary_round_within; assumption.
Qed.

Lemma within_mono (a b : Z) (v : float) :
  within a v = true -> a <= b -> within b v = true.
Proof.
  destruct v as [s|s| |s m e]; cbn [within]; try discriminate; auto.
  intros Hv Hab. apply andb_true_iff in Hv as [H1 H2].
  apply Z.leb_le in H2. rewrite H1. apply Z.leb_le. lia.
Qed.

Lemma within_binary32 (a : Z) (v : float) :
  within a v = true -> binary32 v = true.
Proof.
  destruct v as [s|s| |s m e]; cbn [within binary32]; try discriminate; auto.
  intros Hv. now apply andb_true_iff in Hv as [H1 _].
Qed.

Lemma within_number (a : Z) (v : float) :
  within a v = true -> F32.is_nan v = false.
Proof. destruct v; cbn [within]; try discriminate; reflexivity. Qed.

Lemma of_int_within (z : Z) :
  F32.INT_MIN <= z <= F32.INT_MAX -> within 33 (F32.of_int z) = true.
Proof.
  intros Hz. unfold F32.of_int. apply (normalize_within z 0 false 32); try lia.
  assert (Zdigits2 z <= 32); [|lia].
  apply Zdigits2_le; [lia|].
  unfold F32.INT_MIN, F32.INT_MAX in Hz.
  change (2 ^ 31) with 2147483648 in Hz. change (2 ^ 32) with 4294967296. lia.
Qed.

Lemma mul_within (a b : Z) (x y : float) :
  within a x = true -> within b y = true ->
  -125 <= a + b -> a + b <= 104 ->
  within (a + b + 1) (F32.mul x y) = true.
Proof.
  intros Hx Hy Hlow Hhigh.
  destruct x as [sx|sx| |sx mx ex]; try discriminate;
    destruct y as [sy|sy| |sy my ey]; try discriminate; try reflexivity.
  unfold F32.mul, SFmul.
  cbn [within] in Hx, Hy.
  apply andb_true_iff in Hx as [_ Hx]. apply andb_true_iff in Hy as [_ Hy].
  apply Z.leb_le in Hx, Hy.
  apply round_within; try lia.
  assert (Zdigits2 (Zpos (mx * my))
          <= Zpos (digits2_pos mx) + Zpos (digits2_pos my)); [|lia].
  apply Zdigits2_le; [lia|].
  rewrite Z.abs_eq, Pos2Z.inj_mul, Z.pow_add_r by lia.
  pose proof (digits2_pos_lt mx). pose proof (digits2_pos_lt my). nia.
Qed.

Lemma cond_Zopp_abs (s : bool) (v : Z) : Z.abs (cond_Zopp s v) = Z.abs v.
Proof. destruct s; simpl; [apply Z.abs_opp|reflexivity]. Qed.

Lemma aligned_lt (m : positive) (e ez a : Z) :
  Zpos (digits2_pos m) + e <= a -> ez <= e ->
  Zpos (fst (shl_align m e ez)) < 2 ^ (a - ez).
Proof.
  intros Ha Hez. destruct (shl_align_spec m e ez) as [-> _].
  rewrite Z.max_r by lia.
  pose proof (digits2_pos_lt m) as Hlt.
  apply Z.lt_le_trans with (2 ^ Zpos (digits2_pos m) * 2 ^ (e - ez)).
  - apply Z.mul_lt_mono_pos_r; [apply Z.pow_pos_nonneg; lia|assumption].
  - rewrite <- Z.pow_add_r by lia. apply Z.pow_le_mono_r; lia.
Qed.

(** The sum or difference of two aligned mantissas. *)
Lemma aligned_sum_digits (sx sy : bool) (mx my : positive) (ex ey a : Z)
    (op : Z -> Z -> Z) :
  (forall u v, Z.abs (op u v) <= Z.abs u + Z.abs v) ->
  Zpos (digits2_pos mx) + ex <= a -> Zpos (digits2_pos my) + ey <= a ->
  Zdigits2 (op (cond_Zopp sx (Zpos (fst (shl_align mx ex (Z.min ex ey)))))
               (cond_Zopp sy (Zpos (fst (shl_align my ey (Z.min ex ey))))))
  + Z.min ex ey <= a + 1.
Proof.
  intros Hop Hx Hy. set (ez := Z.min ex ey).
  pose proof (aligned_lt mx ex ez a Hx ltac:(unfold ez; lia)) as H1.
  pose proof (aligned_lt my ey ez a Hy ltac:(unfold ez; lia)) as H2.
  pose proof (Pos2Z.is_pos (digits2_pos mx)) as Hd.
  assert (Hez : 0 <= a - ez) by (unfold ez; lia).
  match goal with
  | |- Zdigits2 ?S + _ <= _ => assert (Hs : Zdigits2 S <= a - ez + 1); [|lia]
  end.
  apply Zdigits2_le; [lia|].
  eapply Z.le_lt_trans; [apply Hop|].
  rewrite !cond_Zopp_abs, !Z.abs_eq by lia.
  rewrite Z.pow_add_r by lia. lia.
Qed.

Lemma add_within (a : Z) (x y : float) :
  within a x = true -> within a y = true -> -126 <= a -> a <= 103 ->
  within (a + 2) (F32.add x y) = true.
Proof.
  intros Hx Hy Hlow Hhigh.
  destruct x as [sx|sx| |sx mx ex]; try discriminate;
    destruct y as [sy|sy| |sy my ey]; try discriminate.
  - destruct sx, sy; reflexivity.
  - apply within_mono with a; [exact Hy|lia].
  - apply within_mono with a; [exact Hx|lia].
  - unfold F32.add, SFadd. cbv zeta.
    cbn [within] in Hx, Hy.
    apply andb_true_iff in Hx as [_ Hx]. apply andb_true_iff in Hy as [_ Hy].
    apply Z.leb_le in Hx, Hy.
    replace (a + 2) with (a + 1 + 1) by lia.
    apply normalize_within; try lia.
    apply (aligned_sum_digits sx sy mx my ex ey a Z.add);
      [intros; apply Z.abs_triangle|assumption|assumption].
Qed.

Lemma sub_within (a : Z) (x y : float) :
  within a x = true -> within a y = true -> -126 <= a -> a <= 103 ->
  within (a + 2) (F32.sub x y) = true.
Proof.
  intros Hx Hy Hlow Hhigh.
  destruct x as [sx|sx| |sx mx ex]; try discriminate;
    destruct y as [sy|sy| |sy my ey]; try discriminate.
  - destruct sx, sy; reflexivity.
  - apply within_mono with a; [exact Hy|lia].
  - apply within_mono with a; [exact Hx|lia].
  - unfold F32.sub, SFsub. cbv zeta.
    cbn [within] in Hx, Hy.
    apply andb_true_iff in Hx as [_ Hx]. apply andb_true_iff in Hy as [_ Hy].
    apply Z.leb_le in Hx, Hy.
    replace (a + 2) with (a + 1 + 1) by lia.
    apply normalize_within; try lia.
    apply (aligned_sum_digits sx sy mx my ex ey a Z.sub);
      [intros; lia|assumption|assumption].
Qed.

Lemma div_within (a b : Z) (x : float) (sy : bool) (my : positive) (ey : Z) :
  within a x = true -> Zpos (digits2_pos my) + ey = b ->
  -126 <= a - b -> a - b <= 103 ->
  within (a - b + 2) (F32.div x (S754_finite sy my ey)) = true.
Proof.
  intros Hx Hb Hlow Hhigh.
  destruct x as [sx|sx| |sx mx ex]; try discriminate; [reflexivity|].
  cbn [within] in Hx. apply andb_true_iff in Hx as [_ Hx].
  apply Z.leb_le in Hx.
  unfold F32.div, SFdiv, SFdiv_core_binary. cbv zeta. cbn [Zdigits2].
  pose proof (fexp_eq (Zpos (digits2_pos mx) + ex
                       - (Zpos (digits2_pos my) + ey))) as Hf.
  remember (Z.min (fexp F32.prec F32.emax
                     (Zpos (digits2_pos mx) + ex
                      - (Zpos (digits2_pos my) + ey))) (ex - ey)) as e' eqn:Ee.
  remember (ex - ey - e') as s eqn:Es.
  assert (Hs : 0 <= s) by lia.
  match goal with
  | |- context [Z.div_eucl ?m _] => remember m as m' eqn:Em
  end.
  assert (Hm' : m' = Zpos mx * 2 ^ s).
  { subst m'. destruct s as [|p|p]; [rewrite Z.pow_0_r; lia| |lia].
    apply Z.shiftl_mul_pow2. lia. }
  assert (Hq : fst (Z.div_eucl m' (Zpos my)) = m' / Zpos my) by reflexivity.
  destruct (Z.div_eucl m' (Zpos my)) as [q r]. cbn [fst] in Hq.
  replace (a - b + 2) with (a - b + 1 + 1) by lia.
  assert (Hpow : 0 < 2 ^ s) by (apply Z.pow_pos_nonneg; lia).
  assert (Hq0 : 0 <= q) by (subst q; apply Z.div_pos; lia).
  apply round_within; try lia.
  pose proof (Z.mul_div_le m' (Zpos my) ltac:(lia)) as Hle.
  rewrite <- Hq in Hle.
  pose proof (digits2_pos_le my) as Hmy.
  pose proof (digits2_pos_lt mx) as Hmx.
  pose proof (Pos2Z.is_pos (digits2_pos mx)) as Hd1.
  pose proof (Pos2Z.is_pos (digits2_pos my)) as Hd2.
  set (d1 := Zpos (digits2_pos mx)) in *.
  set (d2 := Zpos (digits2_pos my)) in *.
  assert (Hm2 : m' < 2 ^ (d1 + s)).
  { rewrite Hm', Z.pow_add_r by lia.
    apply Z.mul_lt_mono_pos_r; assumption. }
  assert (Hp2 : 0 < 2 ^ (d2 - 1)) by (apply Z.pow_pos_nonneg; lia).
  destruct (Z.eq_dec q 0) as [->|Hne]; [cbn [Zdigits2]; lia|].
  assert (Hbig : d2 - 1 < d1 + s).
  { destruct (Z.lt_ge_cases (d2 - 1) (d1 + s)) as [|Hge]; [assumption|].
    assert (2 ^ (d1 + s) <= 2 ^ (d2 - 1)) by (apply Z.pow_le_mono_r; lia).
    nia. }
  assert (Hdq : Zdigits2 q <= d1 + s - d2 + 1); [|lia].
  apply Zdigits2_le; [lia|]. rewrite Z.abs_eq by lia.
  assert (Hsplit : 2 ^ (d1 + s) = 2 ^ (d1 + s - d2 + 1) * 2 ^ (d2 - 1)).
  { rewrite <- Z.pow_add_r by lia. f_equal. lia. }
  assert (Hp3 : 0 < 2 ^ (d1 + s - d2 + 1)) by (apply Z.pow_pos_nonneg; lia).
  nia.
Qed.

Lemma div2_bounds (z : Z) : 2 * Z.div2 z <= z <= 2 * Z.div2 z + 1.
Proof.
  rewrite Z.div2_div.
  pose proof (Z.div_mod z 2 ltac:(lia)).
  pose proof (Z.mod_pos_bound z 2 ltac:(lia)). lia.
Qed.

Lemma round_sign (mx ex : Z) (lx : location) :
  not_negative (binary_round_aux F32.prec F32.emax false mx ex lx) = true.
Proof.
  unfold binary_round_aux.
  destruct (shr_fexp F32.prec F32.emax mx ex lx) as [mrs' e'].
  destruct (shr_fexp _ _ _ e' loc_Exact) as [mrs'' e''].
  destruct (shr_m mrs''); try reflexivity.
  destruct (e'' <=? F32.emax - F32.prec); reflexivity.
Qed.

Lemma mul_self_not_negative (x : float) :
  not_negative (F32.mul x x) = true.
Proof.
  destruct x as [s|s| |s m e]; try reflexivity.
  unfold F32.mul, SFmul. rewrite xorb_nilpotent. apply round_sign.
Qed.

Lemma add_not_negative (x y : float) :
  not_negative x = true -> not_negative y = true ->
  not_negative (F32.add x y) = true.
Proof.
  destruct x as [sx|sx| |sx mx ex]; destruct y as [sy|sy| |sy my ey];
    intros Hx Hy; try reflexivity; try assumption.
  - destruct sx, sy; reflexivity.
  - destruct sx, sy; reflexivity.
  - destruct sx; [discriminate|]. destruct sy; [discriminate|].
    unfold F32.add, SFadd. cbv zeta. cbn [cond_Zopp].
    cbn [Z.add binary_normalize]. unfold binary_round.
    destruct (shl_align _ _ _) as [mz ez]. apply round_sign.
Qed.

Lemma sqrt_within (a : Z) (x : float) :
  within a x = true -> not_negative x = true ->
  -125 <= Z.div2 (a + 1) -> Z.div2 (a + 1) <= 104 ->
  within (Z.div2 (a + 1) + 1) (F32.sqrtf x) = true.
Proof.
  intros Hx Hpos Hlow Hhigh.
  destruct x as [sx|sx| |sx mx ex]; try discriminate; [reflexivity|].
  destruct sx; [discriminate|].
  cbn [within] in Hx. apply andb_true_iff in Hx as [_ Hx].
  apply Z.leb_le in Hx.
  unfold F32.sqrtf, SFsqrt, SFsqrt_core_binary. cbv zeta. cbn [Zdigits2].
  pose proof (Pos2Z.is_pos (digits2_pos mx)) as Hd.
  pose proof (digits2_pos_lt mx) as Hmx.
  set (d := Zpos (digits2_pos mx)) in *.
  pose proof (div2_bounds (d + ex + 1)) as Hj.
  pose proof (div2_bounds ex) as Hex.
  pose proof (div2_bounds (a + 1)) as Ha.
  remember (Z.div2 (d + ex + 1)) as j eqn:Ej.
  remember (Z.min (fexp F32.prec F32.emax j) (Z.div2 ex)) as e' eqn:Ee.
  remember (ex - 2 * e') as s eqn:Es.
  assert (Hs : 0 <= s) by lia.
  match goal with
  | |- context [Z.sqrtrem ?m] => remember m as m' eqn:Em
  end.
  assert (Hm' : m' = Zpos mx * 2 ^ s).
  { subst m'. destruct s as [|p|p]; [rewrite Z.pow_0_r; lia| |lia].
    apply Z.shiftl_mul_pow2. lia. }
  pose proof (Z.sqrtrem_sqrt m') as Hq.
  destruct (Z.sqrtrem m') as [q r]. cbn [fst] in Hq.
  assert (Hpow : 0 < 2 ^ s) by (apply Z.pow_pos_nonneg; lia).
  assert (Hm0 : 0 <= m') by lia.
  pose proof (Z.sqrt_spec m' Hm0) as Hspec. cbv zeta in Hspec.
  rewrite <- Hq in Hspec.
  assert (Hq0 : 0 <= q) by (subst q; apply Z.sqrt_nonneg).
  apply round_within; try lia.
  assert (Hje : 0 <= j - e') by lia.
  assert (Hdq : Zdigits2 q <= j - e'); [|lia].
  apply Zdigits2_le; [lia|]. rewrite Z.abs_eq by lia.
  assert (Hm2 : m' < 2 ^ (j - e') * 2 ^ (j - e')).
  { rewrite <- Z.pow_add_r by lia.
    apply Z.lt_le_trans with (2 ^ (d + s)).
    - rewrite Hm', Z.pow_add_r by lia.
      apply Z.mul_lt_mono_pos_r; assumption.
    - apply Z.pow_le_mono_r; lia. }
  assert (Hp : 0 < 2 ^ (j - e')) by (apply Z.pow_pos_nonneg; lia).
  nia.
Qed.

(** A binary32 number between [-2 ^ (23 + ec)] and [2 ^ (23 + ec)]. *)
Lemma between_within (M : positive) (ec : Z) (v : float) :
  binary32 v = true ->
  F32.leb (S754_finite true M ec) v = true ->
  F32.leb v (S754_finite false M ec) = true ->
  within (24 + ec) v = true.
Proof.
  destruct v as [s|s| |s m e]; cbn [binary32]; try discriminate;
    [reflexivity|].
  intros Hb Hlo Hhi. cbn [within]. rewrite Hb. cbn [andb].
  apply Z.leb_le in Hb. apply Z.leb_le.
  unfold F32.leb, SFleb, SFcompare in Hlo, Hhi.
  destruct s.
  - destruct (Z.compare_spec ec e); try discriminate; lia.
  - destruct (Z.compare_spec e ec); try discriminate; lia.
Qed.

Lemma clamped_within (M : positive) (ec : Z) (v : float) :
  binary32 v = true ->
  F32.ltb v (S754_zero false) = false ->
  F32.ltb (S754_finite false M ec) v = false ->
  within (24 + ec) v = true.
Proof.
  destruct v as [s|s| |s m e]; cbn [binary32]; try discriminate;
    [reflexivity|].
  intros Hb Hlo Hhi. cbn [within]. rewrite Hb. cbn [andb].
  apply Z.leb_le in Hb. apply Z.leb_le.
  unfold F32.ltb, SFltb, SFcompare in Hlo, Hhi.
  destruct s; [discriminate|].
  destruct (Z.compare_spec ec e); try discriminate; lia.
Qed.

End Magnitude.

(** ** From the invariant to finite coordinates *)

Section Chain.

Context `{L : LibM}.

Lemma in_range_within (v : float) : in_range v = true -> within 1 v = true.
Proof.
  unfold in_range, in_unit_interval. intros Hv.
  apply andb_true_iff in Hv as [Hb Hv]. apply andb_true_iff in Hv as [Hlo Hhi].
  exact (between_within 8388608 (-23) v Hb Hlo Hhi).
Qed.

Lemma in_range_binary32 (v : float) : in_range v = true -> binary32 v = true.
Proof. unfold in_range. intros Hv. now apply andb_true_iff in Hv. Qed.

Lemma fold_mac_within (b : Z) (ps : list (float * float)) :
  forall (sum : float) (c : Z),
    Forall (fun p => within b (fst p) = true /\ within 1 (snd p) = true) ps ->
    within c sum = true ->
    -100 <= b -> b + 2 <= c -> c + 2 * Z.of_nat (length ps) <= 104 ->
    within (c + 2 * Z.of_nat (length ps)) (fold_left mac ps sum) = true.
Proof.
  induction ps as [|[x w] ps IH]; intros sum c Hps Hsum Hb Hc Hlen.
  - cbn [length fold_left]. apply within_mono with c; [assumption|lia].
  - inversion Hps as [|? ? [Hx Hw] Hps']; subst. cbn [fst snd] in Hx, Hw.
    cbn [length] in Hlen |- *. rewrite Nat2Z.inj_succ in Hlen |- *.
    cbn [fold_left]. unfold mac at 2. cbn [fst snd].
    replace (c + 2 * Z.succ (Z.of_nat (length ps)))
      with (c + 2 + 2 * Z.of_nat (length ps)) by lia.
    apply IH; try assumption; try lia.
    apply add_within; try lia; [assumption|].
    apply within_mono with (b + 1 + 1); [|lia].
    apply mul_within; try assumption; lia.
Qed.

Lemma combine_within (b : Z) (inputs ws : list float) :
  Forall (fun v => within b v = true) inputs ->
  Forall (fun v => in_range v = true) ws ->
  Forall (fun p => within b (fst p) = true /\ within 1 (snd p) = true)
         (combine inputs ws).
Proof.
  intros Hin. revert ws.
  induction Hin as [|x inputs Hx _ IH]; intros ws Hws; [constructor|].
  destruct Hws as [|w ws Hw Hws]; [constructor|].
  cbn [combine]. constructor; [|apply IH; assumption].
  split; [exact Hx|apply in_range_within; exact Hw].
Qed.

Lemma weighted_sum_within (b : Z) (n : Neuron.t) (inputs : list float) :
  neuron_in_range n = true ->
  Forall (fun v => within b v = true) inputs ->
  -1 <= b -> b + 2 + 2 * Z.of_nat (length inputs) <= 104 ->
  within (b + 2 + 2 * Z.of_nat (length inputs)) (weighted_sum n inputs) = true.
Proof.
  unfold neuron_in_range. intros Hn Hin Hb Hlen.
  apply andb_true_iff in Hn as [Hbias Hws].
  rewrite forallb_forall in Hws. rewrite <- Forall_forall in Hws.
  pose proof (combine_within b inputs (Neuron.weights n) Hin Hws) as Hps.
  assert (Hl : (length (combine inputs (Neuron.weights n)) <= length inputs)%nat)
    by (rewrite length_combine; lia).
  apply within_mono
    with (b + 2 + 2 * Z.of_nat (length (combine inputs (Neuron.weights n))));
    [|lia].
  unfold weighted_sum. apply (fold_mac_within b); try assumption; try lia.
  apply within_mono with 1; [apply in_range_within; exact Hbias|lia].
Qed.

Lemma layer_in_range (b : Z) (layer : list Neuron.t) (inputs : list float) :
  libm_in_range L ->
  forallb neuron_in_range layer = true ->
  Forall (fun v => within b v = true) inputs ->
  -1 <= b -> b + 2 + 2 * Z.of_nat (length inputs) <= 104 ->
  Forall (fun v => in_range v = true)
         (map (fun n => tanh (weighted_sum n inputs)) layer).
Proof.
  intros (Htanh & _) Hlayer Hin Hb Hlen.
  rewrite forallb_forall in Hlayer.
  apply Forall_forall. intros o Ho. apply in_map_iff in Ho as (n & <- & Hn).
  apply Htanh. eapply within_binary32.
  apply weighted_sum_within; eauto.
Qed.

Lemma in_range_all_within (vs : list float) :
  Forall (fun v => in_range v = true) vs ->
  Forall (fun v => within 1 v = true) vs.
Proof. apply Forall_impl. exact in_range_within. Qed.

(** The brain of a unit answers four finite inputs with two numbers of
    [-1, 1]. *)
Lemma brain_outputs_in_range (ls : list (list Neuron.t)) (inputs : list float) :
  libm_in_range L ->
  has_shape 4 [6; 2]%nat ls = true ->
  forallb (forallb neuron_in_range) ls = true ->
  length inputs = 4%nat ->
  Forall (fun v => within 30 v = true) inputs ->
  exists o0 o1,
    NeuralNetwork.feed ls inputs = Ok [o0; o1]
    /\ in_range o0 = true /\ in_range o1 = true.
Proof.
  intros HL Hshape Hrange Hlen Hin.
  destruct ls as [|l1 [|l2 [|l3 ls]]]; try discriminate.
  - cbn [has_shape] in Hshape. rewrite andb_false_r in Hshape. discriminate.
  - cbn [has_shape] in Hshape.
    apply andb_true_iff in Hshape as [H1 H2].
    apply andb_true_iff in H1 as [Hl1 Hw1].
    apply andb_true_iff in H2 as [H2 _].
    apply andb_true_iff in H2 as [Hl2 Hw2].
    apply Nat.eqb_eq in Hl1, Hl2.
    cbn [forallb] in Hrange.
    apply andb_true_iff in Hrange as [Hr1 Hr2].
    apply andb_true_iff in Hr2 as [Hr2 _].
    rewrite <- Hlen in Hw1.
    pose proof (layer_outputs_eq l1 inputs Hw1) as E1.
    set (hidden := map (fun n => tanh (weighted_sum n inputs)) l1) in *.
    assert (Hh : length hidden = 6%nat)
      by (unfold hidden; rewrite length_map; exact Hl1).
    rewrite <- Hh in Hw2.
    pose proof (layer_outputs_eq l2 hidden Hw2) as E2.
    assert (Hhid : Forall (fun v => in_range v = true) hidden).
    { apply (layer_in_range 30); try assumption; rewrite ?Hlen; lia. }
    assert (Hout : Forall (fun v => in_range v = true)
                     (map (fun n => tanh (weighted_sum n hidden)) l2)).
    { apply (layer_in_range 1); try assumption; rewrite ?Hh; try lia.
      apply in_range_all_within. exact Hhid. }
    cbn [NeuralNetwork.feed]. rewrite E1. cbn [bindR]. rewrite E2.
    cbn [bindR].
    destruct l2 as [|n0 [|n1 [|n2 l2]]]; try discriminate.
    cbn [map] in Hout |- *.
    inversion Hout as [|? ? Ho0 Hout']; subst.
    inversion Hout' as [|? ? Ho1 _]; subst.
    eauto.
  - cbn [has_shape] in Hshape. rewrite !andb_false_r in Hshape. discriminate.
Qed.

Lemma of_int_800 : F32.of_int 800 = S754_finite false 13107200 (-14).
Proof. reflexivity. Qed.

Lemma of_int_5 : F32.of_int 5 = S754_finite false 10485760 (-21).
Proof. reflexivity. Qed.

Lemma inputs_within (target : SDL_Point.t) (u : Unit.t) :
  libm_in_range L ->
  is_int (SDL_Point.x target) = true -> is_int (SDL_Point.y target) = true ->
  within 33 (Unit.x u) = true -> within 33 (Unit.y u) = true ->
  within 5 (Unit.speed u) = true ->
  Forall (fun v => within 30 v = true) (Unit.inputs target u).
Proof.
  intros (_ & _ & _ & Hatan) Htx Hty Hx Hy Hs.
  unfold is_int in Htx, Hty.
  apply andb_true_iff in Htx as [Htx1 Htx2].
  apply andb_true_iff in Hty as [Hty1 Hty2].
  apply Z.leb_le in Htx1, Htx2, Hty1, Hty2.
  unfold Unit.inputs. cbv zeta.
  set (dx := F32.sub (F32.of_int (SDL_Point.x target)) (Unit.x u)).
  set (dy := F32.sub (F32.of_int (SDL_Point.y target)) (Unit.y u)).
  assert (Hdx : within 35 dx = true).
  { apply (sub_within 33); try lia; [|assumption].
    apply of_int_within. lia. }
  assert (Hdy : within 35 dy = true).
  { apply (sub_within 33); try lia; [|assumption].
    apply of_int_within. lia. }
  assert (Hsq : within 73 (F32.add (F32.mul dx dx) (F32.mul dy dy)) = true).
  { apply (add_within 71); try lia; apply (mul_within 35 35); auto; lia. }
  assert (Hnn : not_negative (F32.add (F32.mul dx dx) (F32.mul dy dy)) = true)
    by (apply add_not_negative; apply mul_self_not_negative).
  pose proof (sqrt_within 73 _ Hsq Hnn ltac:(simpl; lia) ltac:(simpl; lia))
    as Hdist.
  change (Z.div2 (73 + 1) + 1) with 38 in Hdist.
  destruct (Hatan dy dx (within_binary32 _ _ Hdy) (within_binary32 _ _ Hdx))
    as (Ha1 & Ha2 & Ha3).
  pose proof (between_within 8388608 (-21) _ Ha1 Ha2 Ha3) as Hang.
  change (24 + -21) with 3 in Hang.
  repeat constructor.
  - rewrite of_int_800.
    exact (div_within 38 10 _ false 13107200 (-14) Hdist eq_refl
                      ltac:(lia) ltac:(lia)).
  - apply within_mono with (3 - 2 + 2); [|lia].
    exact (div_within 3 2 _ false 13176795 (-22) Hang eq_refl
                      ltac:(lia) ltac:(lia)).
  - apply within_mono with (5 - 3 + 2); [|lia]. rewrite of_int_5.
    exact (div_within 5 3 _ false 10485760 (-21) Hs eq_refl
                      ltac:(lia) ltac:(lia)).
Qed.

Lemma speed_within (o0 : float) :
  in_range o0 = true -> within 5 (F32.mul o0 (F32.of_int 5)) = true.
Proof.
  intros Ho. apply (mul_within 1 3); try lia.
  - apply in_range_within. exact Ho.
  - reflexivity.
Qed.

Lemma step_within (trig : float -> float) (v o0 o1 : float) :
  (forall d, binary32 d = true -> in_range (trig d) = true) ->
  within 33 v = true -> in_range o0 = true -> in_range o1 = true ->
  within 35 (F32.add v (F32.mul (trig (F32.mul o1 F32.M_PI_f))
                                (F32.mul o0 (F32.of_int 5)))) = true.
Proof.
  intros Htrig Hv Ho0 Ho1.
  assert (Hd : within 4 (F32.mul o1 F32.M_PI_f) = true).
  { apply (mul_within 1 2); try lia; [apply in_range_within; exact Ho1|].
    reflexivity. }
  apply (add_within 33); try lia; [assumption|].
  apply within_mono with (1 + 5 + 1); [|lia].
  apply mul_within; try lia.
  - apply in_range_within, Htrig. exact (within_binary32 _ _ Hd).
  - apply speed_within. exact Ho0.
Qed.

End Chain.

Section Inv.

Context `{L : LibM} `{H : Host}.

Lemma clamp_within (limit : Z) (M : positive) (v : float) :
  F32.of_int limit = S754_finite false M (-14) ->
  within 10 (F32.of_int limit) = true ->
  binary32 v = true ->
  within 10 (Unit.clamp limit v) = true.
Proof.
  intros Elim Hlim Hv.
  rewrite clamp_cases by (rewrite Elim; reflexivity).
  destruct (F32.ltb v (F32.of_int 0)) eqn:E0; [reflexivity|].
  destruct (F32.ltb (F32.of_int limit) v) eqn:E1; [exact Hlim|].
  rewrite Elim in E1.
  exact (clamped_within M (-14) v Hv E0 E1).
Qed.

Lemma Unit_inv_elim (u : Unit.t) :
  Unit_inv u = true ->
  Unit_wf u = true
  /\ forallb (forallb neuron_in_range) (NeuralNetwork.layers (Unit.brain u))
     = true
  /\ within 33 (Unit.x u) = true /\ within 33 (Unit.y u) = true
  /\ within 5 (Unit.speed u) = true.
Proof.
  unfold Unit_inv. intros Hu.
  apply andb_true_iff in Hu as [Hu Hs].
  apply andb_true_iff in Hu as [Hu Hy].
  apply andb_true_iff in Hu as [Hu Hx].
  apply andb_true_iff in Hu as [Hwf Hn]. auto.
Qed.

(** One [update] of a unit that satisfies the invariant: the outputs
    are numbers of [-1, 1], the integrated coordinates are finite, and
    the invariant holds again. *)
Lemma update_keeps_inv (target : SDL_Point.t) (u : Unit.t) :
  libm_in_range L ->
  is_int (SDL_Point.x target) = true -> is_int (SDL_Point.y target) = true ->
  Unit_inv u = true ->
  exists o0 o1,
    NeuralNetwork.feedForward (Unit.brain u) (Unit.inputs target u)
      = Ok [o0; o1]
    /\ within 35 (Unit.raw_x u o0 o1) = true
    /\ within 35 (Unit.raw_y u o0 o1) = true
    /\ Unit_inv (updated u o0 o1) = true.
Proof.
  intros HL Htx Hty Hu.
  destruct (Unit_inv_elim u Hu) as (Hwf & Hn & Hx & Hy & Hs).
  destruct (Unit_wf_elim u Hwf) as (Hw & Hh & Hshape).
  pose proof (inputs_within target u HL Htx Hty Hx Hy Hs) as Hin.
  destruct (brain_outputs_in_range _ (Unit.inputs target u) HL Hshape Hn
              eq_refl Hin)
    as (o0 & o1 & E & Ho0 & Ho1).
  destruct HL as (_ & Hcos & Hsin & _).
  assert (Hrx : within 35 (Unit.raw_x u o0 o1) = true)
    by exact (step_within cosf (Unit.x u) o0 o1 Hcos Hx Ho0 Ho1).
  assert (Hry : within 35 (Unit.raw_y u o0 o1) = true)
    by exact (step_within sinf (Unit.y u) o0 o1 Hsin Hy Ho0 Ho1).
  exists o0, o1. split; [exact E|]. split; [exact Hrx|]. split; [exact Hry|].
  unfold Unit_inv, updated.
  cbn [Unit.rect Unit.brain Unit.x Unit.y Unit.speed].
  rewrite Hn, Hw, Hh.
  change (800 - 40) with 760. change (600 - 40) with 560.
  rewrite (within_mono 10 33 _
             (clamp_within 760 12451840 _ eq_refl eq_refl
                (within_binary32 _ _ Hrx)) ltac:(lia)).
  rewrite (within_mono 10 33 _
             (clamp_within 560 9175040 _ eq_refl eq_refl
                (within_binary32 _ _ Hry)) ltac:(lia)).
  rewrite (speed_within o0 Ho0).
  unfold Unit_wf. cbn [Unit.rect Unit.brain SDL_Rect.w SDL_Rect.h].
  rewrite Hshape. reflexivity.
Qed.

Lemma fresh_layers_in_range (rest : list Z) :
  forall (numInputs : Z) (ls : list (list Neuron.t)),
    draws_in_range H ->
    fresh_layers numInputs rest ls ->
    forallb (forallb neuron_in_range) ls = true.
Proof.
  induction rest as [|size rest IH]; intros numInputs [|layer ls] Hd;
    cbn [fresh_layers]; try tauto.
  intros (_ & Hlayer & Hls). cbn [forallb].
  rewrite (IH size ls Hd Hls), andb_true_r.
  apply forallb_forall. intros n Hn.
  rewrite Forall_forall in Hlayer.
  destruct (Hlayer n Hn) as (Hb & seed & Hw).
  unfold neuron_in_range. rewrite Hb, Hw.
  apply andb_true_iff. split; [reflexivity|].
  apply forallb_forall. intros v Hv.
  apply in_map_iff in Hv as (k & <- & _). apply Hd.
Qed.

Lemma Unit_new_inv (startX startY : Z) (imagePath : string) (w w' : World)
    (u : Unit.t) :
  draws_in_range H ->
  is_int startX = true -> is_int startY = true ->
  Unit.new startX startY imagePath w = Ok (u, w') ->
  Unit_inv u = true.
Proof.
  intros Hd Hx Hy.
  unfold is_int in Hx, Hy.
  apply andb_true_iff in Hx as [Hx1 Hx2].
  apply andb_true_iff in Hy as [Hy1 Hy2].
  apply Z.leb_le in Hx1, Hx2, Hy1, Hy2.
  assert (H6 : Forall (fun size => 0 <= size) [6; 2])
    by (repeat constructor; lia).
  destruct (NeuralNetwork_new_ok 4 [6; 2] w ltac:(lia) H6)
    as (net & w1 & E & Hfresh & _).
  unfold Unit.new, Unit.topology, bind. rewrite E. unfold ret.
  intros [= <- <-].
  unfold Unit_inv, Unit_wf.
  cbn [Unit.rect Unit.brain Unit.x Unit.y Unit.speed SDL_Rect.w SDL_Rect.h].
  pose proof (fresh_layers_shape [6; 2] 4 _ Hfresh) as Hshape.
  change (has_shape 4 [6; 2]%nat (NeuralNetwork.layers net) = true) in Hshape.
  rewrite Hshape.
  rewrite (fresh_layers_in_range _ _ _ Hd Hfresh).
  rewrite (of_int_within startX ltac:(lia)), (of_int_within startY ltac:(lia)).
  reflexivity.
Qed.

Lemma reachable_inv (u : Unit.t) :
  libm_in_range L -> draws_in_range H -> reachable u -> Unit_inv u = true.
Proof.
  intros HL Hd Hr.
  induction Hr as [sx sy path w w' u Hx Hy E|target u u' _ IH Htx Hty E].
  - exact (Unit_new_inv sx sy path w w' u Hd Hx Hy E).
  - destruct (update_keeps_inv target u HL Htx Hty IH)
      as (o0 & o1 & Eo & _ & _ & Hinv).
    rewrite (update_eq target u o0 o1 Eo) in E. injection E as <-.
    exact Hinv.
Qed.

End Inv.
(** ** The session *)

Section Session.

Context `{L : LibM} `{H : Host}.

Lemma Unit_new_ok (startX startY : Z) (imagePath : string) (w : World) :
  exists u w',
    Unit.new startX startY imagePath w = Ok (u, w')
    /\ Unit_wf u = true
    /\ fresh_layers 4 [6; 2] (NeuralNetwork.layers (Unit.brain u))
    /\ rand_calls w' = rand_calls w /\ polls w' = polls w.
Proof.
  assert (H6 : Forall (fun size => 0 <= size) [6; 2])
    by (repeat constructor; lia).
  destruct (NeuralNetwork_new_ok 4 [6; 2] w ltac:(lia) H6)
    as (net & w' & E & Hfresh & Hr & Hp).
  unfold Unit.new, Unit.topology, bind. rewrite E. unfold ret.
  eexists _, w'. split; [reflexivity|].
  split; [|auto].
  unfold Unit_wf. simpl.
  exact (fresh_layers_shape [6; 2] 4 _ Hfresh).
Qed.

Lemma spawn_ok (count : nat) :
  forall (us : list Unit.t) (w : World),
    forallb Unit_wf us = true ->
    exists us' w',
      Game.spawn count us w = Ok (us', w')
      /\ forallb Unit_wf us' = true
      /\ length us' = (length us + count)%nat
      /\ polls w' = polls w.
Proof.
  induction count as [|count IH]; intros us w Hwf; simpl.
  - exists us, w. unfold ret. repeat split; [assumption|lia].
  - unfold bind at 1. unfold rand at 1.
    unfold bind at 1. unfold rand at 1.
    cbn [rd_calls rand_calls polls].
    set (w2 := mkWorld _ _ _).
    destruct (Unit_new_ok
                (fst (Game.start_point (c_rand (rand_calls w))
                                       (c_rand (S (rand_calls w)))))
                (snd (Game.start_point (c_rand (rand_calls w))
                                       (c_rand (S (rand_calls w)))))
                "cat_unit.bmp" w2)
      as (u & w3 & E & Hu & _ & _ & Hp).
    unfold bind at 1. rewrite E.
    assert (Hwf' : forallb Unit_wf (us ++ [u]) = true).
    { rewrite forallb_app, Hwf. simpl. now rewrite Hu. }
    destruct (IH (us ++ [u]) w3 Hwf') as (us' & w' & E' & Hus & Hlen & Hp').
    exists us', w'. split; [exact E'|].
    split; [exact Hus|]. split.
    + rewrite Hlen, length_app. simpl. lia.
    + rewrite Hp', Hp. reflexivity.
Qed.

Lemma init_fails (g : Game.t) (w : World) :
  setup_ok = false ->
  exists g', Game.init g w = Ok ((false, g'), w)
             /\ Game.target g' = Game.target g.
Proof.
  unfold setup_ok, Game.init. intros Hs.
  destruct (SDL_Init <? 0) eqn:Ei.
  - exists g. split; reflexivity.
  - simpl. destruct SDL_CreateWindow as [win|].
    + destruct SDL_CreateRenderer as [ren|].
      * apply Z.ltb_ge in Ei. apply Z.leb_le in Ei.
        rewrite Ei in Hs. discriminate.
      * eexists. split; reflexivity.
    + eexists. split; reflexivity.
Qed.

Lemma init_succeeds (g : Game.t) (w : World) :
  setup_ok = true -> forallb Unit_wf (Game.units g) = true ->
  exists g' w',
    Game.init g w = Ok ((true, g'), w')
    /\ Game.running g' = true
    /\ Game.target g' = Game.target g
    /\ forallb Unit_wf (Game.units g') = true
    /\ length (Game.units g') = (length (Game.units g) + 5)%nat
    /\ polls w' = polls w.
Proof.
  unfold setup_ok, Game.init. intros Hs Hwf.
  apply andb_true_iff in Hs as [Hs Hren].
  apply andb_true_iff in Hs as [Hinit Hwin].
  apply Z.leb_le in Hinit.
  destruct (SDL_Init <? 0) eqn:Ei; [apply Z.ltb_lt in Ei; lia|].
  destruct SDL_CreateWindow as [win|]; [|discriminate].
  destruct SDL_CreateRenderer as [ren|]; [|discriminate].
  cbn [Game.window Game.renderer Game.units Game.target Game.running
       Game.targetTexture].
  destruct (spawn_ok 5 (Game.units g) w Hwf)
    as (us & w' & E & Hus & Hlen & Hp).
  unfold bind. rewrite E. unfold ret.
  eexists _, w'. split; [reflexivity|]. simpl. auto.
Qed.

(** *** The polling loop *)

Lemma handle_target_other (events : list SDL_Event) :
  forall g,
    existsb is_press events = false ->
    Game.target (fold_left Game.handleEvent events g) = Game.target g.
Proof.
  induction events as [|e events IH]; intros g; simpl; [reflexivity|].
  intros Hno. apply orb_false_iff in Hno as [He Hno].
  rewrite (IH _ Hno). destruct e; simpl in *; congruence.
Qed.

Lemma handle_target_press (before after : list SDL_Event) (px py : Z) :
  forall g,
    existsb is_press after = false ->
    Game.target
      (fold_left Game.handleEvent
                 (before ++ SDL_MOUSEBUTTONDOWN px py :: after) g)
    = SDL_Point.mk px py.
Proof.
  intros g Hno. rewrite fold_left_app. simpl.
  now rewrite (handle_target_other after _ Hno).
Qed.

Lemma handle_units (events : list SDL_Event) :
  forall g, Game.units (fold_left Game.handleEvent events g) = Game.units g.
Proof.
  induction events as [|e events IH]; intros g; simpl; [reflexivity|].
  rewrite IH. destruct e; reflexivity.
Qed.

Lemma handle_running (events : list SDL_Event) :
  forall g,
    Game.running (fold_left Game.handleEvent events g)
    = Game.running g && negb (existsb is_quit events).
Proof.
  induction events as [|e events IH]; intros g; simpl.
  - now rewrite andb_true_r.
  - rewrite IH. destruct e; simpl; try reflexivity.
    now rewrite andb_false_r.
Qed.

(** A single event changes the target only if it is a press. *)
Lemma handleEvent_target (g : Game.t) (e : SDL_Event) :
  Game.target (Game.handleEvent g e) <> Game.target g -> is_press e = true.
Proof. destruct e; simpl; congruence. Qed.

(** *** The update phase *)

Lemma update_units_inv (target : SDL_Point.t) (us : list Unit.t) :
  forall us',
    Game.update_units target us = Ok us' ->
    Forall2 (fun u u' => Unit.update target u = Ok u') us us'.
Proof.
  induction us as [|u us IH]; simpl; intros us'.
  - intros [= <-]. constructor.
  - destruct (Unit.update target u) as [u'|f] eqn:E; simpl; [|discriminate].
    destruct (Game.update_units target us) as [us''|f]; simpl;
      [|discriminate].
    intros [= <-]. constructor; auto.
Qed.

Lemma update_units_ok (target : SDL_Point.t) (us : list Unit.t) :
  forallb Unit_wf us = true ->
  exists us',
    Game.update_units target us = Ok us'
    /\ forallb Unit_wf us' = true.
Proof.
  induction us as [|u us IH]; simpl; intros Hwf.
  - exists []. split; reflexivity.
  - apply andb_true_iff in Hwf as [Hu Hus].
    destruct (update_ok target u Hu) as (u' & E).
    destruct (IH Hus) as (us' & E' & Hwf').
    rewrite E, E'. simpl. eexists. split; [reflexivity|].
    simpl. now rewrite (update_wf target u u' E Hu), Hwf'.
Qed.

Lemma Game_update_inv (g g' : Game.t) :
  Game.update g = Ok g' ->
  Game.target g' = Game.target g
  /\ Game.running g' = Game.running g
  /\ Forall2 (fun u u' => Unit.update (Game.target g) u = Ok u')
             (Game.units g) (Game.units g').
Proof.
  unfold Game.update.
  destruct (Game.update_units _ _) as [us|f] eqn:E; simpl; [|discriminate].
  intros [= <-]. simpl. repeat split.
  now apply update_units_inv.
Qed.

Lemma Game_update_ok (g : Game.t) :
  forallb Unit_wf (Game.units g) = true ->
  exists g', Game.update g = Ok g'
             /\ forallb Unit_wf (Game.units g') = true.
Proof.
  intros Hwf. unfold Game.update.
  destruct (update_units_ok (Game.target g) (Game.units g) Hwf)
    as (us & E & Hus).
  rewrite E. simpl. eexists. split; [reflexivity|exact Hus].
Qed.

End Session.

(** ** The main loop *)

Section MainLoop.

Context `{L : LibM} `{H : Host}.

Lemma main_loop_stopped (frames : nat) (g : Game.t) (w : World) :
  Game.running g = false -> main_loop frames g w = Ok (g, w).
Proof.
  intros Hr. destruct frames; simpl; unfold Game.isRunning; rewrite Hr;
    reflexivity.
Qed.

Lemma main_loop_O (g : Game.t) (w : World) : main_loop 0 g w = Ok (g, w).
Proof. simpl. destruct (Game.isRunning g); reflexivity. Qed.

Lemma main_loop_S (frames : nat) (g : Game.t) (w : World) :
  Game.running g = true ->
  main_loop (S frames) g w =
    match Game.update (fold_left Game.handleEvent (SDL_PollEvent (polls w)) g)
    with
    | Ok g2 => main_loop frames g2 (next_frame w)
    | Fault f => Fault f
    end.
Proof.
  intros Hr. simpl. unfold Game.isRunning. rewrite Hr.
  unfold Game.handleEvents, poll_events, lift, ret, bind.
  destruct (Game.update _); reflexivity.
Qed.

Lemma within_S (p : SDL_Event -> bool) (start frames : nat) :
  existsb (fun k => existsb p (SDL_PollEvent k)) (seq start (S frames))
  = existsb p (SDL_PollEvent start)
    || existsb (fun k => existsb p (SDL_PollEvent k)) (seq (S start) frames).
Proof. reflexivity. Qed.

Lemma updates_keep_brains (target : SDL_Point.t) (us us' : list Unit.t) :
  Forall2 (fun u u' => Unit.update target u = Ok u') us us' ->
  map Unit.brain us' = map Unit.brain us.
Proof.
  induction 1 as [|u u' us us' E _ IH]; simpl; [reflexivity|].
  now rewrite IH, (update_brain target u u' E).
Qed.

(** Whatever the loop does, it leaves every brain as it was, and the
    target too when no press is polled. *)
Lemma main_loop_inv (frames : nat) :
  forall (g g' : Game.t) (w w' : World),
    main_loop frames g w = Ok (g', w') ->
    map Unit.brain (Game.units g') = map Unit.brain (Game.units g)
    /\ (press_within (polls w) frames = false ->
        Game.target g' = Game.target g).
Proof.
  induction frames as [|frames IH]; intros g g' w w'.
  - rewrite main_loop_O. intros [= <- <-]. auto.
  - destruct (Game.running g) eqn:Hr.
    + rewrite (main_loop_S frames g w Hr).
      destruct (Game.update _) as [g2|f] eqn:E; [|discriminate].
      intros Hloop. destruct (IH g2 g' _ w' Hloop) as (Hb & Ht).
      destruct (Game_update_inv _ g2 E) as (Ht2 & _ & Hus).
      split.
      * rewrite Hb, (updates_keep_brains _ _ _ Hus), handle_units.
        reflexivity.
      * unfold press_within. rewrite within_S.
        intros Hno. apply orb_false_iff in Hno as [Hno0 Hno].
        rewrite (Ht Hno), Ht2. now apply handle_target_other.
    + rewrite (main_loop_stopped _ g w Hr). intros [= <- <-]. auto.
Qed.

(** With well-formed units the loop never faults, and it has stopped
    exactly when a close event came within the frames looked at. *)
Lemma main_loop_ok (frames : nat) :
  forall (g : Game.t) (w : World),
    forallb Unit_wf (Game.units g) = true ->
    exists g' w',
      main_loop frames g w = Ok (g', w')
      /\ Game.running g'
         = Game.running g && negb (quit_within (polls w) frames)
      /\ forallb Unit_wf (Game.units g') = true.
Proof.
  induction frames as [|frames IH]; intros g w Hwf.
  - exists g, w. rewrite main_loop_O. simpl.
    now rewrite andb_true_r.
  - destruct (Game.running g) eqn:Hr.
    + rewrite (main_loop_S frames g w Hr).
      set (g1 := fold_left Game.handleEvent (SDL_PollEvent (polls w)) g).
      assert (Hwf1 : forallb Unit_wf (Game.units g1) = true)
        by (unfold g1; now rewrite handle_units).
      destruct (Game_update_ok g1 Hwf1) as (g2 & E & Hwf2).
      rewrite E.
      destruct (IH g2 (next_frame w) Hwf2) as (g' & w' & E' & Hrun & Hwf').
      exists g', w'. split; [exact E'|]. split; [|exact Hwf'].
      rewrite Hrun. destruct (Game_update_inv g1 g2 E) as (_ & -> & _).
      unfold g1. rewrite handle_running, Hr.
      unfold quit_within. rewrite within_S. simpl polls.
      now rewrite negb_orb.
    + exists g, w. rewrite (main_loop_stopped _ g w Hr).
      split; [reflexivity|]. now rewrite Hr.
Qed.

Lemma main_spec (frames : nat) (w : World) :
  exists w',
    main frames w =
      Ok (if setup_ok
          then if quit_within (polls w) frames then Exit 0 else StillRunning
          else Exit (-1),
          w').
Proof.
  unfold main, bind. destruct setup_ok eqn:Hs.
  - destruct (init_succeeds Game.new w Hs eq_refl)
      as (g & w1 & E & Hrun & _ & Hwf & _ & Hp).
    rewrite E. cbn beta iota delta [fst snd].
    destruct (main_loop_ok frames g w1 Hwf) as (g' & w' & E' & Hrun' & _).
    rewrite E'. unfold ret, Game.isRunning.
    rewrite Hrun', Hrun, Hp. simpl.
    exists w'. destruct (quit_within (polls w) frames); reflexivity.
  - destruct (init_fails Game.new w Hs) as (g' & E & _).
    rewrite E. simpl. unfold ret. now exists w.
Qed.

End MainLoop.

(** * The specification's properties *)

Lemma host_stub_draws (seed : Z) (k : nat) :
  in_unit_interval (uniform_draw (Host := host_stub) seed k) = true.
Proof. simpl. destruct (Z.even _); reflexivity. Qed.

Section ConstructionProperties.

Context `{L : LibM} `{H : Host}.

(** ** Network construction *)


(** C2.  For a topology [T] of at least two positive sizes the
    constructor returns a network with [len(T) - 1] layers; layer
    [i] has [T[i+1]] neurons and each of them [T[i]] weights. *)
Theorem network_shape (T : list Z) (w : World) :
  (2 <= length T)%nat ->
  Forall (fun size => 0 < size) T ->
  exists net w',
    NeuralNetwork.new T w = Ok (net, w')
    /\ length (NeuralNetwork.layers net) = (length T - 1)%nat
    /\ forall i, (i < length T - 1)%nat ->
         length (nth i (NeuralNetwork.layers net) [])
           = Z.to_nat (nth (S i) T 0)
         /\ Forall (fun n => length (Neuron.weights n)
                             = Z.to_nat (nth i T 0))
                   (nth i (NeuralNetwork.layers net) []).
Proof.
  intros Hlen Hpos. destruct T as [|first rest]; [simpl in Hlen; lia|].
  inversion Hpos as [|? ? Hfirst Hrest]; subst.
  assert (Hrest' : Forall (fun size => 0 <= size) rest)
    by (eapply Forall_impl; [|exact Hrest]; simpl; intros; lia).
  destruct (NeuralNetwork_new_ok first rest w ltac:(lia) Hrest')
    as (net & w' & E & Hls & _).
  exists net, w'. split; [exact E|].
  assert (Hl : (length (first :: rest) - 1)%nat = length rest)
    by (simpl; lia).
  rewrite Hl.
  split; [exact (fresh_layers_length rest first _ Hls)|].
  intros i Hi.
  destruct (fresh_layers_nth rest first _ i Hls Hi) as (Hn & Hws).
  split; [exact Hn|].
  eapply Forall_impl; [|exact Hws].
  intros n. apply fresh_neuron_weights.
Qed.

End ConstructionProperties.



Lemma network_shape_witness :
  exists net w',
    NeuralNetwork.new (H := host_stub) [4; 6; 2] world0 = Ok (net, w')
    /\ length (NeuralNetwork.layers net) = 2%nat
    /\ forall i, (i < 2)%nat ->
         length (nth i (NeuralNetwork.layers net) [])
           = Z.to_nat (nth (S i) [4; 6; 2] 0)
         /\ Forall (fun n => length (Neuron.weights n)
                             = Z.to_nat (nth i [4; 6; 2] 0))
                   (nth i (NeuralNetwork.layers net) []).
Proof.
  apply (network_shape (H := host_stub) [4; 6; 2] world0).
  - simpl. lia.
  - repeat constructor.
Defined.

Section ForwardProperties.

Context `{L : LibM} `{H : Host}.

(** C3, as the code has it.  On a network constructed for a topology
    [T] of at least two positive sizes and an input vector of length
    [T[0]], [feedForward] returns a vector of length [T[last]].  Its
    elements are, neuron by neuron of the last layer, [tanh] of the
    neuron's weighted sum over the vector [hidden] that the layers
    before it return.  With the [tanh] of the C standard, an element
    lies in the closed interval [-1, 1], both ends included, when that
    sum is a number, and is NaN when that sum is NaN. *)
Theorem feedForward_output (T : list Z) (w w' : World)
    (net : NeuralNetwork.t) (inputs : list float) :
  (2 <= length T)%nat ->
  Forall (fun size => 0 < size) T ->
  NeuralNetwork.new T w = Ok (net, w') ->
  length inputs = Z.to_nat (hd 0 T) ->
  tanh_of_number L ->
  tanh_of_nan L ->
  exists hidden outputs,
    NeuralNetwork.feed (removelast (NeuralNetwork.layers net)) inputs
      = Ok hidden
    /\ NeuralNetwork.feedForward net inputs = Ok outputs
    /\ length outputs = Z.to_nat (last T 0)
    /\ Forall2 (fun n o =>
                  o = tanh (weighted_sum n hidden)
                  /\ (F32.is_nan (weighted_sum n hidden) = false ->
                      in_unit_interval o = true)
                  /\ (F32.is_nan (weighted_sum n hidden) = true ->
                      F32.is_nan o = true))
               (last (NeuralNetwork.layers net) []) outputs.
Proof.
  intros Hlen Hpos Hnew Hin Hnum Hnan.
  destruct T as [|first [|second rest]]; simpl in Hlen; try lia.
  inversion Hpos as [|? ? Hfirst Hrest]; subst.
  assert (Hrest' : Forall (fun size => 0 <= size) (second :: rest))
    by (eapply Forall_impl; [|exact Hrest]; simpl; intros; lia).
  destruct (NeuralNetwork_new_ok first (second :: rest) w ltac:(lia) Hrest')
    as (net0 & w0 & E & Hls & _).
  rewrite E in Hnew. injection Hnew as -> ->.
  pose proof (fresh_layers_shape _ _ _ Hls) as Hshape.
  simpl hd in Hin. rewrite <- Hin in Hshape.
  destruct (feed_ok _ _ inputs Hshape) as (outputs & Eo & Hout & _).
  pose proof (fun Hne => feed_last _ _ inputs Hne Hshape) as Hlast.
  destruct Hlast as (hidden & Eh & El); [discriminate|].
  exists hidden, outputs. split; [exact Eh|]. split; [exact Eo|].
  split.
  - rewrite Hout. clear.
    change (last (first :: second :: rest) 0) with (last (second :: rest) 0).
    generalize (length inputs). generalize second.
    induction rest as [|third rest IH]; intros s d; [reflexivity|].
    change (last (map Z.to_nat (s :: third :: rest)) d)
      with (last (map Z.to_nat (third :: rest)) d).
    change (last (s :: third :: rest) 0) with (last (third :: rest) 0).
    apply IH.
  - unfold NeuralNetwork.feedForward in Eo. rewrite El in Eo.
    injection Eo as <-. clear - Hnum Hnan.
    induction (last (NeuralNetwork.layers net) []) as [|n layer IH];
      cbn [map]; constructor; [|exact IH].
    split; [reflexivity|]. split; [apply Hnum|apply Hnan].
Qed.

(** C4.  A call of [feedForward], followed with its object through
    [activate] and back, returns what the function of the weights and
    the input returns and leaves the network, every weight and bias of
    it, and the host's random sequences as they were.  Two invocations
    in a row on the same input therefore return the same vector, the
    second one working on the network that the first one left.  The
    same holds across frames: [Unit::update], followed statement by
    statement, is the function [Unit.update], which hands the brain on
    as it was, so that a unit's network answers an input in a later
    frame of the main loop as it did before. *)
Theorem forward_pass_deterministic (net : NeuralNetwork.t)
    (inputs : list float) (w : World) :
  NeuralNetwork_feedForward_this inputs net w
  = match NeuralNetwork.feedForward net inputs with
    | Ok outputs => Ok ((outputs, net), w)
    | Fault f => Fault f
    end
  /\ (a <- NeuralNetwork_feedForward_this inputs net ;;
      b <- NeuralNetwork_feedForward_this inputs (snd a) ;;
      ret (fst a, fst b, snd b)) w
     = match NeuralNetwork.feedForward net inputs with
       | Ok outputs => Ok ((outputs, outputs, net), w)
       | Fault f => Fault f
       end
  /\ (forall target u,
        Unit_update_this target u w
        = match Unit.update target u with
          | Ok u' => Ok ((tt, u'), w)
          | Fault f => Fault f
          end)
  /\ (forall target u u',
        Unit.update target u = Ok u' ->
        Unit.brain u' = Unit.brain u)
  /\ (forall frames g g' w1 w2,
        main_loop frames g w1 = Ok (g', w2) ->
        map (fun u => NeuralNetwork.feedForward (Unit.brain u) inputs)
            (Game.units g')
        = map (fun u => NeuralNetwork.feedForward (Unit.brain u) inputs)
              (Game.units g)).
Proof.
  split; [apply feedForward_this_eq|].
  split; [|split; [|split]].
  - unfold bind at 1. rewrite feedForward_this_eq.
    destruct (NeuralNetwork.feedForward net inputs) as [outputs|f] eqn:E;
      [|reflexivity].
    cbn [fst snd]. unfold bind. rewrite feedForward_this_eq, E.
    reflexivity.
  - intros target u. apply update_this_eq.
  - intros target u u' E. exact (update_brain target u u' E).
  - intros frames g g' w1 w2 E.
    pose proof (proj1 (main_loop_inv frames g g' w1 w2 E)) as Hb.
    rewrite <- (map_map Unit.brain
                  (fun net' => NeuralNetwork.feedForward net' inputs)),
            Hb.
    apply map_map.
Qed.

(** C7, as the code has it.  [activate] makes no length check.  When
    the input vector is not longer than the weight vector it returns
    [tanh(bias + sum of inputs[i] * weights[i])] over the inputs
    present, whether or not weights are left over; when it is
    longer, [weights[i]] is read outside the vector. *)
Theorem activate_no_length_check (n : Neuron.t) (inputs : list float) :
  Neuron.activate n inputs =
    if (length inputs <=? length (Neuron.weights n))%nat
    then Ok (tanh (fold_left mac (combine inputs (Neuron.weights n))
                             (Neuron.bias n)))
    else Fault OutOfBounds.
Proof. apply activate_spec. Qed.

End ForwardProperties.

(** C3 as stated fails: the network constructed for {1, 1} with the
    weight 1/2 answers the input 100 with exactly 1, the binary32 value
    of [tanh] at 50 (and at infinity), and 1 is not below 1. *)
Lemma feedForward_reaches_one :
  NeuralNetwork.new (H := host_stub) [1; 1] world0
    = Ok (net_1_1, mkWorld 1 0 0)
  /\ NeuralNetwork.feedForward (H := libm_stub) net_1_1 [F32.of_int 100]
     = Ok [F32.one]
  /\ NeuralNetwork.feedForward (H := libm_stub) net_1_1 [S754_infinity false]
     = Ok [F32.one]
  /\ F32.ltb F32.one F32.one = false.
Proof. repeat split; vm_compute; reflexivity. Qed.

(** The sum of a neuron is NaN when an input is, and also when two
    infinite inputs meet weights of opposite sign; [tanh] passes the
    NaN on. *)
Example feedForward_returns_nan :
  NeuralNetwork.feedForward (H := libm_stub) net_1_1 [S754_nan]
    = Ok [S754_nan]
  /\ NeuralNetwork.new (H := host_stub) [2; 1] world0
     = Ok (NeuralNetwork.mk [[Neuron.mk [half; minus_quarter] F32.zero]],
           mkWorld 1 0 0)
  /\ NeuralNetwork.feedForward (H := libm_stub)
       (NeuralNetwork.mk [[Neuron.mk [half; minus_quarter] F32.zero]])
       [S754_infinity false; S754_infinity false]
     = Ok [S754_nan].
Proof. repeat split; vm_compute; reflexivity. Qed.

Lemma feedForward_output_witness :
  exists hidden outputs,
    NeuralNetwork.feed (H := libm_stub)
      (removelast (NeuralNetwork.layers net_4_6_2))
      [F32.of_int 1; F32.of_int 2; F32.of_int 3; F32.of_int 4] = Ok hidden
    /\ NeuralNetwork.feedForward (H := libm_stub) net_4_6_2
         [F32.of_int 1; F32.of_int 2; F32.of_int 3; F32.of_int 4]
       = Ok outputs
    /\ length outputs = 2%nat
    /\ Forall2 (fun n o =>
                  o = tanh (LibM := libm_stub) (weighted_sum n hidden)
                  /\ (F32.is_nan (weighted_sum n hidden) = false ->
                      in_unit_interval o = true)
                  /\ (F32.is_nan (weighted_sum n hidden) = true ->
                      F32.is_nan o = true))
               (last (NeuralNetwork.layers net_4_6_2) []) outputs.
Proof.
  apply (feedForward_output (L := libm_stub) (H := host_stub)
           [4; 6; 2] world0 (mkWorld 8 0 0)).
  - simpl. lia.
  - repeat constructor.
  - vm_compute. reflexivity.
  - reflexivity.
  - exact tanh_stub_of_number.
  - exact tanh_stub_of_nan.
Defined.

(** C7 as stated fails: a neuron with two weights activated on a single
    input returns a value, [tanh] of 0 + 1/2 * 1/2, and not a fault. *)
Lemma activate_short_input :
  length [half] <> length [half; minus_quarter]
  /\ Neuron.activate (H := libm_stub)
       (Neuron.mk [half; minus_quarter] F32.zero) [half]
     = Ok (tanh (LibM := libm_stub)
                (F32.add F32.zero (F32.mul half half))).
Proof. split; [discriminate|reflexivity]. Qed.

Section UnitProperties.

Context `{L : LibM} `{H : Host}.

(** C5.  For every unit that the program can hold, one that the
    constructor returned or that earlier updates left, and every
    target, [update] succeeds and leaves the position within the
    field: 0 <= x <= 760 and 0 <= y <= 560.  When the integrated
    coordinate is below 0 the new one is exactly 0, when it is above
    the upper bound the new one is exactly that bound, and otherwise
    it is the integrated coordinate itself, which is always a number.
    The mathematical functions and the weight distribution are asked
    to stay in their ranges. *)
Theorem update_within_bounds (target : SDL_Point.t) (u : Unit.t) :
  libm_in_range L -> draws_in_range H ->
  reachable u ->
  is_int (SDL_Point.x target) = true -> is_int (SDL_Point.y target) = true ->
  exists o0 o1 u',
    NeuralNetwork.feedForward (Unit.brain u) (Unit.inputs target u)
      = Ok [o0; o1]
    /\ Unit.update target u = Ok u'
    /\ Unit_wf u' = true
    /\ reachable u'
    /\ (F32.leb (F32.of_int 0) (Unit.x u') = true
        /\ F32.leb (Unit.x u') (F32.of_int 760) = true
        /\ F32.ltb (Unit.x u') (F32.of_int 0) = false
        /\ F32.ltb (F32.of_int 760) (Unit.x u') = false
        /\ (F32.ltb (Unit.raw_x u o0 o1) (F32.of_int 0) = true ->
            Unit.x u' = F32.of_int 0)
        /\ (F32.ltb (F32.of_int 760) (Unit.raw_x u o0 o1) = true ->
            Unit.x u' = F32.of_int 760)
        /\ (F32.ltb (Unit.raw_x u o0 o1) (F32.of_int 0) = false ->
            F32.ltb (F32.of_int 760) (Unit.raw_x u o0 o1) = false ->
            Unit.x u' = Unit.raw_x u o0 o1)
        /\ F32.is_nan (Unit.raw_x u o0 o1) = false)
    /\ (F32.leb (F32.of_int 0) (Unit.y u') = true
        /\ F32.leb (Unit.y u') (F32.of_int 560) = true
        /\ F32.ltb (Unit.y u') (F32.of_int 0) = false
        /\ F32.ltb (F32.of_int 560) (Unit.y u') = false
        /\ (F32.ltb (Unit.raw_y u o0 o1) (F32.of_int 0) = true ->
            Unit.y u' = F32.of_int 0)
        /\ (F32.ltb (F32.of_int 560) (Unit.raw_y u o0 o1) = true ->
            Unit.y u' = F32.of_int 560)
        /\ (F32.ltb (Unit.raw_y u o0 o1) (F32.of_int 0) = false ->
            F32.ltb (F32.of_int 560) (Unit.raw_y u o0 o1) = false ->
            Unit.y u' = Unit.raw_y u o0 o1)
        /\ F32.is_nan (Unit.raw_y u o0 o1) = false).
Proof.
  intros HL Hd Hr Htx Hty.
  pose proof (reachable_inv u HL Hd Hr) as Hu.
  destruct (update_keeps_inv target u HL Htx Hty Hu)
    as (o0 & o1 & E & Hrx & Hry & Hinv).
  destruct (Unit_inv_elim _ Hinv) as (Hwf' & _).
  destruct (Unit_inv_elim _ Hu) as (Hwf & _).
  destruct (Unit_wf_elim u Hwf) as (Hw & Hh & _).
  pose proof (update_eq target u o0 o1 E) as Eu.
  exists o0, o1, (updated u o0 o1).
  split; [exact E|]. split; [exact Eu|]. split; [exact Hwf'|].
  split; [exact (reachable_update target u _ Hr Htx Hty Eu)|].
  unfold updated. cbn [Unit.x Unit.y]. rewrite Hw, Hh.
  change (800 - 40) with 760. change (600 - 40) with 560.
  destruct (clamp_spec 760 (Unit.raw_x u o0 o1) eq_refl eq_refl)
    as (X1 & X2 & X3 & X4 & X5 & X6).
  destruct (clamp_spec 560 (Unit.raw_y u o0 o1) eq_refl eq_refl)
    as (Y1 & Y2 & Y3 & Y4 & Y5 & Y6).
  pose proof (within_number _ _ Hrx) as Nx.
  pose proof (within_number _ _ Hry) as Ny.
  destruct (X6 Nx) as [X7 X8]. destruct (Y6 Ny) as [Y7 Y8].
  repeat split; assumption.
Qed.


(** C6.  For a target (tx, ty), [update] feeds the network exactly
    [distance/800, angle/pi, speed/5, 0] with
    [distance = sqrt(dx*dx + dy*dy)], [angle = atan2(dy, dx)],
    [dx = tx - x] and [dy = ty - y]; the two outputs give the new
    speed [o0 * 5] and the direction [o1 * pi], and the position is
    integrated by [cos(direction) * speed] and
    [sin(direction) * speed] with the new speed before the bounds
    test. *)
Theorem update_formula (target : SDL_Point.t) (u : Unit.t) :
  Unit_wf u = true ->
  let dx := F32.sub (F32.of_int (SDL_Point.x target)) (Unit.x u) in
  let dy := F32.sub (F32.of_int (SDL_Point.y target)) (Unit.y u) in
  let distance := F32.sqrtf (F32.add (F32.mul dx dx) (F32.mul dy dy)) in
  let angle := atan2f dy dx in
  exists o0 o1 u',
    NeuralNetwork.feedForward (Unit.brain u)
      [ F32.div distance (F32.of_int 800);
        F32.div angle F32.M_PI_f;
        F32.div (Unit.speed u) (F32.of_int 5);
        F32.zero ] = Ok [o0; o1]
    /\ Unit.update target u = Ok u'
    /\ Unit.speed u' = F32.mul o0 (F32.of_int 5)
    /\ let direction := F32.mul o1 F32.M_PI_f in
       Unit.x u' = Unit.clamp 760
                     (F32.add (Unit.x u)
                              (F32.mul (cosf direction) (Unit.speed u')))
       /\ Unit.y u' = Unit.clamp 560
                        (F32.add (Unit.y u)
                                 (F32.mul (sinf direction) (Unit.speed u'))).
Proof.
  intros Hwf dx dy distance angle.
  destruct (brain_two_outputs target u Hwf) as (o0 & o1 & E & _).
  destruct (Unit_wf_elim u Hwf) as (Hw & Hh & _).
  exists o0, o1, (updated u o0 o1).
  split; [exact E|]. split; [exact (update_eq target u o0 o1 E)|].
  unfold updated. cbn [Unit.x Unit.y Unit.speed]. rewrite Hw, Hh.
  repeat split.
Qed.

End UnitProperties.

Lemma libm_stub_in_range : libm_in_range libm_stub.
Proof.
  split; [|split; [|split]].
  - intros s Hs. unfold in_range. apply andb_true_iff. split.
    + change (tanh (LibM := libm_stub) s) with (tanh_stub s).
      destruct s as [sg|sg| |sg m e]; try discriminate; [exact Hs|].
      unfold tanh_stub, SFabs.
      destruct (F32.ltb (S754_finite false m e) half); [exact Hs|].
      destruct (F32.ltb (S754_finite false m e) (F32.of_int 16));
        destruct sg; reflexivity.
    + apply tanh_stub_of_number. now destruct s.
  - intros d _. reflexivity.
  - intros d _. reflexivity.
  - intros a b _ _. repeat split.
Qed.

Lemma host_stub_in_range : draws_in_range host_stub.
Proof.
  intros seed k. cbn [uniform_draw host_stub].
  destruct (Z.even _); reflexivity.
Qed.

Lemma unit_stub_reachable :
  reachable (H := libm_stub) (H0 := host_stub) unit_stub.
Proof.
  apply (reachable_new (H := libm_stub) (H0 := host_stub)
           525 570 "cat_unit.bmp" (mkWorld 16 6 0) (mkWorld 24 6 0));
    vm_compute; reflexivity.
Qed.

Lemma update_within_bounds_witness :
  reachable (H := libm_stub) (H0 := host_stub) unit_stub
  /\ exists o0 o1 u',
       Unit.update (H := libm_stub) (SDL_Point.mk 400 300) unit_stub = Ok u'
       /\ F32.ltb (F32.of_int 560) (Unit.raw_y (H := libm_stub) unit_stub o0 o1)
          = true
       /\ Unit.y u' = F32.of_int 560
       /\ F32.leb (F32.of_int 0) (Unit.x u') = true
       /\ F32.leb (Unit.x u') (F32.of_int 760) = true.
Proof.
  split; [exact unit_stub_reachable|].
  destruct (update_within_bounds (L := libm_stub) (H := host_stub)
              (SDL_Point.mk 400 300) unit_stub
              libm_stub_in_range host_stub_in_range unit_stub_reachable
              eq_refl eq_refl)
    as (o0 & o1 & u' & E & Eu & _ & _ & (X1 & X2 & _)
        & (_ & _ & _ & _ & _ & Y & _)).
  exists o0, o1, u'.
  assert (Hout : Ok [o0; o1]
                 = NeuralNetwork.feedForward (H := libm_stub)
                     (Unit.brain unit_stub)
                     (Unit.inputs (H := libm_stub) (SDL_Point.mk 400 300)
                                  unit_stub))
    by (symmetry; exact E).
  vm_compute in Hout. injection Hout as -> ->.
  split; [exact Eu|].
  split; [vm_compute; reflexivity|].
  split; [apply Y; vm_compute; reflexivity|].
  split; [exact X1|exact X2].
Defined.

Lemma update_formula_witness :
  exists o0 o1 u',
    Unit.update (H := libm_stub) (SDL_Point.mk 400 300) unit_stub = Ok u'
    /\ Unit.speed u' = F32.mul o0 (F32.of_int 5)
    /\ Unit.x u'
       = Unit.clamp 760
           (F32.add (Unit.x unit_stub)
              (F32.mul (cosf (LibM := libm_stub) (F32.mul o1 F32.M_PI_f))
                       (Unit.speed u'))).
Proof.
  destruct (update_formula (L := libm_stub) (SDL_Point.mk 400 300)
              unit_stub eq_refl)
    as (o0 & o1 & u' & _ & Eu & Es & Ex & _).
  exists o0, o1, u'. repeat split; assumption.
Defined.

Section SessionProperties.

Context `{L : LibM} `{H : Host}.

(** C8.  When the events polled in a frame hold a press at (px, py)
    with no press after it, [handleEvents] leaves the target at
    exactly (px, py), whatever came before it.  The update phase
    that follows succeeds on well-formed units, calls every unit's
    [update] with that very target and returns the game with the
    target unchanged. *)
Theorem press_sets_target (g : Game.t) (w : World)
    (before after : list SDL_Event) (px py : Z) :
  SDL_PollEvent (polls w) = before ++ SDL_MOUSEBUTTONDOWN px py :: after ->
  existsb is_press after = false ->
  exists g1 w1,
    Game.handleEvents g w = Ok (g1, w1)
    /\ Game.target g1 = SDL_Point.mk px py
    /\ (forallb Unit_wf (Game.units g) = true ->
        exists g2, Game.update g1 = Ok g2)
    /\ forall g2,
         Game.update g1 = Ok g2 ->
         Game.target g2 = SDL_Point.mk px py
         /\ Forall2 (fun u u' => Unit.update (SDL_Point.mk px py) u = Ok u')
                    (Game.units g) (Game.units g2).
Proof.
  intros Hpoll Hafter.
  unfold Game.handleEvents, poll_events, ret, bind. rewrite Hpoll.
  eexists _, _. split; [reflexivity|].
  pose proof (handle_target_press before after px py g Hafter) as Ht.
  split; [exact Ht|]. split.
  - intros Hwf.
    destruct (Game_update_ok (fold_left Game.handleEvent
                (before ++ SDL_MOUSEBUTTONDOWN px py :: after) g))
      as (g2 & E & _); [now rewrite handle_units|].
    now exists g2.
  - intros g2 E. destruct (Game_update_inv _ g2 E) as (Ht2 & _ & Hus).
    rewrite Ht in Ht2, Hus. rewrite handle_units in Hus. auto.
Qed.

(** C9.  [main] never faults, and looking at [frames] frames it has
    returned -1 when one of the three startup steps failed, has
    returned 0 when startup succeeded and a close event was polled
    within those frames, and is still in its loop otherwise. *)
Theorem main_exit_code (frames : nat) :
  exists w',
    main frames world0 =
      Ok (if setup_ok
          then if quit_within 0 frames then Exit 0 else StillRunning
          else Exit (-1),
          w').
Proof. exact (main_spec frames world0). Qed.

(** C10.  A new [Game] has the target (400, 300); [init] keeps it; a
    single event changes the target only if it is a press; and as
    long as no press has been polled the target of the running game
    is still (400, 300). *)
Theorem initial_target (frames : nat) (w w0 w1 : World) (b : bool)
    (g0 g1 : Game.t) :
  Game.init Game.new w = Ok ((b, g0), w0) ->
  main_loop frames g0 w0 = Ok (g1, w1) ->
  press_within (polls w) frames = false ->
  Game.target Game.new = SDL_Point.mk 400 300
  /\ Game.target g0 = SDL_Point.mk 400 300
  /\ Game.target g1 = SDL_Point.mk 400 300
  /\ forall g e,
       Game.target (Game.handleEvent g e) <> Game.target g ->
       is_press e = true.
Proof.
  intros Einit Eloop Hno.
  assert (Hg0 : Game.target g0 = SDL_Point.mk 400 300 /\ polls w0 = polls w).
  { destruct setup_ok eqn:Hs.
    - destruct (init_succeeds Game.new w Hs eq_refl)
        as (g & w' & E & _ & Ht & _ & _ & Hp).
      rewrite E in Einit. injection Einit as _ <- <-. auto.
    - destruct (init_fails Game.new w Hs) as (g & E & Ht).
      rewrite E in Einit. injection Einit as _ <- <-. auto. }
  destruct Hg0 as (Ht0 & Hp0).
  split; [reflexivity|]. split; [exact Ht0|]. split.
  - destruct (main_loop_inv frames g0 g1 w0 w1 Eloop) as (_ & Ht).
    rewrite Hp0 in Ht. now rewrite (Ht Hno).
  - apply handleEvent_target.
Qed.

End SessionProperties.

Lemma press_sets_target_witness :
  exists g1 w1,
    Game.handleEvents (H := host_stub) game_stub (mkWorld 40 10 1)
      = Ok (g1, w1)
    /\ Game.target g1 = SDL_Point.mk 100 200
    /\ exists g2,
         Game.update (H := libm_stub) g1 = Ok g2
         /\ Game.target g2 = SDL_Point.mk 100 200
         /\ Forall2 (fun u u' =>
                       Unit.update (H := libm_stub) (SDL_Point.mk 100 200) u
                       = Ok u')
                    (Game.units game_stub) (Game.units g2).
Proof.
  destruct (press_sets_target (L := libm_stub) (H := host_stub)
              game_stub (mkWorld 40 10 1) [SDL_OTHEREVENT] [] 100 200
              eq_refl eq_refl)
    as (g1 & w1 & E & Ht & Hex & Hall).
  exists g1, w1. split; [exact E|]. split; [exact Ht|].
  destruct (Hex eq_refl) as (g2 & E2).
  exists g2. split; [exact E2|]. exact (Hall g2 E2).
Defined.

Lemma initial_target_witness :
  exists g1 w1,
    main_loop (H := libm_stub) (H0 := host_stub) 1 game_stub (mkWorld 40 10 0)
      = Ok (g1, w1)
    /\ Game.target g1 = SDL_Point.mk 400 300.
Proof.
  eexists _, _. split; [vm_compute; reflexivity|].
  refine (proj1 (proj2 (proj2
    (initial_target (L := libm_stub) (H := host_stub) 1 world0
       (mkWorld 40 10 0) _ true game_stub _ _ _ eq_refl)))).
  - vm_compute. reflexivity.
  - vm_compute. reflexivity.
Defined.

(** The three ways [main] can end, on concrete hosts. *)
Example main_closes_in_fourth_frame :
  exists w', main (H := libm_stub) (H0 := host_stub) 4 world0 = Ok (Exit 0, w').
Proof. eexists. vm_compute. reflexivity. Qed.

Example main_still_running_after_three_frames :
  exists w',
    main (H := libm_stub) (H0 := host_stub) 3 world0 = Ok (StillRunning, w').
Proof. eexists. vm_compute. reflexivity. Qed.

Example main_without_video :
  forall frames,
    main (H := libm_stub) (H0 := host_no_video) frames world0
    = Ok (Exit (-1), world0).
Proof. reflexivity. Qed.

(** * Further properties of the code *)

(** ** Construction at the edges *)

Section ConstructionEdges.

Context `{L : LibM} `{H : Host}.

Lemma new_layer_negative (numInputs : Z) (count : nat) (w : World) :
  numInputs < 0 ->
  NeuralNetwork.new_layer (S count) numInputs w = Fault LengthError.
Proof.
  intros Hneg. simpl. unfold bind.
  now rewrite (Neuron_new_negative numInputs w Hneg).
Qed.

Lemma new_layers_cases (rest : list Z) :
  forall (numInputs : Z) (w : World),
    NeuralNetwork.new_layers numInputs rest w =
      if constructible numInputs rest
      then Ok (drawn_layers numInputs (rd_calls w) rest,
               after_rd w (neuron_count rest))
      else Fault LengthError.
Proof.
  induction rest as [|size rest IH]; intros numInputs w; simpl.
  - unfold ret, after_rd. destruct w; reflexivity.
  - unfold bind at 1.
    destruct (numInputs <? 0) eqn:En; simpl.
    + apply Z.ltb_lt in En. destruct (0 <? size) eqn:Es; simpl.
      * apply Z.ltb_lt in Es.
        destruct (Z.to_nat size) as [|count] eqn:Ec; [lia|].
        now rewrite (new_layer_negative numInputs count w En).
      * apply Z.ltb_ge in Es.
        replace (Z.to_nat size) with 0%nat by lia. simpl.
        unfold ret at 1. unfold bind at 1. rewrite IH.
        destruct (constructible size rest); [|reflexivity].
        unfold ret. unfold after_rd. simpl.
        rewrite Nat.add_0_r. destruct w; reflexivity.
    + apply Z.ltb_ge in En.
      rewrite (new_layer_ok numInputs En).
      unfold bind at 1. rewrite IH.
      destruct (constructible size rest); [|reflexivity].
      unfold ret. rewrite after_rd_after_rd. simpl rd_calls.
      now rewrite (Nat.add_comm (Z.to_nat size) (rd_calls w)).
Qed.

(** The constructor throws [std::length_error] exactly when some layer
    with at least one neuron follows a negative size; in every other
    case, sizes that are zero or negative included, it returns the
    layers of [drawn_layers], a layer of size zero or less being
    empty, and has called [rd()] once per neuron. *)
Theorem NeuralNetwork_new_cases (first : Z) (rest : list Z) (w : World) :
  NeuralNetwork.new (first :: rest) w =
    if constructible first rest
    then Ok (NeuralNetwork.mk (drawn_layers first (rd_calls w) rest),
             after_rd w (neuron_count rest))
    else Fault LengthError.
Proof.
  simpl. unfold bind. rewrite new_layers_cases.
  destruct (constructible first rest); reflexivity.
Qed.

(** A topology with fewer than two sizes, whatever the size is, gives
    a network without layers and draws nothing; such a network returns
    every input vector as it is. *)
Theorem short_topology_is_identity (T : list Z) (w : World) :
  (length T <= 1)%nat ->
  NeuralNetwork.new T w = Ok (NeuralNetwork.mk [], w)
  /\ forall inputs,
       NeuralNetwork.feedForward (NeuralNetwork.mk []) inputs = Ok inputs.
Proof.
  intros Hlen. split; [|reflexivity].
  destruct T as [|first [|second rest]]; simpl in Hlen; try lia;
    reflexivity.
Qed.

(** *** Input vectors of the wrong length *)

Lemma last_of_map {A B : Type} (f : A -> B) (l : list A) :
  forall d : A, last (map f l) (f d) = f (last l d).
Proof.
  induction l as [|a l IH]; intros d; [reflexivity|].
  destruct l as [|b l]; [reflexivity|].
  change (last (map f (b :: l)) (f d) = f (last (b :: l) d)). apply IH.
Qed.


Lemma layer_outputs_short (layer : list Neuron.t) (inputs : list float) :
  Forall (fun n => (length inputs <= length (Neuron.weights n))%nat) layer ->
  exists outputs,
    NeuralNetwork.layer_outputs layer inputs = Ok outputs
    /\ length outputs = length layer.
Proof.
  induction 1 as [|n layer Hn _ IH]; simpl.
  - now exists [].
  - destruct IH as (outputs & E & Hlen).
    rewrite activate_spec. apply Nat.leb_le in Hn. rewrite Hn. simpl.
    rewrite E. simpl. eexists. split; [reflexivity|]. simpl. congruence.
Qed.

Lemma layer_outputs_long (n : Neuron.t) (layer : list Neuron.t)
    (inputs : list float) :
  (length (Neuron.weights n) < length inputs)%nat ->
  NeuralNetwork.layer_outputs (n :: layer) inputs = Fault OutOfBounds.
Proof.
  intros Hlong. simpl. rewrite activate_spec.
  apply Nat.leb_gt in Hlong. now rewrite Hlong.
Qed.

(** On a network constructed for at least two positive sizes, an input
    vector longer than [T[0]] makes [feedForward] read outside the
    weights of the first neuron, while a shorter one is accepted
    without notice and still yields [T[last]] outputs. *)
Theorem feedForward_input_length (first second : Z) (rest : list Z)
    (w : World) (inputs : list float) :
  Forall (fun size => 0 < size) (first :: second :: rest) ->
  exists net w',
    NeuralNetwork.new (first :: second :: rest) w = Ok (net, w')
    /\ ((Z.to_nat first < length inputs)%nat ->
        NeuralNetwork.feedForward net inputs = Fault OutOfBounds)
    /\ ((length inputs <= Z.to_nat first)%nat ->
        exists outputs,
          NeuralNetwork.feedForward net inputs = Ok outputs
          /\ length outputs = Z.to_nat (last rest second)).
Proof.
  intros Hpos.
  inversion Hpos as [|? ? Hfirst Hrest]; subst.
  inversion Hrest as [|? ? Hsecond Hrest']; subst.
  assert (Hnn : Forall (fun size => 0 <= size) (second :: rest))
    by (eapply Forall_impl; [|exact Hrest]; simpl; intros; lia).
  destruct (NeuralNetwork_new_ok first (second :: rest) w ltac:(lia) Hnn)
    as (net & w' & E & Hls & _).
  exists net, w'. split; [exact E|].
  unfold NeuralNetwork.feedForward.
  destruct (NeuralNetwork.layers net) as [|layer ls]; [contradiction|].
  destruct Hls as (Hlen & Hfresh & Hls).
  split.
  - intros Hlong. destruct layer as [|n layer]; [simpl in Hlen; lia|].
    cbn [NeuralNetwork.feed].
    rewrite layer_outputs_long; [reflexivity|].
    inversion Hfresh as [|? ? Hn _]; subst.
    now rewrite (fresh_neuron_weights first n Hn).
  - intros Hshort.
    destruct (layer_outputs_short layer inputs) as (mid & Em & Hmid).
    { eapply Forall_impl; [|exact Hfresh]. intros n Hn.
      now rewrite (fresh_neuron_weights first n Hn). }
    cbn [NeuralNetwork.feed]. rewrite Em. simpl.
    pose proof (fresh_layers_shape rest second ls Hls) as Hshape.
    assert (Hm : length mid = Z.to_nat second) by congruence.
    rewrite <- Hm in Hshape.
    destruct (feed_ok _ _ mid Hshape) as (outputs & Eo & Hout & _).
    exists outputs. split; [exact Eo|].
    rewrite Hout, Hm. apply last_of_map.
Qed.

End ConstructionEdges.

Lemma short_topology_is_identity_witness :
  NeuralNetwork.new (H := host_stub) [-3] world0
    = Ok (NeuralNetwork.mk [], world0)
  /\ forall inputs,
       NeuralNetwork.feedForward (H := libm_stub) (NeuralNetwork.mk []) inputs
       = Ok inputs.
Proof.
  apply (short_topology_is_identity (L := libm_stub) (H := host_stub)).
  simpl. lia.
Defined.

Lemma feedForward_input_length_witness :
  exists net w',
    NeuralNetwork.new (H := host_stub) [4; 6; 2] world0 = Ok (net, w')
    /\ NeuralNetwork.feedForward (H := libm_stub) net
         [F32.one; F32.one; F32.one; F32.one; F32.one] = Fault OutOfBounds
    /\ exists outputs,
         NeuralNetwork.feedForward (H := libm_stub) net [F32.one; F32.one]
           = Ok outputs
         /\ length outputs = 2%nat.
Proof.
  destruct (feedForward_input_length (L := libm_stub) (H := host_stub)
              4 6 [2] world0 [F32.one; F32.one; F32.one; F32.one; F32.one])
    as (net & w' & E & Hlong & _); [repeat constructor|].
  destruct (feedForward_input_length (L := libm_stub) (H := host_stub)
              4 6 [2] world0 [F32.one; F32.one])
    as (net2 & w2 & E2 & _ & Hshort); [repeat constructor|].
  rewrite E in E2. injection E2 as <- <-.
  exists net, w'. split; [exact E|]. split.
  - apply Hlong. simpl. lia.
  - apply Hshort. simpl. lia.
Defined.

(** The topology {-1, 0, 3} is built (its first layer is empty), with
    three neurons of no weight; {4, -1, 2} throws. *)
Example construction_with_odd_sizes :
  NeuralNetwork.new (H := host_stub) [-1; 0; 3] world0
    = Ok (NeuralNetwork.mk
            [[]; [Neuron.mk [] F32.zero; Neuron.mk [] F32.zero;
                  Neuron.mk [] F32.zero]],
          mkWorld 3 0 0)
  /\ NeuralNetwork.new (H := host_stub) [4; -1; 2] world0 = Fault LengthError.
Proof. split; reflexivity. Qed.

(** ** Startup *)

Section Startup.

Context `{L : LibM} `{H : Host}.

Lemma Unit_new_eq (startX startY : Z) (imagePath : string) (w : World) :
  Unit.new startX startY imagePath w =
    Ok (Unit.mk (SDL_Rect.mk (F32.to_int (F32.of_int startX))
                             (F32.to_int (F32.of_int startY)) 40 40)
                (loaded_texture imagePath)
                (NeuralNetwork.mk (drawn_layers 4 (rd_calls w) [6; 2]))
                (F32.of_int startX) (F32.of_int startY) (F32.of_int 2),
        after_rd w 8).
Proof.
  unfold Unit.new, Unit.topology, bind.
  rewrite (NeuralNetwork_new_eq 4 [6; 2] w); [reflexivity|lia|].
  repeat constructor; lia.
Qed.

Lemma spawn_eq (count : nat) :
  forall (us : list Unit.t) (w : World),
    Game.spawn count us w =
      Ok (us ++ map (initial_unit (rd_calls w) (rand_calls w)) (seq 0 count),
          mkWorld (8 * count + rd_calls w) (2 * count + rand_calls w)
                  (polls w)).
Proof.
  induction count as [|count IH]; intros us w.
  - simpl. unfold ret. rewrite app_nil_r. destruct w; reflexivity.
  - cbn [Game.spawn]. unfold bind at 1. unfold rand at 1.
    unfold bind at 1. unfold rand at 1.
    cbn [rd_calls rand_calls polls].
    unfold bind at 1. rewrite Unit_new_eq. rewrite IH.
    unfold after_rd. cbn [rd_calls rand_calls polls].
    f_equal. f_equal.
    + rewrite <- app_assoc. f_equal.
      cbn [seq map app]. f_equal.
      * unfold initial_unit.
        now rewrite Nat.mul_0_r, !Nat.add_0_r, Nat.add_1_r.
      * rewrite <- seq_shift, map_map. apply map_ext. intros k.
        unfold initial_unit.
        replace (8 + rd_calls w + 8 * k)%nat
          with (rd_calls w + 8 * S k)%nat by lia.
        replace (S (S (rand_calls w)) + 2 * k)%nat
          with (rand_calls w + 2 * S k)%nat by lia.
        reflexivity.
    + f_equal; lia.
Qed.

Lemma init_eq (w : World) :
  setup_ok = true ->
  Game.init Game.new w =
    Ok ((true,
         Game.mk SDL_CreateWindow SDL_CreateRenderer true
                 (map (initial_unit (rd_calls w) (rand_calls w)) (seq 0 5))
                 (SDL_Point.mk 400 300)
                 (loaded_texture "cat_target.bmp")),
        mkWorld (40 + rd_calls w) (10 + rand_calls w) (polls w)).
Proof.
  unfold setup_ok, Game.init. intros Hs.
  apply andb_true_iff in Hs as [Hs Hren].
  apply andb_true_iff in Hs as [Hinit Hwin].
  apply Z.leb_le in Hinit.
  destruct (SDL_Init <? 0) eqn:Ei; [apply Z.ltb_lt in Ei; lia|].
  destruct SDL_CreateWindow as [win|]; [|discriminate].
  destruct SDL_CreateRenderer as [ren|]; [|discriminate].
  cbn [Game.window Game.renderer Game.units Game.target Game.running
       Game.targetTexture Game.new].
  unfold bind. rewrite spawn_eq. unfold ret. reflexivity.
Qed.


(** When a startup step fails, [init] returns false before any unit is
    built: [main] returns -1 having drawn no random number and polled
    no event, and the game still has no unit and is not running. *)
Theorem failed_startup_touches_nothing (frames : nat) (w : World) :
  setup_ok = false ->
  main frames w = Ok (Exit (-1), w)
  /\ exists g, Game.init Game.new w = Ok ((false, g), w)
               /\ Game.units g = [] /\ Game.running g = false.
Proof.
  intros Hs.
  assert (Hinit : exists g, Game.init Game.new w = Ok ((false, g), w)
                            /\ Game.units g = [] /\ Game.running g = false).
  { unfold setup_ok in Hs. unfold Game.init.
    destruct (SDL_Init <? 0) eqn:Ei.
    - exists Game.new. repeat split.
    - simpl. destruct SDL_CreateWindow as [win|].
      + destruct SDL_CreateRenderer as [ren|].
        * apply Z.ltb_ge in Ei. apply Z.leb_le in Ei.
          rewrite Ei in Hs. discriminate.
        * eexists. repeat split.
      + eexists. repeat split. }
  split; [|exact Hinit].
  destruct Hinit as (g & E & _).
  unfold main, bind. rewrite E. reflexivity.
Qed.

End Startup.

(** [int] to [float] and back is exact on the start coordinates. *)
Lemma to_int_of_int_small (z : Z) :
  0 <= z < 800 -> F32.to_int (F32.of_int z) = z.
Proof.
  intros Hz.
  assert (Hall : forallb (fun n => F32.to_int (F32.of_int (Z.of_nat n))
                                   =? Z.of_nat n)
                         (seq 0 800) = true) by (vm_compute; reflexivity).
  rewrite forallb_forall in Hall.
  specialize (Hall (Z.to_nat z)).
  rewrite Z2Nat.id in Hall by lia.
  apply Z.eqb_eq, Hall, in_seq. lia.
Qed.

Section StartPositions.

Context `{H : Host}.

(** With [rand()] never negative, every unit that [init] creates has
    its box at ([rand()] % 800, [rand()] % 600) exactly, a point of the
    800x600 window, and its float position is that same point: the
    conversion to [float] and the truncation back lose nothing.  Of
    the unit's two [rand()] calls, [2k] and [2k+1], the first feeds the
    argument that the build evaluates first: x in a build that goes
    left to right, y in one that goes right to left. *)
Theorem units_start_in_window (rd0 rand0 k : nat) :
  (forall i, 0 <= c_rand i) ->
  let u := initial_unit rd0 rand0 k in
  let first := c_rand (rand0 + 2 * k) in
  let second := c_rand (rand0 + 2 * k + 1) in
  0 <= SDL_Rect.x (Unit.rect u) < 800
  /\ 0 <= SDL_Rect.y (Unit.rect u) < 600
  /\ SDL_Rect.x (Unit.rect u) =
       Z.rem (if arguments_right_to_left then second else first) 800
  /\ SDL_Rect.y (Unit.rect u) =
       Z.rem (if arguments_right_to_left then first else second) 600
  /\ Unit.x u = F32.of_int (SDL_Rect.x (Unit.rect u))
  /\ Unit.y u = F32.of_int (SDL_Rect.y (Unit.rect u))
  /\ Unit_wf u = true.
Proof.
  intros Hrand u first second.
  pose proof (Hrand (rand0 + 2 * k)%nat) as H1.
  pose proof (Hrand (rand0 + 2 * k + 1)%nat) as H2.
  fold first in H1. fold second in H2.
  assert (Ex : SDL_Rect.x (Unit.rect u)
               = Z.rem (if arguments_right_to_left then second else first)
                       800).
  { subst u. unfold initial_unit, Game.start_point.
    fold first. fold second.
    destruct arguments_right_to_left; cbn [fst snd Unit.rect SDL_Rect.x];
      apply to_int_of_int_small; apply Z.rem_bound_pos; lia. }
  assert (Ey : SDL_Rect.y (Unit.rect u)
               = Z.rem (if arguments_right_to_left then first else second)
                       600).
  { subst u. unfold initial_unit, Game.start_point.
    fold first. fold second.
    destruct arguments_right_to_left; cbn [fst snd Unit.rect SDL_Rect.y];
      apply to_int_of_int_small;
      match goal with
      | |- 0 <= Z.rem ?a 600 < 800 =>
          pose proof (Z.rem_bound_pos a 600 ltac:(assumption) ltac:(lia));
          lia
      end. }
  assert (Hx : 0 <= SDL_Rect.x (Unit.rect u) < 800).
  { rewrite Ex. destruct arguments_right_to_left;
      apply Z.rem_bound_pos; lia. }
  assert (Hy : 0 <= SDL_Rect.y (Unit.rect u) < 600).
  { rewrite Ey. destruct arguments_right_to_left;
      apply Z.rem_bound_pos; lia. }
  split; [exact Hx|]. split; [exact Hy|].
  split; [exact Ex|]. split; [exact Ey|].
  rewrite Ex, Ey. subst u. unfold initial_unit, Game.start_point.
  fold first. fold second.
  destruct arguments_right_to_left; repeat split.
Qed.

End StartPositions.


Lemma failed_startup_touches_nothing_witness :
  main (H := libm_stub) (H0 := host_no_video) 7 world0
    = Ok (Exit (-1), world0).
Proof.
  exact (proj1 (failed_startup_touches_nothing (L := libm_stub)
                  (H := host_no_video) 7 world0 eq_refl)).
Defined.

Lemma units_start_in_window_witness :
  SDL_Rect.x (Unit.rect (initial_unit (H := host_right_to_left) 0 0 2))
    = 570
  /\ SDL_Rect.y (Unit.rect (initial_unit (H := host_right_to_left) 0 0 2))
     = 525.
Proof.
  destruct (units_start_in_window (H := host_right_to_left) 0 0 2)
    as (_ & _ & Ex & Ey & _).
  - intros i.
    change (0 <= (45 * Z.of_nat i + 345) mod 2147483648).
    apply Z.mod_pos_bound. lia.
  - rewrite Ex, Ey. split; reflexivity.
Defined.

(** The same two calls give the third unit (525, 570) in a build that
    evaluates left to right and (570, 525) in one that evaluates right
    to left; both stay within [RAND_MAX]. *)
Example start_depends_on_argument_order :
  Unit.rect (initial_unit (H := host_stub) 0 0 2)
    = SDL_Rect.mk 525 570 40 40
  /\ Unit.rect (initial_unit (H := host_right_to_left) 0 0 2)
     = SDL_Rect.mk 570 525 40 40
  /\ forallb (fun k => (0 <=? c_rand (Host := host_stub) k)
                       && (c_rand (Host := host_stub) k <=? 2147483647))
             (seq 0 10) = true.
Proof. repeat split; vm_compute; reflexivity. Qed.

(** ** Events and the loop *)

Section Loop.

Context `{L : LibM} `{H : Host}.

Lemma handle_fixed_fields (events : list SDL_Event) :
  forall g,
    Game.window (fold_left Game.handleEvent events g) = Game.window g
    /\ Game.renderer (fold_left Game.handleEvent events g) = Game.renderer g
    /\ Game.targetTexture (fold_left Game.handleEvent events g)
       = Game.targetTexture g.
Proof.
  induction events as [|e events IH]; intros g; simpl; [auto|].
  destruct (IH (Game.handleEvent g e)) as (-> & -> & ->).
  destruct e; auto.
Qed.

(** [handleEvents] drains one queue and touches nothing but [running]
    and [target]: the game keeps running exactly if it ran before and
    the queue holds no close event (nothing ever restarts it), the
    events after a close event are still handled like the others, and
    without a press the target stays. *)
Theorem handleEvents_effect (g : Game.t) (w : World) :
  exists g',
    Game.handleEvents g w = Ok (g', next_frame w)
    /\ Game.running g'
       = Game.running g && negb (existsb is_quit (SDL_PollEvent (polls w)))
    /\ Game.units g' = Game.units g
    /\ Game.window g' = Game.window g
    /\ Game.renderer g' = Game.renderer g
    /\ Game.targetTexture g' = Game.targetTexture g
    /\ (existsb is_press (SDL_PollEvent (polls w)) = false ->
        Game.target g' = Game.target g)
    /\ (forall before after px py,
          SDL_PollEvent (polls w)
          = before ++ SDL_QUIT :: SDL_MOUSEBUTTONDOWN px py :: after ->
          existsb is_press after = false ->
          Game.running g' = false /\ Game.target g' = SDL_Point.mk px py).
Proof.
  eexists. split; [reflexivity|].
  destruct (handle_fixed_fields (SDL_PollEvent (polls w)) g)
    as (Hw & Hr & Ht).
  split; [apply handle_running|]. split; [apply handle_units|].
  split; [exact Hw|]. split; [exact Hr|]. split; [exact Ht|].
  split; [apply handle_target_other|].
  intros before after px py Hq Hafter. split.
  - rewrite handle_running, Hq, existsb_app. simpl.
    now rewrite orb_true_r, andb_false_r.
  - rewrite Hq.
    change (before ++ SDL_QUIT :: SDL_MOUSEBUTTONDOWN px py :: after)
      with (before ++ [SDL_QUIT] ++ SDL_MOUSEBUTTONDOWN px py :: after).
    rewrite app_assoc. now apply handle_target_press.
Qed.

Lemma updated_keeps (u : Unit.t) (o0 o1 : float) :
  Unit.texture (updated u o0 o1) = Unit.texture u
  /\ SDL_Rect.w (Unit.rect (updated u o0 o1)) = SDL_Rect.w (Unit.rect u)
  /\ SDL_Rect.h (Unit.rect (updated u o0 o1)) = SDL_Rect.h (Unit.rect u).
Proof. repeat split. Qed.

Lemma updates_keep_sprites (target : SDL_Point.t) (us us' : list Unit.t) :
  Forall2 (fun u u' => Unit.update target u = Ok u') us us' ->
  length us' = length us
  /\ map Unit.texture us' = map Unit.texture us
  /\ map (fun u => (SDL_Rect.w (Unit.rect u), SDL_Rect.h (Unit.rect u))) us'
     = map (fun u => (SDL_Rect.w (Unit.rect u), SDL_Rect.h (Unit.rect u))) us.
Proof.
  induction 1 as [|u u' us us' E _ (IH1 & IH2 & IH3)]; simpl; [auto|].
  destruct (update_inv target u u' E) as (o0 & o1 & more & _ & ->).
  rewrite IH1, IH2, IH3. auto.
Qed.

Lemma main_loop_preserves (frames : nat) :
  forall (g g' : Game.t) (w w' : World),
    main_loop frames g w = Ok (g', w') ->
    length (Game.units g') = length (Game.units g)
    /\ map Unit.texture (Game.units g') = map Unit.texture (Game.units g)
    /\ map (fun u => (SDL_Rect.w (Unit.rect u), SDL_Rect.h (Unit.rect u)))
           (Game.units g')
       = map (fun u => (SDL_Rect.w (Unit.rect u), SDL_Rect.h (Unit.rect u)))
             (Game.units g)
    /\ Game.window g' = Game.window g
    /\ Game.renderer g' = Game.renderer g
    /\ Game.targetTexture g' = Game.targetTexture g
    /\ rd_calls w' = rd_calls w /\ rand_calls w' = rand_calls w
    /\ (polls w <= polls w' <= polls w + frames)%nat.
Proof.
  induction frames as [|frames IH]; intros g g' w w'.
  - rewrite main_loop_O. intros [= <- <-]. repeat split; lia.
  - destruct (Game.running g) eqn:Hr.
    + rewrite (main_loop_S frames g w Hr).
      destruct (Game.update _) as [g2|f] eqn:E; [|discriminate].
      intros Hloop.
      destruct (IH g2 g' _ w' Hloop)
        as (I1 & I2 & I3 & I4 & I5 & I6 & I7 & I8 & I9).
      unfold Game.update in E.
      destruct (Game.update_units _ _) as [us|f] eqn:Eu; simpl in E;
        [|discriminate].
      injection E as <-.
      cbn [Game.units Game.window Game.renderer Game.targetTexture] in *.
      destruct (updates_keep_sprites _ _ _ (update_units_inv _ _ _ Eu))
        as (U1 & U2 & U3).
      rewrite handle_units in U1, U2, U3.
      destruct (handle_fixed_fields (SDL_PollEvent (polls w)) g)
        as (Hw & Hre & Ht).
      simpl in I7, I8, I9.
      repeat split; try congruence; lia.
    + rewrite (main_loop_stopped _ g w Hr). intros [= <- <-].
      repeat split; lia.
Qed.

(** However long the loop turns, it never adds or removes a unit and
    never changes a unit's texture or the size of its box, nor the
    window, the renderer or the target's texture; it draws no random
    number, and it polls the event queue at most once per frame. *)
Theorem main_loop_keeps (frames : nat) :
  forall (g g' : Game.t) (w w' : World),
    main_loop frames g w = Ok (g', w') ->
    length (Game.units g') = length (Game.units g)
    /\ map Unit.texture (Game.units g') = map Unit.texture (Game.units g)
    /\ map (fun u => (SDL_Rect.w (Unit.rect u), SDL_Rect.h (Unit.rect u)))
           (Game.units g')
       = map (fun u => (SDL_Rect.w (Unit.rect u), SDL_Rect.h (Unit.rect u)))
             (Game.units g)
    /\ Game.window g' = Game.window g
    /\ Game.renderer g' = Game.renderer g
    /\ Game.targetTexture g' = Game.targetTexture g
    /\ rd_calls w' = rd_calls w /\ rand_calls w' = rand_calls w
    /\ (polls w <= polls w' <= polls w + frames)%nat.
Proof. exact (main_loop_preserves frames). Qed.

(** The frame that polls a close event is the last one, whatever the
    number of frames looked at: its events are handled, every unit is
    still updated once with the target those events leave, and the
    loop ends stopped after this single poll. *)
Theorem close_frame_is_last (g : Game.t) (w : World) :
  Game.running g = true ->
  existsb is_quit (SDL_PollEvent (polls w)) = true ->
  forallb Unit_wf (Game.units g) = true ->
  exists g',
    (forall frames, main_loop (S frames) g w = Ok (g', next_frame w))
    /\ Game.running g' = false
    /\ Forall2 (fun u u' =>
                  Unit.update
                    (Game.target
                       (fold_left Game.handleEvent (SDL_PollEvent (polls w)) g))
                    u = Ok u')
               (Game.units g) (Game.units g').
Proof.
  intros Hr Hq Hwf.
  set (g1 := fold_left Game.handleEvent (SDL_PollEvent (polls w)) g).
  assert (Hwf1 : forallb Unit_wf (Game.units g1) = true)
    by (unfold g1; now rewrite handle_units).
  destruct (Game_update_ok g1 Hwf1) as (g2 & E & _).
  destruct (Game_update_inv g1 g2 E) as (_ & Hrun & Hus).
  assert (Hstop : Game.running g2 = false).
  { rewrite Hrun. unfold g1. rewrite handle_running, Hq.
    now rewrite andb_false_r. }
  exists g2. split; [|split; [exact Hstop|]].
  - intros frames. rewrite (main_loop_S frames g w Hr).
    fold g1. rewrite E. now apply main_loop_stopped.
  - unfold g1 in Hus at 2. now rewrite handle_units in Hus.
Qed.

(** Once the loop has stopped within [n] frames, looking at more frames
    gives the same game and the same world. *)
Lemma main_loop_more_frames (n : nat) :
  forall (m : nat) (g g' : Game.t) (w w' : World),
    main_loop n g w = Ok (g', w') ->
    Game.running g' = false ->
    (n <= m)%nat ->
    main_loop m g w = Ok (g', w').
Proof.
  induction n as [|n IH]; intros m g g' w w' E Hstop Hnm.
  - rewrite main_loop_O in E. injection E as <- <-.
    now apply main_loop_stopped.
  - destruct m as [|m]; [lia|].
    destruct (Game.running g) eqn:Hr.
    + rewrite (main_loop_S n g w Hr) in E.
      rewrite (main_loop_S m g w Hr).
      destruct (Game.update _) as [g2|f]; [|discriminate].
      apply (IH m g2 g' _ w' E Hstop). lia.
    + rewrite (main_loop_stopped _ g w Hr) in E.
      now rewrite (main_loop_stopped _ g w Hr).
Qed.

End Loop.

Lemma main_loop_keeps_witness :
  exists g' w',
    main_loop (H := libm_stub) (H0 := host_stub) 3 game_stub (mkWorld 40 10 0)
      = Ok (g', w')
    /\ length (Game.units g') = 5%nat
    /\ rd_calls w' = 40%nat /\ rand_calls w' = 10%nat
    /\ (0 <= polls w' <= 3)%nat.
Proof.
  destruct (main_loop_ok (L := libm_stub) (H := host_stub) 3 game_stub
              (mkWorld 40 10 0) eq_refl) as (g' & w' & E & _).
  exists g', w'. split; [exact E|].
  destruct (main_loop_keeps (L := libm_stub) (H := host_stub) 3 game_stub g'
              (mkWorld 40 10 0) w' E)
    as (K1 & _ & _ & _ & _ & _ & K7 & K8 & K9).
  repeat split; try assumption; simpl in K9; lia.
Defined.

Lemma close_frame_is_last_witness :
  exists g',
    (forall frames,
       main_loop (H := libm_stub) (H0 := host_stub) (S frames)
                 game_stub (mkWorld 40 10 3)
       = Ok (g', mkWorld 40 10 4))
    /\ Game.running g' = false.
Proof.
  destruct (close_frame_is_last (L := libm_stub) (H := host_stub)
              game_stub (mkWorld 40 10 3) eq_refl eq_refl eq_refl)
    as (g' & Hall & Hstop & _).
  exists g'. split; assumption.
Defined.


(** ** Drawing *)

Section Drawing.

Lemma drawn_boxes_app (a b : list SDL_Call) :
  drawn_boxes (a ++ b) = drawn_boxes a ++ drawn_boxes b.
Proof.
  induction a as [|c a IH]; [reflexivity|].
  destruct c; simpl; now rewrite ?IH.
Qed.

Lemma render_units_boxes (r : option handle) (us : list Unit.t) :
  drawn_boxes (render_units r us) = map Unit.rect us
  /\ existsb null_texture_call (render_units r us) = false
  /\ existsb is_clear_or_present (render_units r us) = false.
Proof.
  induction us as [|u us (IH1 & IH2 & IH3)]; [repeat split|].
  simpl. rewrite drawn_boxes_app, !existsb_app, IH1, IH2, IH3.
  unfold Unit_render. destruct (Unit.texture u); repeat split.
Qed.

(** One frame of [Game::render] clears to black first and presents
    last, with no other clear or present in between; what it draws in
    between is the target's box and then the box of every unit, each
    exactly once and in the order of the collection; and it never
    hands SDL a null texture, whichever images are missing. *)
Theorem render_draws_every_unit_once (g : Game.t) :
  exists middle,
    Game_render g
    = [SDL_SetRenderDrawColor (Game.renderer g) 0 0 0 255;
       SDL_RenderClear (Game.renderer g)]
      ++ middle ++ [SDL_RenderPresent (Game.renderer g)]
    /\ existsb is_clear_or_present middle = false
    /\ drawn_boxes middle = target_box g :: map Unit.rect (Game.units g)
    /\ drawn_boxes (Game_render g)
       = target_box g :: map Unit.rect (Game.units g)
    /\ existsb null_texture_call (Game_render g) = false.
Proof.
  destruct (render_units_boxes (Game.renderer g) (Game.units g))
    as (Hb & Hn & Hc).
  unfold Game_render, target_box.
  destruct (Game.targetTexture g) as [t|].
  - exists ([SDL_RenderCopy (Game.renderer g) (Some t)
               (SDL_Rect.mk (SDL_Point.x (Game.target g) - 20)
                            (SDL_Point.y (Game.target g) - 20) 40 40)]
            ++ render_units (Game.renderer g) (Game.units g)).
    split; [reflexivity|].
    cbn [app existsb drawn_boxes is_clear_or_present null_texture_call orb].
    rewrite !existsb_app, !drawn_boxes_app, Hb, Hn, Hc.
    repeat split; simpl; now rewrite ?app_nil_r.
  - exists ([SDL_SetRenderDrawColor (Game.renderer g) 255 0 0 255;
             SDL_RenderFillRect (Game.renderer g)
               (SDL_Rect.mk (SDL_Point.x (Game.target g) - 5)
                            (SDL_Point.y (Game.target g) - 5) 10 10)]
            ++ render_units (Game.renderer g) (Game.units g)).
    split; [reflexivity|].
    cbn [app existsb drawn_boxes is_clear_or_present null_texture_call orb].
    rewrite !existsb_app, !drawn_boxes_app, Hb, Hn, Hc.
    repeat split; simpl; now rewrite ?app_nil_r.
Qed.

Lemma render_units_fills (r : option handle) (us : list Unit.t) :
  forall current,
    fills current (render_units r us ++ [SDL_RenderPresent r])
    = map (fun u => (green, Unit.rect u)) (filter without_texture us).
Proof.
  induction us as [|u us IH]; intros current; [reflexivity|].
  simpl. unfold Unit_render, without_texture, has_texture.
  destruct (Unit.texture u); simpl; now rewrite IH.
Qed.

(** The rectangles that one frame fills, with the colour in force for
    each: the 10x10 red dot if the target has no texture, and for
    every unit without a texture its own box in green; a unit with a
    texture is not filled.  The colour left by an earlier frame plays
    no part. *)
Theorem fallback_boxes_are_green (g : Game.t) (current : colour) :
  fills current (Game_render g)
  = match Game.targetTexture g with
    | Some _ => []
    | None => [(red, target_box g)]
    end
    ++ map (fun u => (green, Unit.rect u))
           (filter without_texture (Game.units g)).
Proof.
  unfold Game_render, target_box.
  destruct (Game.targetTexture g); simpl; now rewrite render_units_fills.
Qed.

(** ** Teardown *)

Lemma destroy_units_eq (us : list Unit.t) :
  destroy_units us = map texture_release (filter has_texture us).
Proof.
  induction us as [|u us IH]; [reflexivity|].
  cbn [destroy_units filter]. unfold Unit_destructor.
  unfold has_texture at 1.
  destruct (Unit.texture u) as [t|] eqn:Et; cbn [map app]; rewrite IH;
    [|reflexivity].
  f_equal. unfold texture_release. now rewrite Et.
Qed.

(** After the loop, [clean] destroys the target's texture if there is
    one, then the renderer, then the window, and calls [SDL_Quit];
    only afterwards, when [game] leaves scope, is the texture of each
    unit that has one destroyed.  Every texture held is destroyed
    exactly once and no null texture is passed. *)
Theorem teardown_order (g : Game.t) :
  main_teardown g
  = match Game.targetTexture g with
    | Some _ => [SDL_DestroyTexture (Game.targetTexture g)]
    | None => []
    end
    ++ [SDL_DestroyRenderer (Game.renderer g);
        SDL_DestroyWindow (Game.window g);
        SDL_Quit]
    ++ map texture_release (filter has_texture (Game.units g))
  /\ length (filter is_destroy_texture (main_teardown g))
     = (match Game.targetTexture g with Some _ => 1 | None => 0 end
        + length (filter has_texture (Game.units g)))%nat
  /\ existsb null_texture_call (main_teardown g) = false.
Proof.
  unfold main_teardown, Game_clean. rewrite destroy_units_eq.
  assert (Hu : forall us,
             filter is_destroy_texture
               (map texture_release (filter has_texture us))
             = map texture_release (filter has_texture us)
             /\ existsb null_texture_call
                  (map texture_release (filter has_texture us)) = false).
  { induction us as [|u us (IH1 & IH2)]; [split; reflexivity|].
    cbn [filter]. destruct (has_texture u) eqn:Eh; [|now split].
    unfold has_texture in Eh.
    destruct (Unit.texture u) as [t|] eqn:Et; [|discriminate].
    assert (Er : texture_release u = SDL_DestroyTexture (Some t))
      by (unfold texture_release; now rewrite Et).
    cbn [map filter existsb]. rewrite Er.
    cbn [is_destroy_texture null_texture_call orb].
    rewrite IH1, IH2. now split. }
  destruct (Hu (Game.units g)) as (Hf & Hn).
  split; [now rewrite <- app_assoc|].
  destruct (Game.targetTexture g) as [t|]; simpl;
    rewrite Hf, Hn, length_map; repeat split.
Qed.

End Drawing.

(** With no image file found, [host_stub]'s first frame fills the red
    dot around (400, 300) and the five boxes of the units in green. *)
Example first_frame_of_host_stub :
  fills (0, 0, 0, 0) (Game_render game_stub)
  = (red, SDL_Rect.mk 395 295 10 10)
    :: map (fun u => (green, Unit.rect u)) (Game.units game_stub)
  /\ map Unit.rect (Game.units game_stub)
     = [SDL_Rect.mk 345 390 40 40; SDL_Rect.mk 435 480 40 40;
        SDL_Rect.mk 525 570 40 40; SDL_Rect.mk 615 60 40 40;
        SDL_Rect.mk 705 150 40 40].
Proof. split; vm_compute; reflexivity. Qed.

(** ** The bounds test and the box *)

Section Bounds.

Context `{L : LibM}.

(** The bounds test leaves a coordinate inside the field exactly as it
    was integrated, lets a NaN through unchanged, and applying it a
    second time changes nothing. *)
Theorem clamp_idempotent (limit : Z) (v : float) :
  F32.ltb (F32.of_int 0) (F32.of_int limit) = true ->
  F32.is_nan (F32.of_int limit) = false ->
  Unit.clamp limit (Unit.clamp limit v) = Unit.clamp limit v
  /\ (F32.ltb v (F32.of_int 0) = false ->
      F32.ltb (F32.of_int limit) v = false -> Unit.clamp limit v = v)
  /\ Unit.clamp limit S754_nan = S754_nan.
Proof.
  intros Hpos Hnum.
  destruct (clamp_spec limit v Hpos Hnum) as (H1 & H2 & _ & _ & Hin & _).
  destruct (clamp_spec limit (Unit.clamp limit v) Hpos Hnum)
    as (_ & _ & _ & _ & Hin' & _).
  split; [exact (Hin' H1 H2)|]. split; [exact Hin|].
  destruct (clamp_spec limit S754_nan Hpos Hnum) as (_ & _ & _ & _ & Hnan & _).
  apply Hnan; [reflexivity|].
  unfold F32.ltb, SFltb. now destruct (F32.of_int limit).
Qed.

Lemma digits2_pos_gt (m : positive) : Zpos m < 2 ^ Zpos (digits2_pos m).
Proof.
  induction m as [m IH|m IH|]; simpl digits2_pos;
    rewrite ?Pos2Z.inj_succ, ?Z.pow_succ_r by lia; lia.
Qed.

(** A number of at most 24 bits that is neither below 0 nor above an
    integer bound truncates to an integer between 0 and that bound. *)
Lemma to_int_under32 (M : positive) (v : float) :
  2 ^ 23 <= Zpos M < 2 ^ 24 ->
  binary32 v = true ->
  F32.is_nan v = false ->
  F32.ltb v (S754_zero false) = false ->
  F32.ltb (S754_finite false M (-14)) v = false ->
  0 <= F32.to_int v <= Zpos M / 2 ^ 14.
Proof.
  intros HM Hvalid Hnum Hlow Hhigh.
  assert (Hlim : 512 <= Zpos M / 2 ^ 14).
  { apply Z.div_le_lower_bound; lia. }
  destruct v as [s|s| |s m e]; try discriminate.
  - simpl. lia.
  - destruct s; [discriminate|].
    pose proof (digits2_pos_gt m) as Hdig.
    assert (Hd : Zpos (digits2_pos m) <= 24)
      by (apply Z.leb_le; exact Hvalid).
    assert (Hm : Zpos m < 2 ^ 24).
    { eapply Z.lt_le_trans; [exact Hdig|].
      apply Z.pow_le_mono_r; lia. }
    unfold F32.ltb, SFltb, SFcompare in Hhigh.
    assert (Hmag : e < 0 /\ 0 <= Z.shiftr (Zpos m) (- e) <= Zpos M / 2 ^ 14).
    { destruct (Z.compare_spec (-14) e) as [He|He|He]; try discriminate.
      - subst e. split; [lia|].
        rewrite Z.shiftr_div_pow2 by lia.
        change (- -14) with 14. split; [apply Z.div_pos; lia|].
        apply Z.div_le_mono; [lia|].
        destruct (Pos.compare_cont Eq M m) eqn:Ec; try discriminate.
        + apply Pos.compare_eq in Ec. subst. lia.
        + change (Pos.compare_cont Eq M m) with (Pos.compare M m) in Ec.
          apply Pos.compare_gt_iff in Ec. lia.
      - split; [lia|].
        rewrite Z.shiftr_div_pow2 by lia.
        split; [apply Z.div_pos; [lia|apply Z.pow_pos_nonneg; lia]|].
        assert (Hp : 2 ^ 15 <= 2 ^ (- e)) by (apply Z.pow_le_mono_r; lia).
        assert (Zpos m / 2 ^ (- e) < 512); [|lia].
        apply Z.div_lt_upper_bound; [apply Z.pow_pos_nonneg; lia|].
        change (2 ^ 24) with (2 ^ 15 * 512) in Hm. nia. }
    destruct Hmag as (Hneg & Hlo & Hhi).
    unfold F32.to_int. destruct e as [|p|p]; try lia.
    change (Z.shiftr (Zpos m) (Zpos p))
      with (Z.shiftr (Zpos m) (- Zneg p)).
    assert (Hint : Zpos M / 2 ^ 14 < 2 ^ 10).
    { apply Z.div_lt_upper_bound; lia. }
    unfold F32.INT_MIN, F32.INT_MAX.
    destruct ((- 2 ^ 31 <=? Z.shiftr (Zpos m) (- Zneg p))
              && (Z.shiftr (Zpos m) (- Zneg p) <=? 2 ^ 31 - 1)) eqn:Er;
      [lia|].
    apply andb_false_iff in Er as [Er|Er];
      [apply Z.leb_gt in Er|apply Z.leb_gt in Er]; lia.
Qed.

(** A valid number that is neither below 0 nor above an integer bound
    truncates to an integer between 0 and that bound. *)
Lemma to_int_under (M : positive) (v : float) :
  2 ^ 23 <= Zpos M < 2 ^ 24 ->
  valid_binary F32.prec F32.emax v = true ->
  F32.is_nan v = false ->
  F32.ltb v (S754_zero false) = false ->
  F32.ltb (S754_finite false M (-14)) v = false ->
  0 <= F32.to_int v <= Zpos M / 2 ^ 14.
Proof.
  intros HM Hvalid Hnum Hlow Hhigh.
  destruct v as [s|s| |s m e]; try discriminate.
  - apply to_int_under32; auto.
  - destruct s; discriminate.
  - apply to_int_under32; auto.
    unfold valid_binary, bounded, canonical_mantissa, fexp, emin in Hvalid.
    apply andb_true_iff in Hvalid as [Hcanon _].
    apply Z.eqb_eq in Hcanon.
    cbn [binary32]. apply Z.leb_le.
    unfold F32.prec, F32.emax in Hcanon. lia.
Qed.

(** After [update] the box is still 40x40 and, whenever the new
    position is a valid binary32 number, it lies inside the 800x600
    window: its corner is at the truncated position, between 0 and 760
    across and between 0 and 560 down. *)
Theorem box_stays_in_window (target : SDL_Point.t) (u u' : Unit.t) :
  Unit_wf u = true ->
  Unit.update target u = Ok u' ->
  F32.is_nan (Unit.x u') = false ->
  F32.is_nan (Unit.y u') = false ->
  valid_binary F32.prec F32.emax (Unit.x u') = true ->
  valid_binary F32.prec F32.emax (Unit.y u') = true ->
  SDL_Rect.x (Unit.rect u') = F32.to_int (Unit.x u')
  /\ SDL_Rect.y (Unit.rect u') = F32.to_int (Unit.y u')
  /\ SDL_Rect.w (Unit.rect u') = 40 /\ SDL_Rect.h (Unit.rect u') = 40
  /\ 0 <= SDL_Rect.x (Unit.rect u')
  /\ SDL_Rect.x (Unit.rect u') + SDL_Rect.w (Unit.rect u') <= 800
  /\ 0 <= SDL_Rect.y (Unit.rect u')
  /\ SDL_Rect.y (Unit.rect u') + SDL_Rect.h (Unit.rect u') <= 600.
Proof.
  intros Hwf E Hnx Hny Hvx Hvy.
  destruct (Unit_wf_elim u Hwf) as (Hw & Hh & _).
  destruct (update_inv target u u' E) as (o0 & o1 & more & _ & ->).
  unfold updated in *.
  cbn [Unit.x Unit.y Unit.rect SDL_Rect.x SDL_Rect.y SDL_Rect.w SDL_Rect.h]
    in *.
  rewrite Hw, Hh in *.
  change (800 - 40) with 760 in *. change (600 - 40) with 560 in *.
  destruct (clamp_spec 760 (Unit.raw_x u o0 o1) eq_refl eq_refl)
    as (X1 & X2 & _).
  destruct (clamp_spec 560 (Unit.raw_y u o0 o1) eq_refl eq_refl)
    as (Y1 & Y2 & _).
  pose proof (to_int_under 12451840 _ ltac:(lia) Hvx Hnx X1 X2) as Hx.
  pose proof (to_int_under 9175040 _ ltac:(lia) Hvy Hny Y1 Y2) as Hy.
  change (Z.pos 12451840 / 2 ^ 14) with 760 in Hx.
  change (Z.pos 9175040 / 2 ^ 14) with 560 in Hy.
  repeat split; lia.
Qed.

End Bounds.

Lemma clamp_idempotent_witness :
  Unit.clamp 760 (Unit.clamp 760 (F32.of_int 900))
    = Unit.clamp 760 (F32.of_int 900)
  /\ Unit.clamp 760 (F32.of_int 300) = F32.of_int 300
  /\ Unit.clamp 760 S754_nan = S754_nan.
Proof.
  destruct (clamp_idempotent 760 (F32.of_int 900) eq_refl eq_refl)
    as (Hidem & _ & Hnan).
  destruct (clamp_idempotent 760 (F32.of_int 300) eq_refl eq_refl)
    as (_ & Hin & _).
  split; [exact Hidem|]. split; [apply Hin; reflexivity|exact Hnan].
Defined.

Lemma box_stays_in_window_witness :
  Unit.rect unit_stub_updated = SDL_Rect.mk 528 560 40 40
  /\ SDL_Rect.x (Unit.rect unit_stub_updated)
     + SDL_Rect.w (Unit.rect unit_stub_updated) <= 800
  /\ SDL_Rect.y (Unit.rect unit_stub_updated)
     + SDL_Rect.h (Unit.rect unit_stub_updated) <= 600.
Proof.
  split; [vm_compute; reflexivity|].
  assert (E : Unit.update (H := libm_stub) (SDL_Point.mk 400 300) unit_stub
              = Ok unit_stub_updated) by (vm_compute; reflexivity).
  destruct (box_stays_in_window (L := libm_stub) (SDL_Point.mk 400 300)
              unit_stub unit_stub_updated eq_refl E
              eq_refl eq_refl eq_refl eq_refl)
    as (_ & _ & _ & _ & _ & Hx & _ & Hy).
  split; assumption.
Defined.

(** ** A network without bias *)

Section ZeroInput.

Context `{L : LibM} `{H : Host}.

Lemma in_unit_interval_finite (v : float) :
  in_unit_interval v = true -> finite_or_zero v = true.
Proof.
  destruct v as [s|s| |s m e]; try reflexivity.
  - destruct s; discriminate.
  - discriminate.
Qed.

Lemma mac_zero (input w : float) :
  is_zero input = true -> finite_or_zero w = true ->
  mac F32.zero (input, w) = F32.zero.
Proof.
  destruct input as [s| | |]; try discriminate.
  destruct w as [s'| | |s' m e]; try discriminate; intros _ _;
    destruct s, s'; reflexivity.
Qed.

Lemma accumulate_zero (ws : list float) :
  forallb finite_or_zero ws = true ->
  forall (rest : list float) (i : nat),
    forallb is_zero rest = true ->
    (i + length rest <= length ws)%nat ->
    Neuron.accumulate ws i rest F32.zero = Ok F32.zero.
Proof.
  intros Hws. rewrite forallb_forall in Hws.
  induction rest as [|input rest IH]; intros i Hz Hlen; [reflexivity|].
  simpl in Hz, Hlen. apply andb_true_iff in Hz as [Hi Hz].
  cbn [Neuron.accumulate].
  destruct (nth_error ws i) as [w|] eqn:E.
  - pose proof (mac_zero input w Hi (Hws w (nth_error_In ws i E))) as Hmac.
    unfold mac in Hmac. simpl fst in Hmac. simpl snd in Hmac.
    rewrite Hmac. apply IH; [exact Hz|lia].
  - apply nth_error_None in E. lia.
Qed.

Lemma layer_outputs_zero (layer : list Neuron.t) (inputs : list float) :
  tanh F32.zero = F32.zero ->
  forallb is_zero inputs = true ->
  Forall plain_neuron layer ->
  forallb (fun n => (length (Neuron.weights n) =? length inputs)%nat) layer
    = true ->
  NeuralNetwork.layer_outputs layer inputs
  = Ok (repeat F32.zero (length layer)).
Proof.
  intros Htanh Hz. induction 1 as [|n layer (Hb & Hw) _ IH]; simpl;
    [reflexivity|].
  intros Hlen. apply andb_true_iff in Hlen as [Hn Hlen].
  apply Nat.eqb_eq in Hn.
  unfold Neuron.activate. rewrite Hb.
  rewrite (accumulate_zero _ Hw inputs 0 Hz) by lia.
  simpl. rewrite (IH Hlen), Htanh. reflexivity.
Qed.

Lemma repeat_zero_is_zero (n : nat) :
  forallb is_zero (repeat F32.zero n) = true.
Proof. induction n; simpl; auto. Qed.

Lemma feed_zero (sizes : list nat) :
  forall (ls : list (list Neuron.t)) (inputs : list float),
    tanh F32.zero = F32.zero ->
    forallb is_zero inputs = true ->
    Forall (Forall plain_neuron) ls ->
    has_shape (length inputs) sizes ls = true ->
    sizes <> [] ->
    NeuralNetwork.feed ls inputs = Ok (repeat F32.zero (last sizes 0%nat)).
Proof.
  induction sizes as [|size sizes IH]; intros [|layer ls] inputs Htanh Hz
    Hplain Hshape Hne; simpl in Hshape; try discriminate; [congruence|].
  apply andb_true_iff in Hshape as [Hs Hrest].
  apply andb_true_iff in Hs as [Hlen Hws].
  apply Nat.eqb_eq in Hlen.
  inversion Hplain as [|? ? Hlayer Hls]; subst.
  cbn [NeuralNetwork.feed].
  rewrite (layer_outputs_zero layer inputs Htanh Hz Hlayer Hws). simpl bindR.
  destruct sizes as [|size' sizes'].
  - destruct ls; [reflexivity|discriminate].
  - rewrite (IH ls (repeat F32.zero (length layer)) Htanh
               (repeat_zero_is_zero _) Hls);
      [|now rewrite repeat_length|discriminate].
    reflexivity.
Qed.

Lemma drawn_layers_plain (rest : list Z) :
  (forall seed k, in_unit_interval (uniform_draw seed k) = true) ->
  forall (numInputs : Z) (call : nat),
    Forall (Forall plain_neuron) (drawn_layers numInputs call rest).
Proof.
  intros Hdist. induction rest as [|size rest IH]; intros numInputs call;
    simpl; constructor; [|apply IH].
  unfold drawn_layer. apply Forall_forall. intros n Hn.
  apply in_map_iff in Hn as (k & <- & _).
  split; [reflexivity|]. simpl. apply forallb_forall. intros wt Hin.
  apply in_map_iff in Hin as (j & <- & _).
  apply in_unit_interval_finite, Hdist.
Qed.

(** Because every bias is zero, a constructed network answers an input
    vector of zeros (of either sign) with a vector of positive zeros,
    provided the weights drawn are numbers of [-1, 1] and the C
    library's [tanh] maps +0 to +0. *)
Theorem zero_input_zero_output (first second : Z) (rest : list Z)
    (w : World) (inputs : list float) :
  Forall (fun size => 0 < size) (first :: second :: rest) ->
  (forall seed k, in_unit_interval (uniform_draw seed k) = true) ->
  tanh F32.zero = F32.zero ->
  length inputs = Z.to_nat first ->
  forallb is_zero inputs = true ->
  exists net w',
    NeuralNetwork.new (first :: second :: rest) w = Ok (net, w')
    /\ NeuralNetwork.feedForward net inputs
       = Ok (repeat F32.zero (Z.to_nat (last rest second))).
Proof.
  intros Hpos Hdist Htanh Hlen Hz.
  inversion Hpos as [|? ? Hfirst Hrest]; subst.
  assert (Hnn : Forall (fun size => 0 <= size) (second :: rest))
    by (eapply Forall_impl; [|exact Hrest]; simpl; intros; lia).
  eexists _, _.
  split; [exact (NeuralNetwork_new_eq first (second :: rest) w
                   ltac:(lia) Hnn)|].
  unfold NeuralNetwork.feedForward. cbn [NeuralNetwork.layers].
  pose proof (fresh_layers_shape (second :: rest) first _
                (drawn_layers_fresh (second :: rest) first (rd_calls w)))
    as Hshape.
  rewrite <- Hlen in Hshape.
  rewrite (feed_zero _ _ inputs Htanh Hz
             (drawn_layers_plain (second :: rest) Hdist first (rd_calls w))
             Hshape); [|discriminate].
  f_equal. f_equal.
  change (map Z.to_nat (second :: rest))
    with (Z.to_nat second :: map Z.to_nat rest).
  rewrite (last_cons_default (map Z.to_nat rest) (Z.to_nat second) 0%nat
             (Z.to_nat second)).
  destruct rest as [|third rest']; [reflexivity|].
  change (last (Z.to_nat second :: map Z.to_nat (third :: rest'))
               (Z.to_nat second))
    with (last (map Z.to_nat (third :: rest')) (Z.to_nat second)).
  apply last_of_map.
Qed.

End ZeroInput.

Lemma zero_input_zero_output_witness :
  exists net w',
    NeuralNetwork.new (H := host_stub) [4; 6; 2] world0 = Ok (net, w')
    /\ NeuralNetwork.feedForward (H := libm_stub) net
         [S754_zero false; S754_zero true; S754_zero false; S754_zero true]
       = Ok [F32.zero; F32.zero].
Proof.
  apply (zero_input_zero_output (L := libm_stub) (H := host_stub)
           4 6 [2] world0).
  - repeat constructor.
  - exact host_stub_draws.
  - reflexivity.
  - reflexivity.
  - reflexivity.
Defined.

(** ** What a run leaves open *)

Section Resources.

Context `{L : LibM} `{H : Host}.

Lemma ledger_eq (l : Ledger) (up : bool) (a b c d : Z) :
  up = sdl_up l -> a = windows l -> b = renderers l -> c = surfaces l ->
  d = textures l -> mkLedger up a b c d = l.
Proof. destruct l; simpl; intros; subst; reflexivity. Qed.

Lemma account_load (r : option handle) (path text : string) (l : Ledger) :
  fold_left account (load_calls r path text) l
  = mkLedger (sdl_up l) (windows l) (renderers l) (surfaces l)
             (textures l + texture_count (loaded_texture path)).
Proof.
  unfold load_calls, loaded_texture, texture_count.
  destruct l as [up a b c d].
  destruct (SDL_LoadBMP path) as [surface|]; simpl.
  - destruct (SDL_CreateTextureFromSurface surface); simpl; f_equal; lia.
  - f_equal; lia.
Qed.

Lemma account_spawn (count : nat) (r : option handle) :
  forall l,
    fold_left account (spawn_calls count r) l
    = mkLedger (sdl_up l) (windows l) (renderers l) (surfaces l)
               (textures l
                + Z.of_nat count
                  * texture_count (loaded_texture "cat_unit.bmp")).
Proof.
  induction count as [|count IH]; intros l.
  - simpl. symmetry. apply ledger_eq; try reflexivity; lia.
  - cbn [spawn_calls]. rewrite fold_left_app, account_load, IH.
    cbn [sdl_up windows renderers surfaces textures].
    rewrite Nat2Z.inj_succ. f_equal. lia.
Qed.

Lemma account_render_units (r : option handle) (us : list Unit.t) :
  forall l, fold_left account (render_units r us) l = l.
Proof.
  induction us as [|u us IH]; intros l; [reflexivity|].
  simpl. rewrite fold_left_app, IH. unfold Unit_render.
  destruct (Unit.texture u); reflexivity.
Qed.

Lemma account_frame (g : Game.t) (l : Ledger) :
  fold_left account (frame_calls g) l = l.
Proof.
  unfold frame_calls, Game_render.
  rewrite !fold_left_app, account_render_units.
  destruct (Game.targetTexture g); reflexivity.
Qed.

Lemma account_frames (shown : list Game.t) :
  forall l, fold_left account (flat_map frame_calls shown) l = l.
Proof.
  induction shown as [|g shown IH]; intros l; [reflexivity|].
  cbn [flat_map]. now rewrite fold_left_app, account_frame.
Qed.

Lemma account_destroy_units (us : list Unit.t) :
  forall l,
    fold_left account (destroy_units us) l
    = mkLedger (sdl_up l) (windows l) (renderers l) (surfaces l)
               (textures l - Z.of_nat (length (filter has_texture us))).
Proof.
  induction us as [|u us IH]; intros l.
  - simpl. symmetry. apply ledger_eq; try reflexivity; lia.
  - cbn [destroy_units filter]. rewrite fold_left_app, IH.
    unfold Unit_destructor.
    destruct l as [up a b c d].
    destruct (has_texture u) eqn:Eh; unfold has_texture in Eh;
      destruct (Unit.texture u); try discriminate;
      cbn [fold_left account sdl_up windows renderers surfaces textures
           length];
      rewrite ?Nat2Z.inj_succ; f_equal; lia.
Qed.

(** Whichever way [main] ends, every creation that succeeded has been
    answered by one release: when a startup step fails, what was
    created before it is released again before [main] returns -1; and
    after a run that stops, the calls of [init], of any frames drawn
    and of the teardown leave no window, renderer, surface or texture
    open and SDL shut down. *)
Theorem run_leaves_nothing_open (frames : nat) (w w0 w1 : World) (b : bool)
    (g0 g : Game.t) (shown : list Game.t) :
  Game.init Game.new w = Ok ((b, g0), w0) ->
  main_loop frames g0 w0 = Ok (g, w1) ->
  fold_left account (main_calls shown g) nothing_open = nothing_open.
Proof.
  intros Einit Eloop. unfold main_calls. rewrite fold_left_app.
  destruct setup_ok eqn:Hs.
  - rewrite (init_eq w Hs) in Einit.
    injection Einit as _ <- _.
    destruct (main_loop_preserves frames _ g _ w1 Eloop)
      as (_ & Htex & _ & Hwin & Hren & Htt & _).
    cbn [Game.units Game.window Game.renderer Game.targetTexture] in *.
    unfold setup_ok in Hs.
    apply andb_true_iff in Hs as [Hs Hr].
    apply andb_true_iff in Hs as [Hi Hw].
    unfold Game_init_calls.
    apply Z.leb_le in Hi.
    destruct (SDL_Init <? 0) eqn:Ei; [apply Z.ltb_lt in Ei; lia|].
    destruct SDL_CreateWindow as [win|]; [|discriminate].
    destruct SDL_CreateRenderer as [ren|]; [|discriminate].
    rewrite fold_left_app, account_frames.
    unfold main_teardown, Game_clean.
    rewrite !fold_left_app, account_destroy_units.
    assert (Hcount : Z.of_nat (length (filter has_texture (Game.units g)))
                     = 5 * texture_count (loaded_texture "cat_unit.bmp")).
    { assert (Hl : length (filter has_texture (Game.units g))
                   = length (filter (fun t => match t with
                                              | Some _ => true
                                              | None => false
                                              end)
                                    (map Unit.texture (Game.units g)))).
      { clear. induction (Game.units g) as [|u us IH]; [reflexivity|].
        simpl. unfold has_texture at 1.
        destruct (Unit.texture u); simpl; now rewrite IH. }
      rewrite Hl, Htex. cbn [map seq initial_unit Unit.texture].
      destruct (loaded_texture "cat_unit.bmp"); reflexivity. }
    rewrite Hcount, Hwin, Hren, Htt.
    cbn [fold_left account].
    rewrite Ei. rewrite fold_left_app, account_load, account_spawn.
    destruct (loaded_texture "cat_target.bmp") as [t|];
      destruct (loaded_texture "cat_unit.bmp") as [t'|]; reflexivity.
  - unfold Game_init_calls, setup_ok in *.
    destruct (SDL_Init <? 0) eqn:Ei; simpl; rewrite Ei.
    + reflexivity.
    + destruct SDL_CreateWindow as [win|]; [|reflexivity].
      destruct SDL_CreateRenderer as [ren|]; [|reflexivity].
      apply Z.ltb_ge in Ei. apply Z.leb_le in Ei.
      rewrite Ei in Hs. discriminate.
Qed.

End Resources.

Lemma run_leaves_nothing_open_witness :
  exists g w1,
    main_loop (H := libm_stub) (H0 := host_stub) 4 game_stub (mkWorld 40 10 0)
      = Ok (g, w1)
    /\ fold_left account (main_calls (H := host_stub) [game_stub; g] g)
                 nothing_open
       = nothing_open.
Proof.
  destruct (main_loop_ok (L := libm_stub) (H := host_stub) 4 game_stub
              (mkWorld 40 10 0) eq_refl) as (g & w1 & E & _).
  exists g, w1. split; [exact E|].
  apply (run_leaves_nothing_open (L := libm_stub) (H := host_stub)
           4 world0 (mkWorld 40 10 0) w1 true game_stub g).
  - vm_compute. reflexivity.
  - exact E.
Defined.

(** ** The target over the frames *)

Section TargetOverFrames.

Context `{L : LibM} `{H : Host}.

Lemma handle_target_last_press (events : list SDL_Event) :
  forall g,
    Game.target (fold_left Game.handleEvent events g)
    = last_press events (Game.target g).
Proof.
  unfold last_press.
  induction events as [|e events IH]; intros g; [reflexivity|].
  simpl. rewrite IH. destruct e; reflexivity.
Qed.

Lemma last_press_app (a b : list SDL_Event) (t : SDL_Point.t) :
  last_press (a ++ b) t = last_press b (last_press a t).
Proof. apply fold_left_app. Qed.

(** At any point of the loop the target is where the most recent press
    among all the events polled so far left it, or still the initial
    one if there was no press; and while the game is still running the
    loop has polled the queue exactly once per frame. *)
Theorem target_is_latest_press (frames : nat) :
  forall (g g' : Game.t) (w w' : World),
    main_loop frames g w = Ok (g', w') ->
    Game.target g'
    = last_press (polled (polls w) (polls w' - polls w)) (Game.target g)
    /\ (Game.running g' = true -> polls w' = (polls w + frames)%nat).
Proof.
  induction frames as [|frames IH]; intros g g' w w'.
  - rewrite main_loop_O. intros [= <- <-].
    rewrite Nat.sub_diag. split; [reflexivity|lia].
  - destruct (Game.running g) eqn:Hr.
    + rewrite (main_loop_S frames g w Hr).
      destruct (Game.update _) as [g2|f] eqn:E; [|discriminate].
      intros Hloop.
      destruct (IH g2 g' _ w' Hloop) as (Ht & Hp).
      destruct (main_loop_preserves frames g2 g' _ w' Hloop)
        as (_ & _ & _ & _ & _ & _ & _ & _ & Hpolls).
      destruct (Game_update_inv _ g2 E) as (Ht2 & _ & _).
      simpl polls in Ht, Hp, Hpolls.
      split.
      * rewrite Ht, Ht2, handle_target_last_press.
        replace (polls w' - polls w)%nat
          with (S (polls w' - S (polls w))) by lia.
        unfold polled. cbn [seq flat_map].
        now rewrite last_press_app.
      * intros Hrun. rewrite (Hp Hrun). lia.
    + rewrite (main_loop_stopped _ g w Hr). intros [= <- <-].
      rewrite Nat.sub_diag. split; [reflexivity|congruence].
Qed.

End TargetOverFrames.

Lemma target_is_latest_press_witness :
  exists g' w',
    main_loop (H := libm_stub) (H0 := host_stub) 3 game_stub (mkWorld 40 10 0)
      = Ok (g', w')
    /\ Game.target g' = SDL_Point.mk 100 200
    /\ polls w' = 3%nat.
Proof.
  destruct (main_loop_ok (L := libm_stub) (H := host_stub) 3 game_stub
              (mkWorld 40 10 0) eq_refl) as (g' & w' & E & Hrun & _).
  exists g', w'. split; [exact E|].
  destruct (target_is_latest_press (L := libm_stub) (H := host_stub) 3
              game_stub g' (mkWorld 40 10 0) w' E) as (Ht & Hp).
  assert (Hw : polls w' = 3%nat) by (apply Hp; rewrite Hrun; reflexivity).
  split; [|exact Hw].
  rewrite Ht, Hw. reflexivity.
Defined.
(** ** The units stay in the field *)

Section Field.

Context `{L : LibM} `{H : Host}.

Lemma start_point_int (r1 r2 : Z) :
  is_int (fst (Game.start_point r1 r2)) = true
  /\ is_int (snd (Game.start_point r1 r2)) = true.
Proof.
  assert (Hrem : forall a b, 0 < b < 1000 -> is_int (Z.rem a b) = true).
  { intros a b Hb. unfold is_int, F32.INT_MIN, F32.INT_MAX.
    change (2 ^ 31) with 2147483648.
    pose proof (Z.rem_bound_abs a b ltac:(lia)).
    apply andb_true_iff; split; apply Z.leb_le; lia. }
  unfold Game.start_point.
  destruct arguments_right_to_left; cbn [fst snd]; split; apply Hrem; lia.
Qed.

Lemma initial_unit_reachable (rd0 rand0 k : nat) :
  reachable (initial_unit rd0 rand0 k).
Proof.
  destruct (start_point_int (c_rand (rand0 + 2 * k))
                            (c_rand (rand0 + 2 * k + 1))) as [Hx Hy].
  refine (reachable_new _ _ "cat_unit.bmp"
            (mkWorld (rd0 + 8 * k) 0 0) _ _ Hx Hy _).
  rewrite Unit_new_eq. reflexivity.
Qed.

Lemma init_reachable (w w0 : World) (g0 : Game.t) :
  Game.init Game.new w = Ok ((true, g0), w0) ->
  Forall reachable (Game.units g0)
  /\ Game.target g0 = SDL_Point.mk 400 300
  /\ Game.running g0 = true.
Proof.
  intros E. destruct setup_ok eqn:Hs.
  - rewrite (init_eq w Hs) in E. injection E as <- _.
    cbn [Game.units Game.target Game.running].
    split; [|split; reflexivity].
    repeat (apply Forall_cons; [apply initial_unit_reachable|]).
    apply Forall_nil.
  - destruct (init_fails Game.new w Hs) as (g' & E' & _).
    rewrite E' in E. discriminate.
Qed.

Lemma handle_target_int (events : list SDL_Event) :
  forall g : Game.t,
    forallb event_is_int events = true ->
    is_int (SDL_Point.x (Game.target g)) = true ->
    is_int (SDL_Point.y (Game.target g)) = true ->
    is_int (SDL_Point.x
              (Game.target (fold_left Game.handleEvent events g))) = true
    /\ is_int (SDL_Point.y
                 (Game.target (fold_left Game.handleEvent events g))) = true.
Proof.
  induction events as [|e events IH]; intros g Hev Hx Hy; [auto|].
  cbn [forallb] in Hev. apply andb_true_iff in Hev as [He Hev].
  cbn [fold_left]. apply IH; [exact Hev| |];
    destruct e as [|px py|]; cbn [Game.handleEvent Game.target event_is_int
                                   SDL_Point.x SDL_Point.y] in *;
    try assumption; apply andb_true_iff in He; tauto.
Qed.

(** One [update] of a unit that the program can hold leaves it in the
    field, with its box at the truncated position. *)
Lemma update_in_field (target : SDL_Point.t) (u u' : Unit.t) :
  libm_in_range L -> draws_in_range H ->
  reachable u ->
  is_int (SDL_Point.x target) = true -> is_int (SDL_Point.y target) = true ->
  Unit.update target u = Ok u' ->
  reachable u' /\ in_field u' = true /\ box_in_window u' = true.
Proof.
  intros HL Hd Hr Htx Hty E.
  pose proof (reachable_inv u HL Hd Hr) as Hu.
  destruct (update_keeps_inv target u HL Htx Hty Hu)
    as (o0 & o1 & Eo & Hrx & Hry & Hinv).
  pose proof (update_eq target u o0 o1 Eo) as Eu.
  split; [exact (reachable_update target u u' Hr Htx Hty E)|].
  rewrite Eu in E. injection E as <-.
  destruct (Unit_inv_elim _ Hinv) as (_ & _ & Hx & Hy & _).
  destruct (Unit_inv_elim u Hu) as (Hwf & _).
  destruct (Unit_wf_elim u Hwf) as (Hw & Hh & _).
  unfold in_field, box_in_window, updated in *.
  cbn [Unit.x Unit.y Unit.rect SDL_Rect.x SDL_Rect.y SDL_Rect.w SDL_Rect.h]
    in *.
  rewrite Hw, Hh in *.
  change (800 - 40) with 760 in *. change (600 - 40) with 560 in *.
  destruct (clamp_spec 760 (Unit.raw_x u o0 o1) eq_refl eq_refl)
    as (X3 & X4 & _ & _ & _ & X6).
  destruct (clamp_spec 560 (Unit.raw_y u o0 o1) eq_refl eq_refl)
    as (Y3 & Y4 & _ & _ & _ & Y6).
  destruct (X6 (within_number _ _ Hrx)) as [X1 X2].
  destruct (Y6 (within_number _ _ Hry)) as [Y1 Y2].
  split; [now rewrite X1, X2, Y1, Y2|].
  pose proof (to_int_under32 12451840 _ ltac:(lia)
                (within_binary32 _ _ Hx) (within_number _ _ Hx) X3 X4) as Bx.
  pose proof (to_int_under32 9175040 _ ltac:(lia)
                (within_binary32 _ _ Hy) (within_number _ _ Hy) Y3 Y4) as By.
  change (Z.pos 12451840 / 2 ^ 14) with 760 in Bx.
  change (Z.pos 9175040 / 2 ^ 14) with 560 in By.
  repeat (apply andb_true_iff; split); apply Z.leb_le; lia.
Qed.

Lemma updates_in_field (target : SDL_Point.t) (us us' : list Unit.t) :
  libm_in_range L -> draws_in_range H ->
  is_int (SDL_Point.x target) = true -> is_int (SDL_Point.y target) = true ->
  Forall reachable us ->
  Forall2 (fun u u' => Unit.update target u = Ok u') us us' ->
  Forall (fun u => reachable u /\ in_field u = true
                   /\ box_in_window u = true) us'.
Proof.
  intros HL Hd Htx Hty Hr Hus.
  induction Hus as [|u u' us us' E _ IH]; [constructor|].
  inversion Hr as [|? ? Hu Hr']; subst.
  constructor; [|exact (IH Hr')].
  exact (update_in_field target u u' HL Hd Hu Htx Hty E).
Qed.

Lemma main_loop_in_field (frames : nat) :
  forall (g g' : Game.t) (w w' : World),
    libm_in_range L -> draws_in_range H -> events_are_ints H ->
    Forall reachable (Game.units g) ->
    is_int (SDL_Point.x (Game.target g)) = true ->
    is_int (SDL_Point.y (Game.target g)) = true ->
    main_loop frames g w = Ok (g', w') ->
    Forall reachable (Game.units g')
    /\ (Forall (fun u => in_field u = true /\ box_in_window u = true)
               (Game.units g)
        \/ (frames <> 0%nat /\ Game.running g = true) ->
        Forall (fun u => in_field u = true /\ box_in_window u = true)
               (Game.units g')).
Proof.
  induction frames as [|frames IH]; intros g g' w w' HL Hd Hev Hr Htx Hty.
  - rewrite main_loop_O. intros [= <- <-]. split; [exact Hr|].
    intros [Hin|[Hne _]]; [exact Hin|congruence].
  - destruct (Game.running g) eqn:Hrun.
    + rewrite (main_loop_S frames g w Hrun).
      set (g1 := fold_left Game.handleEvent (SDL_PollEvent (polls w)) g).
      destruct (Game.update g1) as [g2|f] eqn:E; [|discriminate].
      intros Hloop.
      destruct (Game_update_inv g1 g2 E) as (Ht2 & _ & Hus).
      destruct (handle_target_int _ g (Hev (polls w)) Htx Hty) as [Htx1 Hty1].
      fold g1 in Htx1, Hty1.
      assert (Hr1 : Forall reachable (Game.units g1))
        by (unfold g1; rewrite handle_units; exact Hr).
      pose proof (updates_in_field _ _ _ HL Hd Htx1 Hty1 Hr1 Hus) as Hall.
      assert (Hr2 : Forall reachable (Game.units g2))
        by (eapply Forall_impl; [|exact Hall]; cbv beta; tauto).
      assert (Hin2 : Forall (fun u => in_field u = true
                                      /\ box_in_window u = true)
                            (Game.units g2))
        by (eapply Forall_impl; [|exact Hall]; cbv beta; tauto).
      rewrite <- Ht2 in Htx1, Hty1.
      destruct (IH g2 g' _ w' HL Hd Hev Hr2 Htx1 Hty1 Hloop) as (Hr' & Hin').
      split; [exact Hr'|]. intros _. apply Hin'. left. exact Hin2.
    + rewrite (main_loop_stopped _ g w Hrun). intros [= <- <-].
      split; [exact Hr|].
      intros [Hin|[_ Hf]]; [exact Hin|discriminate].
Qed.

(** Once the loop has drawn its first frame, every unit of the game is
    in the field and stays there: 0 <= x <= 760 and 0 <= y <= 560,
    and its 40x40 box lies inside the 800x600 window, whatever the
    user clicks and however many frames follow.  The mathematical
    functions and the weight distribution are asked to stay in their
    ranges, and the events to carry [int] coordinates. *)
Theorem units_stay_in_field (frames : nat) (w w0 w1 : World)
    (g0 g : Game.t) :
  libm_in_range L -> draws_in_range H -> events_are_ints H ->
  Game.init Game.new w = Ok ((true, g0), w0) ->
  main_loop (S frames) g0 w0 = Ok (g, w1) ->
  Forall (fun u => in_field u = true /\ box_in_window u = true)
         (Game.units g).
Proof.
  intros HL Hd Hev Einit Eloop.
  destruct (init_reachable w w0 g0 Einit) as (Hr & Ht & Hrun).
  apply (main_loop_in_field (S frames) g0 g w0 w1 HL Hd Hev Hr);
    [rewrite Ht; reflexivity|rewrite Ht; reflexivity|exact Eloop|].
  right. split; [discriminate|exact Hrun].
Qed.

End Field.

Lemma host_stub_events : events_are_ints host_stub.
Proof.
  intros k. destruct k as [|[|[|[|k]]]]; reflexivity.
Qed.

Lemma units_stay_in_field_witness :
  exists g w1,
    main_loop (H := libm_stub) (H0 := host_stub) 4 game_stub (mkWorld 40 10 0)
      = Ok (g, w1)
    /\ Forall (fun u => in_field u = true /\ box_in_window u = true)
              (Game.units g).
Proof.
  destruct (main_loop_ok (L := libm_stub) (H := host_stub) 4 game_stub
              (mkWorld 40 10 0) eq_refl) as (g & w1 & E & _).
  exists g, w1. split; [exact E|].
  refine (units_stay_in_field (L := libm_stub) (H := host_stub) 3 world0
            (mkWorld 40 10 0) w1 game_stub g
            libm_stub_in_range host_stub_in_range host_stub_events _ E).
  vm_compute. reflexivity.
Defined.
